(** * pylayers.measures.parker.smparker : motion profiles and axis protocol

    A shallow embedding of [smparker.py] (Python 2, numpy) and the
    verification of its specification.

    - Python numbers are [pynum]: an [int] is a [Z], a [float] is an element
      of a type [F] with the operations of the class [FloatOps].  The
      development is generic in [F]; two instances are given at the end of
      the definitions: [Q] (exact arithmetic, the real-number reading of
      the code) and [float] (Rocq's primitive binary64, the arithmetic
      Python and numpy really use).
    - Exceptions are values of [exn]; pure code lives in the error monad
      [result], methods of [Axes] in a state-and-error monad [M] in which
      the state survives an exception, as the mutated objects do in Python.
    - The serial port is a shared store: what was written, and the line
      lists that the next calls of [readlines] will return. *)

From Stdlib Require Import ZArith QArith Qabs Qround Lqa Floats String Ascii DecimalString.
From stdpp Require Import gmap strings list fin_maps.

Local Open Scope string_scope.
Local Open Scope list_scope.
Local Open Scope Z_scope.

(** ** Exceptions and the error monad *)

Inductive key := KInt (z : Z) | KStr (s : string).

Inductive exn :=
  | ZeroDivisionError
  | IndexError
  | KeyError (k : key)
  | ValueError
  | TypeError
  | OverflowError
  | SyntaxError
  | NameError (name : string)
  | AssertionError (msg : string).

Definition result (A : Type) : Type := (exn + A)%type.

Definition raise {A} (e : exn) : result A := inl e.

#[global] Instance result_ret : MRet result := fun A x => inr x.
#[global] Instance result_bind : MBind result := fun A B f m =>
  match m with inl e => inl e | inr x => f x end.

(** ** Python numbers *)

(** The operations of Python's [float] that the module uses. *)
Class FloatOps (F : Type) := {
  f_of_Z : Z -> F;              (* float(n) for an int n *)
  f_add : F -> F -> F;
  f_sub : F -> F -> F;
  f_mul : F -> F -> F;
  f_div : F -> F -> F;
  f_neg : F -> F;
  f_eqb : F -> F -> bool;
  f_ltb : F -> F -> bool;
  f_leb : F -> F -> bool;
  f_trunc : F -> result Z;      (* int(x): toward zero; nan and inf raise *)
  f_str : F -> string           (* str(x) *)
}.

(** str(n) for an int n: decimal digits, with a sign when negative. *)
Definition str_int (z : Z) : string := NilZero.string_of_int (Z.to_int z).

Section Numbers.
Context {F : Type} `{FloatOps F}.

Inductive pynum := PInt (z : Z) | PFloat (x : F).

(** float(a) *)
Definition py_float (a : pynum) : F :=
  match a with PInt z => f_of_Z z | PFloat x => x end.

Definition py_add (a b : pynum) : pynum :=
  match a, b with
  | PInt x, PInt y => PInt (x + y)
  | _, _ => PFloat (f_add (py_float a) (py_float b))
  end.

Definition py_sub (a b : pynum) : pynum :=
  match a, b with
  | PInt x, PInt y => PInt (x - y)
  | _, _ => PFloat (f_sub (py_float a) (py_float b))
  end.

Definition py_mul (a b : pynum) : pynum :=
  match a, b with
  | PInt x, PInt y => PInt (x * y)
  | _, _ => PFloat (f_mul (py_float a) (py_float b))
  end.

(** [a / b] in Python 2 (no [from __future__ import division]): floor
    division on two ints, float division otherwise; a zero divisor
    raises in both cases. *)
Definition py_div (a b : pynum) : result pynum :=
  match a, b with
  | PInt x, PInt y =>
      if y =? 0 then raise ZeroDivisionError else mret (PInt (x / y))
  | _, _ =>
      if f_eqb (py_float b) (f_of_Z 0) then raise ZeroDivisionError
      else mret (PFloat (f_div (py_float a) (py_float b)))
  end.

(** [a ** 2] *)
Definition py_sqr (a : pynum) : pynum := py_mul a a.

(** [a <= b] *)
Definition py_le (a b : pynum) : bool :=
  match a, b with
  | PInt x, PInt y => x <=? y
  | _, _ => f_leb (py_float a) (py_float b)
  end.

(** int(a) *)
Definition py_int (a : pynum) : result Z :=
  match a with PInt z => mret z | PFloat x => f_trunc x end.

(** str(a) *)
Definition py_str (a : pynum) : string :=
  match a with PInt z => str_int z | PFloat x => f_str x end.

(** The keyword-argument idiom shared by the constructors:
    [for k in defaults: if k not in kwargs: kwargs[k] = defaults[k]]. *)
Definition setdefaults (defaults : list (string * pynum))
    (kwargs : gmap string pynum) : gmap string pynum :=
  foldl (fun kw '(k, d) =>
           match kw !! k with Some _ => kw | None => <[k := d]> kw end)
        kwargs defaults.

(** [kwargs[k]] *)
Definition getitem (kwargs : gmap string pynum) (k : string) : result pynum :=
  match kwargs !! k with
  | Some x => mret x
  | None => raise (KeyError (KStr k))
  end.
End Numbers.

Arguments pynum F : clear implicits.

(** ** The numpy operations used by [Profile]

    Arrays of float64 are lists of [F].  Index arrays as returned by
    [np.where] are lists of [nat]; they only ever hold positions of the
    array they were computed from, so reading or writing through them is
    always in range. *)
Module np.
Section Arrays.
Context {F : Type} `{FloatOps F}.

(** [np.arange(0, n)] as floats *)
Definition arange (n : nat) : list F :=
  (fun i => f_of_Z (Z.of_nat i)) <$> seq 0 n.

(** [np.linspace(start, stop, num)] with the end point included:
    [step = (stop-start)/float(num-1)], [y = arange(0,num)*step + start],
    and then [y[-1] = stop]. *)
Definition linspace (start stop : F) (num : nat) : list F :=
  match num with
  | O => []
  | S O => [start]
  | S m =>
      let step := f_div (f_sub stop start) (f_of_Z (Z.of_nat m)) in
      let y := (fun a => f_add (f_mul a step) start) <$> arange num in
      <[m := stop]> y
  end.

(** [np.ones(n)] *)
Definition ones (n : nat) : list F := replicate n (f_of_Z 1).

(** [np.where(cond)[0]] for an elementwise condition on [a]; the
    positions are numbered from [i]. *)
Fixpoint where_from (i : nat) (cond : F -> bool) (a : list F) : list nat :=
  match a with
  | [] => []
  | x :: a' =>
      if cond x then i :: where_from (S i) cond a'
      else where_from (S i) cond a'
  end.

Definition where_ (cond : F -> bool) (a : list F) : list nat :=
  where_from 0 cond a.

(** [a[u]] for an index array [u] *)
Definition take (a : list F) (u : list nat) : list F :=
  omap (fun i => a !! i) u.

(** [a[u] = vals] for an index array [u] *)
Definition put (a : list F) (u : list nat) (vals : list F) : list F :=
  foldl (fun acc '(i, x) => <[i := x]> acc) a (zip u vals).

(** [np.cumsum(a)]: running sums from the left. *)
Fixpoint cumsum_from (acc : F) (a : list F) : list F :=
  match a with
  | [] => []
  | x :: a' => let s := f_add acc x in s :: cumsum_from s a'
  end.

Definition cumsum (a : list F) : list F :=
  match a with
  | [] => []
  | x :: a' => x :: cumsum_from x a'
  end.

(** [a * c], [c * a], [-a] and [a + c] for an array [a] and a scalar [c] *)
Definition mul (a : list F) (c : F) : list F := (fun x => f_mul x c) <$> a.
Definition rmul (c : F) (a : list F) : list F := (fun x => f_mul c x) <$> a.
Definition neg (a : list F) : list F := f_neg <$> a.
Definition add (a : list F) (c : F) : list F := (fun x => f_add x c) <$> a.

(** Not a numpy function: what the idiom
    [a[np.where(c(t))[0]] = f(t[np.where(c(t))[0]])] leaves in [a],
    position by position (lemma [put_where]). *)
Definition select (c : F -> bool) (f : F -> F) (t a : list F) : list F :=
  zip_with (fun x y => if c x then f x else y) t a.
End Arrays.
End np.

(** ** class Profile *)
Module Profile.
Section Profile.
Context {F : Type} `{FloatOps F}.

Record Profile := mk {
  num : pynum F;  aa : pynum F;  ad : pynum F;  dstep : pynum F;
  vmax : pynum F;  vs : pynum F;  spr : pynum F;  N : pynum F;
  drev : pynum F;  T : pynum F;
  cmd : string;
  t : list F;  v : list F;  v1 : list F;  v2 : list F;
  dr : list F;  ds : list F
}.

Definition defaults : list (string * pynum F) :=
  [("num", PInt 1); ("aa", PInt 200); ("ad", PInt 200);
   ("dstep", PInt 12800); ("vmax", PInt 15); ("vs", PInt 0);
   ("spr", PInt 4000); ("N", PInt 100)].

(** The sample count as numpy takes it: an int, not negative. *)
Definition size_arg (n : pynum F) : result nat :=
  match n with
  | PFloat _ => raise TypeError
  | PInt z => if z <? 0 then raise ValueError else mret (Z.to_nat z)
  end.

(** [a[i]] on an array *)
Definition item (a : list F) (i : nat) : result F :=
  match a !! i with Some x => mret x | None => raise IndexError end.

Definition one : pynum F := PFloat (f_of_Z 1).

(** [Profile.__init__(self, **kwargs)] *)
Definition __init__ (kwargs : gmap string (pynum F)) : result Profile :=
  let kwargs := setdefaults defaults kwargs in
  num ← getitem kwargs "num";
  aa ← getitem kwargs "aa";
  ad ← getitem kwargs "ad";
  dstep ← getitem kwargs "dstep";
  vmax ← getitem kwargs "vmax";
  vs ← getitem kwargs "vs";
  spr ← getitem kwargs "spr";
  N ← getitem kwargs "N";
  drev ← py_div dstep (py_mul one spr);
  q ← py_div (py_sqr vmax) aa;
  T ← py_div (py_add drev q) (py_mul one vmax);
  let cmd := "PROFILE" +:+ py_str num +:+
             "(" +:+ py_str aa +:+ "," +:+ py_str ad +:+
             "," +:+ py_str dstep +:+ "," +:+ py_str vmax +:+
             "," +:+ py_str vs +:+ ")" in
  n ← size_arg N;
  let t := np.linspace (f_of_Z 0) (py_float T) n in
  let v := np.rmul (py_float vmax) (np.ones n) in
  let v1 := np.mul t (py_float aa) in
  let v2 := np.mul t (py_float ad) in
  t1 ← py_div vmax (py_mul one aa);
  d ← py_div vmax (py_mul one ad);
  let t2 := py_sub T d in
  let u1 := np.where_ (fun x => f_ltb x (py_float t1)) t in
  let u2 := np.where_ (fun x => f_leb (py_float t2) x) t in
  let v := np.put v u1 (np.mul (np.take t u1) (py_float aa)) in
  let v := np.put v u2
             (np.add (np.mul (np.neg (np.take t u2)) (py_float ad))
                     (py_float (py_add vmax (py_mul ad t2)))) in
  t_1 ← item t 1;
  t_0 ← item t 0;
  let dr := np.mul (np.cumsum v) (f_sub t_1 t_0) in
  let ds := np.mul dr (py_float spr) in
  mret (mk num aa ad dstep vmax vs spr N drev T cmd t v v1 v2 dr ds).

Implicit Types p : Profile.

(** The local variables [t1] (end of the acceleration phase) and [t2]
    (beginning of the deceleration phase) of [__init__], recomputed from
    the fields of the object. *)
Definition t1 p : result (pynum F) := py_div (vmax p) (py_mul one (aa p)).
Definition t2 p : result (pynum F) :=
  d ← py_div (vmax p) (py_mul one (ad p)); mret (py_sub (T p) d).

(** The two ramps, for one sample [x] of [t]. *)
Definition ramp_up p (x : F) : F := f_mul x (py_float (aa p)).
Definition ramp_down p (t2 : pynum F) (x : F) : F :=
  f_add (f_mul (f_neg x) (py_float (ad p)))
        (py_float (py_add (vmax p) (py_mul (ad p) t2))).

(** What a finished [__init__] has established about its object: [n] is
    the sample count, [t1v] and [t2v] the values of [t1] and [t2], [t_0]
    and [t_1] the first two samples of [t]. *)
Record constructed p (n : nat) (t1v t2v : pynum F) (t_0 t_1 : F) : Prop := {
  c_drev : py_div (dstep p) (py_mul one (spr p)) = inr (drev p);
  c_T : (q ← py_div (py_sqr (vmax p)) (aa p);
         py_div (py_add (drev p) q) (py_mul one (vmax p))) = inr (T p);
  c_cmd : cmd p = "PROFILE" +:+ py_str (num p) +:+
             "(" +:+ py_str (aa p) +:+ "," +:+ py_str (ad p) +:+
             "," +:+ py_str (dstep p) +:+ "," +:+ py_str (vmax p) +:+
             "," +:+ py_str (vs p) +:+ ")";
  c_N : size_arg (N p) = inr n;
  c_t : t p = np.linspace (f_of_Z 0) (py_float (T p)) n;
  c_t1 : t1 p = inr t1v;
  c_t2 : t2 p = inr t2v;
  c_v : v p =
    let u1 := np.where_ (fun x => f_ltb x (py_float t1v)) (t p) in
    let u2 := np.where_ (fun x => f_leb (py_float t2v) x) (t p) in
    np.put
      (np.put (np.rmul (py_float (vmax p)) (np.ones n)) u1
              (np.mul (np.take (t p) u1) (py_float (aa p))))
      u2
      (np.add (np.mul (np.neg (np.take (t p) u2)) (py_float (ad p)))
              (py_float (py_add (vmax p) (py_mul (ad p) t2v))));
  c_t0 : t p !! 0%nat = Some t_0;
  c_t1' : t p !! 1%nat = Some t_1;
  c_dr : dr p = np.mul (np.cumsum (v p)) (f_sub t_1 t_0);
  c_ds : ds p = np.mul (dr p) (py_float (spr p))
}.
End Profile.
Arguments Profile F : clear implicits.
End Profile.

(** ** Python strings *)

Definition crlf : string := String "013" (String "010" "").

(** [s.replace(old, new)] for a non-empty [old]: occurrences are replaced
    from the left, without overlap.  [skip] counts the characters of a
    match that are still to be dropped. *)
Fixpoint replace_go (old new : string) (skip : nat) (s : string) : string :=
  match s with
  | "" => ""
  | String c s' =>
      match skip with
      | S k => replace_go old new k s'
      | O =>
          if String.prefix old s
          then new +:+ replace_go old new (String.length old - 1) s'
          else String c (replace_go old new 0 s')
      end
  end.

Definition replace (old new s : string) : string := replace_go old new 0 s.

(** [s.split(sep)] for a one-character separator. *)
Fixpoint split (sep : ascii) (s : string) : list string :=
  match s with
  | "" => [""]
  | String c s' =>
      if Ascii.eqb c sep then "" :: split sep s'
      else match split sep s' with
           | w :: ws => String c w :: ws
           | [] => [String c ""]
           end
  end.

Definition is_digit (c : ascii) : bool :=
  let n := nat_of_ascii c in (48 <=? n)%nat && (n <=? 57)%nat.

Definition is_name_start (c : ascii) : bool :=
  let n := nat_of_ascii c in
  ((65 <=? n)%nat && (n <=? 90)%nat) || ((97 <=? n)%nat && (n <=? 122)%nat)
  || (n =? 95)%nat.

(** [s.split(sep)] for a separator of any positive length: the fields
    between the occurrences of [sep], found from the left without overlap.
    [skip] counts the characters of a separator still to be dropped. *)
Fixpoint split_str_go (sep : string) (skip : nat) (s : string) : list string :=
  match s with
  | "" => [""]
  | String c s' =>
      match skip with
      | S k => split_str_go sep k s'
      | O =>
          if String.prefix sep s
          then "" :: split_str_go sep (String.length sep - 1) s'
          else match split_str_go sep 0 s' with
               | w :: ws => String c w :: ws
               | [] => [String c ""]
               end
      end
  end.

Definition split_str (sep s : string) : list string := split_str_go sep 0 s.

(** [c in s] for a one-character string [c] *)
Fixpoint contains (c : ascii) (s : string) : bool :=
  match s with
  | "" => false
  | String x s' => Ascii.eqb x c || contains c s'
  end.

(** What the print statement writes between an item [s] already written
    and the next one: a space, unless [s] ends in a white character other
    than the space (the soft space of Python 2). *)
Definition soft_space (s : string) : string :=
  match rev (list_ascii_of_string s) with
  | c :: _ =>
      let n := nat_of_ascii c in
      if (9 <=? n)%nat && (n <=? 13)%nat then "" else " "
  | [] => " "
  end.

(** [eval(c)] for a one-character string, inside [reg]'s double loop: a
    digit is its value; [k] and [l] are the loop variables, the only
    one-letter names in scope; any other name is undefined and anything
    else is not an expression. *)
Definition eval_char (k l : Z) (c : ascii) : result Z :=
  if is_digit c then mret (Z.of_nat (nat_of_ascii c) - 48)
  else if Ascii.eqb c "k" then mret k
  else if Ascii.eqb c "l" then mret l
  else if is_name_start c then raise (NameError (String c ""))
  else raise SyntaxError.

(** ** The serial port and class Axes *)

(** The port as the scanner's axes share it: the strings written so far,
    and the line lists that the coming calls of [readlines] return (an
    exhausted queue reads as a timeout: no line). *)
Record Serial := mkSerial {
  written : list string;
  pending : list (list string)
}.

Module Axes.

(** Axes.dstatus, Axes.dusrflt, Axes.ddrvflt *)
Definition dstatus : gmap Z string :=
  list_to_map
    [(1, "command processing paused"); (2, "looping");
     (3, "wait for trigger"); (4, "running program");
     (5, "going home"); (6, "waiting for delay timeout");
     (7, "registration in progress"); (9, "motor energised");
     (11, "event trigger active until trigger inputs are reset");
     (12, "input in LSEL not matching label");
     (13, "-ve limit seen during last move");
     (14, "+ve limit seen during last move");
     (19, "moving"); (20, "stationnary");
     (21, "no registration signal seen in registration window");
     (22, "cannot stop within the defined regisration distance")].

Definition dusrflt : gmap Z string :=
  list_to_map
    [(1, "value is out of range"); (2, "incorrect command syntax");
     (3, "last label already in use");
     (4, "label of this name not defined");
     (5, "missing Z pulse when homing");
     (6, "homing failed no signal detected");
     (7, "home signal too narrow"); (8, "drive de-energised");
     (9, "cannot related end statement to a label");
     (10, "program memory buffer full");
     (11, "no more motion profiles avaible");
     (12, "no more sequence labels avaible");
     (13, "end of travel limit hit"); (14, "still moving");
     (15, "deceleration error"); (16, "transmit buffer overflow");
     (17, "user program nesting overflow");
     (18, "cannot use an undefined profile"); (19, "drive not ready");
     (22, "save error");
     (23, "command not supported by this product")].

Definition ddrvflt : gmap Z string :=
  list_to_map
    [(1, "Composite Fault"); (2, "Output stage over curent");
     (3, "Supply rail failure"); (4, "Ambient over temperature");
     (5, "Drive over temperature"); (6, "Configuration error");
     (7, "Motor high voltage rail failure"); (8, "Output fault")].

(** Axes.svar *)
Definition svar : gmap string string :=
  list_to_map
    [("BU", "Buffer Usage"); ("CQ", "Command queuing");
     ("DF", "Drive Fault status"); ("EI", "Encoder Input");
     ("EO", "Encoder signal output"); ("EP", "Encoder Position");
     ("ER", "Feedback encoder resolution");
     ("EX", "Coms response Style & echo control");
     ("IN", "Inputs"); ("IP", "In position flag");
     ("IT", "IN position Time"); ("MC", "Motor current");
     ("MR", "Motor resolution"); ("MS", "Motor Standby current");
     ("MV", "Moving"); ("PA", "Position Absolute");
     ("PE", "Position Error"); ("PI", "Position Incremental");
     ("RB", "Ready/Busy flag"); ("RM", "Registration Move");
     ("RV", "Revision software"); ("SN", "Serial Number");
     ("ST", "Status of indexing"); ("UF", "User Program Fault status")].

Section Axes.
Context {F : Type} `{FloatOps F}.

Record Axes := mk {
  status : list Z;
  usrflt : list Z;
  drvflt : list Z;
  _id : pynum F;
  name : string;
  scale : pynum F;
  typ : string;
  lprofile : list (Profile.Profile F)
}.

(** [Axes.__init__(self, _id, name, ser, scale=12800, typ='t')]; the
    port is the shared store of the state below. *)
Definition __init__ (_id : pynum F) (name : string)
    (scale : pynum F) (typ : string) : Axes :=
  mk (replicate 32 0) (replicate 32 0) (replicate 32 0)
     _id name scale typ [].

(** What a method can see and change: its object, the port, and the
    lines printed on standard output. *)
Record state := mkState {
  self : Axes;
  ser : Serial;
  stdout : list string
}.

(** Methods: the state is threaded, and kept when an exception leaves
    the method. *)
Definition M (A : Type) : Type := state -> result A * state.

#[global] Instance M_ret : MRet M := fun A x s => (inr x, s).
#[global] Instance M_bind : MBind M := fun A B f m s =>
  match m s with
  | (inl e, s') => (inl e, s')
  | (inr x, s') => f x s'
  end.

Definition throw {A} (e : exn) : M A := fun s => (inl e, s).
Definition lift {A} (r : result A) : M A := fun s => (r, s).
Definition get_self : M Axes := fun s => (inr (self s), s).
Definition set_self (a : Axes) : M unit :=
  fun s => (inr tt, mkState a (ser s) (stdout s)).

(** [print x] *)
Definition print (x : string) : M unit :=
  fun s => (inr tt, mkState (self s) (ser s) (stdout s ++ [x])).

(** [self.ser.write(x)] *)
Definition ser_write (x : string) : M unit :=
  fun s => (inr tt,
            mkState (self s)
                    (mkSerial (written (ser s) ++ [x]) (pending (ser s)))
                    (stdout s)).

(** [self.ser.readlines()] *)
Definition ser_readlines : M (list string) :=
  fun s =>
    match pending (ser s) with
    | [] => (inr [], s)
    | ls :: rest =>
        (inr ls, mkState (self s) (mkSerial (written (ser s)) rest) (stdout s))
    end.

(** [for x in xs: body(x)] *)
Fixpoint for_ {A} (xs : list A) (body : A -> M unit) : M unit :=
  match xs with
  | [] => mret tt
  | x :: xs' => _ ← body x; for_ xs' body
  end.

(** [range(n)] *)
Definition range (n : nat) : list Z := Z.of_nat <$> seq 0 n.

(** The second argument of [com] as Python tests it: [verbose] is
    declared a flag, but [reg] passes a string there. *)
Inductive pyarg := ABool (b : bool) | AStr (s : string).

Definition truthy (a : pyarg) : bool :=
  match a with
  | ABool b => b
  | AStr s => negb (String.eqb s "")
  end.

(** [Axes.com(self, command='R(SN)', verbose=False)] *)
Definition com (command : string) (verbose : pyarg) : M (list string) :=
  a ← get_self;
  let cst := py_str (_id a) +:+ command +:+ crlf in
  _ ← (if truthy verbose then print cst else mret tt);
  _ ← ser_write cst;
  st ← ser_readlines;
  mret st.

(** Attribute and item assignments on [self]. *)
Definition with_status (a : Axes) (x : list Z) : Axes :=
  mk x (usrflt a) (drvflt a) (_id a) (name a) (scale a) (typ a) (lprofile a).
Definition with_usrflt (a : Axes) (x : list Z) : Axes :=
  mk (status a) x (drvflt a) (_id a) (name a) (scale a) (typ a) (lprofile a).
Definition with_drvflt (a : Axes) (x : list Z) : Axes :=
  mk (status a) (usrflt a) x (_id a) (name a) (scale a) (typ a) (lprofile a).
Definition with_lprofile (a : Axes) (x : list (Profile.Profile F)) : Axes :=
  mk (status a) (usrflt a) (drvflt a) (_id a) (name a) (scale a) (typ a) x.

(** [l[i]] for a list and a non-negative [i] *)
Definition list_item {A} (l : list A) (i : Z) : result A :=
  match l !! Z.to_nat i with Some x => mret x | None => raise IndexError end.

(** [s[i]] for a string and a non-negative [i] *)
Definition str_item (s : string) (i : Z) : result ascii :=
  match String.get (Z.to_nat i) s with
  | Some c => mret c
  | None => raise IndexError
  end.

(** [l[i] = x] for a list and a non-negative [i] *)
Definition list_setitem {A} (l : list A) (i : Z) (x : A) : result (list A) :=
  if (Z.to_nat i <? length l)%nat then mret (<[Z.to_nat i := x]> l)
  else raise IndexError.

(** [d[k]] for one of the description tables *)
Definition dict_item (d : gmap Z string) (k : Z) : result string :=
  match d !! k with Some x => mret x | None => raise (KeyError (KInt k)) end.

(** [l.pop(i)]: a negative [i] counts from the end. *)
Definition list_pop {A} (l : list A) (i : Z) : result (A * list A) :=
  let n := Z.of_nat (length l) in
  let j := if i <? 0 then i + n else i in
  if (j <? 0) || (n <=? j) then raise IndexError
  else match l !! Z.to_nat j with
       | Some x => mret (x, delete (Z.to_nat j) l)
       | None => raise IndexError
       end.

(** [Axes.del_profile(self, index=1)] *)
Definition del_profile (index : Z) : M unit :=
  a ← get_self;
  r ← lift (list_pop (lprofile a) (index - 1));
  set_self (with_lprofile a r.2).

Definition add_defaults : list (string * pynum F) :=
  [("num", PInt 0); ("aa", PInt 200); ("ad", PInt 200);
   ("dstep", PInt 12800); ("v", PInt 15); ("vs", PInt 0);
   ("spr", PInt 4000); ("N", PInt 100)].

(** [Axes.add_profile(self, **kwargs)] *)
Definition add_profile (kwargs : gmap string (pynum F)) : M unit :=
  let kwargs := setdefaults add_defaults kwargs in
  a ← get_self;
  let num := Z.of_nat (length (lprofile a)) in
  let kwargs := <["num" := PInt (num + 1)]> kwargs in
  if Z.of_nat (length (lprofile a)) <? 8 then
    prof ← lift (Profile.__init__ kwargs);
    set_self (with_lprofile a (lprofile a ++ [prof]))
  else mret tt.

(** [Axes.set_profile(self, num)] *)
Definition set_profile (num : pynum F) : M unit :=
  a ← get_self;
  if py_le num (PInt (Z.of_nat (length (lprofile a)))) then
    _ ← com (py_str (_id a) +:+ "USE" +:+ py_str num) (ABool false);
    mret tt
  else throw (AssertionError "profile number not defined").

(** [Axes.reset(self)] *)
Definition reset : M unit :=
  _ ← com "OFF" (ABool false);
  _ ← com "ON" (ABool false);
  mret tt.

(** [Axes.mvpro(self, id_pro)] *)
Definition mvpro (id_pro : pynum F) : M unit :=
  _ ← com ("USE(" +:+ py_str id_pro +:+ ")") (ABool false);
  _ ← com "G" (ABool false);
  mret tt.

(** One register of [reg]: [reg[i] = val], then, [if val:], the lookup
    and print of the description of code [i+1]. *)
Definition store_bit (get : Axes -> list Z) (set : Axes -> list Z -> Axes)
    (table : gmap Z string) (i val : Z) : M unit :=
  a ← get_self;
  r ← lift (list_setitem (get a) i val);
  _ ← set_self (set a r);
  if val =? 0 then mret tt
  else d ← lift (dict_item table (i + 1)); print d.

(** [Axes.reg(self, typ='ST')].  The call [self.com('R','('+typ+')')]
    binds ['R'] to [command] and the bracketed register name to
    [verbose]. *)
Definition reg (typ : string) : M unit :=
  buf ← com "R" (AStr ("(" +:+ typ +:+ ")"));
  buf ← lift (list_item buf 1);
  let buf := split "_" (replace crlf "" (replace "*" "" buf)) in
  for_ (range 8) (fun k =>
    for_ (range 4) (fun l =>
      g ← lift (list_item buf k);
      c ← lift (str_item g l);
      val ← lift (eval_char k l c);
      _ ← (if String.eqb typ "ST"
           then store_bit status with_status dstatus (k * 4 + l) val
           else mret tt);
      _ ← (if String.eqb typ "UF"
           then store_bit usrflt with_usrflt dusrflt (k * 4 + l) val
           else mret tt);
      if String.eqb typ "DF"
      then store_bit drvflt with_drvflt ddrvflt (k * 4 + l) val
      else mret tt)).

(** [Axes.mv(self, var=0)].  After the two commands the method goes on
    with [self.com(scom2, verbose=True)], and [scom2] is bound nowhere:
    evaluating the argument raises before anything is sent. *)
Definition mv (var : pynum F) : M unit :=
  a ← get_self;
  nstep ← lift (py_int (py_mul var (scale a)));
  let scom1 := "D" +:+ str_int nstep in
  _ ← com scom1 (ABool false);
  _ ← com "G" (ABool false);
  throw (NameError "scom2").

(** A caller running a method and catching what it raises: the state
    after the call. *)
Definition exec {A} (m : M A) (s : state) : state := (m s).2.

(** A caller making a sequence of calls, each one caught. *)
Definition exec_all {A} (ms : list (M A)) (s : state) : state :=
  foldl (fun s m => exec m s) s ms.

(** The frame sent for [command] by the axis of state [s]:
    [str(self._id) + command + '\r\n']. *)
Definition frame (s : state) (command : string) : string :=
  py_str (_id (self s)) +:+ command +:+ crlf.

(** The keyword arguments that [add_profile] hands to [Profile]. *)
Definition passed (s : state) (kwargs : gmap string (pynum F))
    : gmap string (pynum F) :=
  <["num" := PInt (Z.of_nat (length (lprofile (self s))) + 1)]>
    (setdefaults add_defaults kwargs).

(** What a call of [reg typ] may change between [a] and [a']: nothing
    but the register that [typ] names. *)
Definition unchanged (typ : string) (a a' : Axes) : Prop :=
  lprofile a' = lprofile a /\ _id a' = _id a /\ name a' = name a /\
  scale a' = scale a /\ Axes.typ a' = Axes.typ a /\
  (typ <> "ST" -> status a' = status a) /\
  (typ <> "UF" -> usrflt a' = usrflt a) /\
  (typ <> "DF" -> drvflt a' = drvflt a).

(** A computation that keeps this frame from every state, whether it
    returns or raises. *)
Definition keeps {A} (typ : string) (m : M A) : Prop :=
  forall s, unchanged typ (self s) (self (m s).2).

(** [Axes.__repr__(self)] *)
Definition __repr__ (a : Axes) : string := "st" +:+ py_str (_id a).

(** [print a, e] where evaluating the second item may raise: the first
    item is written by then. *)
Definition print2 (a : string) (e : result string) : M unit :=
  match e with
  | inr x => print (a +:+ soft_space a +:+ x)
  | inl err => _ ← print a; throw err
  end.

(** [print a, e, c], likewise. *)
Definition print3 (a : string) (e : result string) (c : string) : M unit :=
  match e with
  | inr x => print (a +:+ soft_space a +:+ x +:+ soft_space x +:+ c)
  | inl err => _ ← print a; throw err
  end.

(** [Axes.getvar(self, lvar=[])].  [keys] is the list [Axes.svar.keys()],
    whose order Python 2 leaves to its hash table. *)
Definition getvar (keys : list string) (lvar : list string) : M unit :=
  let lvar := match lvar with [] => keys | _ => lvar end in
  for_ lvar (fun var =>
    st ← com ("R(" +:+ var +:+ ")") (ABool false);
    desc ← lift (match svar !! var with
                 | Some d => mret d
                 | None => raise (KeyError (KStr var))
                 end);
    print2 desc (list_item st 1)).

(** The values of [home]'s keyword arguments: numbers, and the string of
    ['edg']. *)
Inductive pyval := VNum (x : pynum F) | VStr (s : string).

(** [str(v)] *)
Definition val_str (v : pyval) : string :=
  match v with VNum x => py_str x | VStr s => s end.

(** [v > 0]; Python 2 orders every string after every number. *)
Definition val_gt0 (v : pyval) : bool :=
  match v with
  | VNum (PInt z) => 0 <? z
  | VNum (PFloat x) => f_ltb (f_of_Z 0) x
  | VStr _ => true
  end.

(** [v] as the operand of a string concatenation: a number is refused. *)
Definition val_text (v : pyval) : result string :=
  match v with VStr s => mret s | VNum _ => raise TypeError end.

Definition home_defaults : list (string * pyval) :=
  [("mode", VNum (PInt 0)); ("vel", VNum (PInt 10)); ("acc", VNum (PInt 10));
   ("edg", VStr "+"); ("typ", VNum (PInt 0)); ("armed", VNum (PInt 1))].

(** The keyword-argument idiom of [home], on its own values. *)
Definition kwdefaults (defaults : list (string * pyval))
    (kwargs : gmap string pyval) : gmap string pyval :=
  foldl (fun kw '(k, d) =>
           match kw !! k with Some _ => kw | None => <[k := d]> kw end)
        kwargs defaults.

Definition kwitem (kwargs : gmap string pyval) (k : string) : result pyval :=
  match kwargs !! k with
  | Some x => mret x
  | None => raise (KeyError (KStr k))
  end.

(** The branch [cmd=='get'] of [home].  [py_eval text] stands for
    [str(eval(text))], the text that [print] writes for the value of the
    expression [text], or what its evaluation raises: Python's evaluator
    is no part of this module. *)
Definition home_get (py_eval : string -> result string) : M unit :=
  st ← com "HOME" (ABool false);
  line ← lift (list_item st 1);
  let ans := split " " line in
  a0 ← lift (list_item ans 0);
  _ ← print (if contains "1" a0 then "armed, " else "not armed, ");
  a1 ← lift (list_item ans 1);
  _ ← print (if contains "-" a1 then "reference edge is negative, "
             else "reference edge is positive, ");
  a2 ← lift (list_item ans 2);
  _ ← print (if contains "1" a2 then "home switch normally closed 1, "
             else "home switch normally open 0 (default),  ");
  a3 ← lift (list_item ans 3);
  _ ← (if contains "+" a3
       then print3 "velocity : +"
              (x ← list_item (split_str "V+" a3) 1; py_eval x) "rps"
       else print3 "velocity : -"
              (x ← list_item (split_str "V-" a3) 1; py_eval x) "rps");
  _ ← print3 "acceleraton : "
        (a4 ← list_item ans 4; x ← list_item (split_str "A" a4) 1; py_eval x)
        ("rps" +:+ String "194" (String "178" ""));
  a5 ← lift (list_item ans 5);
  _ ← (if contains "0" a5
       then print "Mode 0: Motor in the active window of the switch(default)"
       else mret tt);
  a5 ← lift (list_item ans 5);
  _ ← (if contains "1" a5
       then print "Mode 1: Motor in the position to the edge + or -"
       else mret tt);
  a5 ← lift (list_item ans 5);
  if contains "2" a5
  then print "Mode 2: Improve homing repeatability"
  else mret tt.

(** The branch [cmd=='set'] of [home]. *)
Definition home_set (kwargs : gmap string pyval) : M unit :=
  v ← lift (kwitem kwargs "vel");
  let vel := if val_gt0 v then "+" +:+ val_str v else "-" +:+ val_str v in
  armed ← lift (kwitem kwargs "armed");
  edg ← lift (kwitem kwargs "edg");
  edg ← lift (val_text edg);
  typ ← lift (kwitem kwargs "typ");
  acc ← lift (kwitem kwargs "acc");
  mode ← lift (kwitem kwargs "mode");
  let cstr := "HOME" +:+ val_str armed +:+
              "(" +:+ edg +:+ "," +:+
              val_str typ +:+ "," +:+
              vel +:+ "," +:+
              val_str acc +:+ "," +:+
              val_str mode +:+ ")" in
  _ ← com cstr (ABool false);
  mret tt.

(** The branch [cmd=='go'] of [home]. *)
Definition home_go : M unit :=
  _ ← com "HOME1" (ABool false);
  _ ← com "ARM1" (ABool false);
  _ ← com "GH" (ABool false);
  mret tt.

(** [Axes.home(self, cmd='get', **kwargs)] *)
Definition home (py_eval : string -> result string) (cmd : string)
    (kwargs : gmap string pyval) : M unit :=
  let kwargs := kwdefaults home_defaults kwargs in
  _ ← (if String.eqb cmd "get" then home_get py_eval else mret tt);
  _ ← (if String.eqb cmd "set" then home_set kwargs else mret tt);
  if String.eqb cmd "go" then home_go else mret tt.

(** [Axes.homeor(self)] *)
Definition homeor : M unit :=
  a ← get_self;
  let scom0 := "HOME" +:+ py_str (_id a) in
  let scom1 := "ARM" +:+ py_str (_id a) in
  _ ← com scom0 (ABool false);
  _ ← com scom1 (ABool false);
  _ ← com "GH" (ABool false);
  mret tt.

(** The register that [reg typ] writes: how it is read and assigned, and
    its table of descriptions. *)
Definition register (typ : string)
    : option ((Axes -> list Z) * (Axes -> list Z -> Axes) * gmap Z string) :=
  if String.eqb typ "ST" then Some (status, with_status, dstatus)
  else if String.eqb typ "UF" then Some (usrflt, with_usrflt, dusrflt)
  else if String.eqb typ "DF" then Some (drvflt, with_drvflt, ddrvflt)
  else None.

(** The profile at position [i] of the list carries the number [i+1]. *)
Definition numbered (l : list (Profile.Profile F)) : Prop :=
  forall i p, l !! i = Some p -> Profile.num p = PInt (Z.of_nat i + 1).

(** State [s'] follows [s] in the protocol: the axis has kept its id, the
    port has received some commands more, each framed with that id, and
    one waiting reply was taken for each. *)
Definition follows (s s' : state) : Prop :=
  _id (self s') = _id (self s) /\
  exists cmds : list string,
    written (ser s') = written (ser s) ++ (frame s <$> cmds) /\
    pending (ser s') = drop (length cmds) (pending (ser s)).

(** A computation that keeps to the protocol from every state, whether
    it returns or raises. *)
Definition polite {A} (m : M A) : Prop := forall s, follows s (m s).2.
(** The state after the commands [cmds] were sent from [s] and a reply
    taken for each, with nothing printed. *)
Definition sent (s : state) (cmds : list string) : state :=
  mkState (self s)
          (mkSerial (written (ser s) ++ (frame s <$> cmds))
                    (drop (length cmds) (pending (ser s))))
          (stdout s).

(** The same, with [out] printed besides. *)
Definition told (s : state) (cmds : list string) (out : list string) : state :=
  mkState (self s)
          (mkSerial (written (ser s) ++ (frame s <$> cmds))
                    (drop (length cmds) (pending (ser s))))
          (stdout s ++ out).

(** The command that [getvar] sends for [var]: ['R(' + var + ')']. *)
Definition read_cmd (var : string) : string := "R(" +:+ var +:+ ")".

(** The registers of [a'] have the sizes of the registers of [a]. *)
Definition sized (a a' : Axes) : Prop :=
  length (status a') = length (status a) /\
  length (usrflt a') = length (usrflt a) /\
  length (drvflt a') = length (drvflt a).

(** A computation that keeps the sizes of the registers from every
    state, whether it returns or raises. *)
Definition steady {A} (m : M A) : Prop :=
  forall s, sized (self s) (self (m s).2).
End Axes.
Arguments Axes F : clear implicits.
Arguments state F : clear implicits.
Arguments pyval F : clear implicits.
End Axes.

(** ** str(x) for a float

    Python 2.7 prints a float with [%.12g] and adds [.0] to a result that
    would read as an int.  [format_g12] does so for the exact value of the
    float, a rational. *)
Module FloatStr.
Definition pow10 (e : Z) : Q :=
  if 0 <=? e then inject_Z (10 ^ e) else (/ inject_Z (10 ^ (- e)))%Q.

(** Round to the nearest integer, ties to even. *)
Definition round_half_even (x : Q) : Z :=
  let n := (2 * Qnum x) in
  let d := (2 * Zpos (Qden x)) in
  let q := n / d in
  let r := n mod d in
  if r <? Zpos (Qden x) then q
  else if Zpos (Qden x) <? r then q + 1
  else if Z.even q then q else q + 1.

(** The decimal exponent of a positive rational [a]:
    [10^e <= a < 10^(e+1)]. *)
Definition exponent10 (a : Q) : Z :=
  let e0 := Z.log2 (Qnum a) - Z.log2 (Zpos (Qden a)) in
  (* log10 a lies within one of e0 * log10 2; search upward from below *)
  let lo := (e0 * 30103) / 100000 - 2 in
  let fix up (fuel : nat) (e : Z) : Z :=
    match fuel with
    | O => e
    | S fuel' => if Qle_bool (pow10 (e + 1)) a then up fuel' (e + 1) else e
    end in
  up 6%nat lo.

Fixpoint strip_zeros_rev (s : list ascii) : list ascii :=
  match s with
  | "0"%char :: s' => strip_zeros_rev s'
  | _ => s
  end.

(** Drop the trailing zeros of a digit string. *)
Definition strip_zeros (s : string) : string :=
  string_of_list_ascii (rev (strip_zeros_rev (rev (list_ascii_of_string s)))).

Definition zeros (n : nat) : string := string_of_list_ascii (replicate n "0"%char).

Definition take_str (n : nat) (s : string) : string := String.substring 0 n s.
Definition drop_str (n : nat) (s : string) : string :=
  String.substring n (String.length s - n) s.

Definition two_digits (e : Z) : string :=
  if e <? 10 then "0" +:+ str_int e else str_int e.

Definition format_g12 (x : Q) : string :=
  if Qeq_bool x 0 then "0.0"
  else
    let sign := if Qle_bool 0 x then "" else "-" in
    let a := Qabs x in
    let e := exponent10 a in
    let m := round_half_even (a / pow10 (e - 11))%Q in
    let '(m, e) := if m =? 10 ^ 12 then (10 ^ 11, e + 1) else (m, e) in
    let digits := str_int m in
    if (e <? -4) || (12 <=? e) then
      let frac := strip_zeros (drop_str 1 digits) in
      sign +:+ take_str 1 digits +:+
      (if String.eqb frac "" then "" else "." +:+ frac) +:+
      "e" +:+ (if e <? 0 then "-" else "+") +:+ two_digits (Z.abs e)
    else if 0 <=? e then
      let frac := strip_zeros (drop_str (Z.to_nat (e + 1)) digits) in
      sign +:+ take_str (Z.to_nat (e + 1)) digits +:+ "." +:+
      (if String.eqb frac "" then "0" else frac)
    else
      sign +:+ "0." +:+ zeros (Z.to_nat (- e - 1)) +:+ strip_zeros digits.
End FloatStr.

(** ** Two arithmetics *)

(** Exact arithmetic: a float is the rational it stands for, and no
    operation rounds. *)
Module Exact.
Definition ltb (x y : Q) : bool := negb (Qle_bool y x).
Definition trunc (x : Q) : result Z := mret (Z.quot (Qnum x) (Zpos (Qden x))).

#[global] Instance ops : FloatOps Q := {|
  f_of_Z := inject_Z;
  f_add := Qplus;
  f_sub := Qminus;
  f_mul := Qmult;
  f_div := Qdiv;
  f_neg := Qopp;
  f_eqb := Qeq_bool;
  f_ltb := ltb;
  f_leb := Qle_bool;
  f_trunc := trunc;
  f_str := FloatStr.format_g12
|}.

(** [round(x)] of Python 2: the nearest integer, ties away from zero. *)
Definition round (x : Q) : Z :=
  let r := Qfloor (Qabs x + (1 # 2))%Q in
  if Qle_bool 0 x then r else - r.

(** The uniform spacing [T/(n-1)] of the [n] samples of [t]. *)
Definition spacing (Tq : Q) (n : nat) : Q := (Tq / inject_Z (Z.of_nat (pred n)))%Q.

(** The quotient [vmax**2/aa] as Python 2 computes it: floored when both
    numbers are ints. *)
Definition sqr_quotient (vmax aa : pynum Q) : Q :=
  match vmax, aa with
  | PInt v, PInt a => inject_Z (v * v / a)%Z
  | _, _ => (py_float vmax * py_float vmax / py_float aa)%Q
  end.
End Exact.

(** IEEE 754 binary64 with rounding to nearest even: Python's [float] and
    numpy's [float64]. *)
Module Binary64.
Definition of_Z (z : Z) : float := SF2Prim (binary_normalize prec emax z 0 false).

Definition trunc (x : float) : result Z :=
  match Prim2SF x with
  | S754_zero _ => mret 0
  | S754_finite s m e =>
      let a := if 0 <=? e then Zpos m * 2 ^ e else Zpos m / 2 ^ (- e) in
      mret (if s then - a else a)
  | S754_infinity _ => raise OverflowError
  | S754_nan => raise ValueError
  end.

(** The exact value of a finite float. *)
Definition to_Q (s : bool) (m : positive) (e : Z) : Q :=
  let a := (inject_Z (Zpos m) * (if 0 <=? e then inject_Z (2 ^ e)
                                 else / inject_Z (2 ^ (- e))))%Q in
  (if s then - a else a)%Q.

Definition str (x : float) : string :=
  match Prim2SF x with
  | S754_zero s => if s then "-0.0" else "0.0"
  | S754_finite s m e => FloatStr.format_g12 (to_Q s m e)
  | S754_infinity s => if s then "-inf" else "inf"
  | S754_nan => "nan"
  end.

Definition round (x : float) : result Z :=
  match Prim2SF x with
  | S754_zero _ => mret 0
  | S754_finite s m e => mret (Exact.round (to_Q s m e))
  | S754_infinity _ => raise OverflowError
  | S754_nan => raise ValueError
  end.

#[global] Instance ops : FloatOps float := {|
  f_of_Z := of_Z;
  f_add := PrimFloat.add;
  f_sub := PrimFloat.sub;
  f_mul := PrimFloat.mul;
  f_div := PrimFloat.div;
  f_neg := PrimFloat.opp;
  f_eqb := PrimFloat.eqb;
  f_ltb := PrimFloat.ltb;
  f_leb := PrimFloat.leb;
  f_trunc := trunc;
  f_str := str
|}.
End Binary64.


(** ** The reply to a register read *)
Module Reply.
(** The character of the digit [n]. *)
Definition digit_char (n : nat) : ascii := ascii_of_nat (48 + n).

(** Group [k] of a reply: the four digits [d (4k)] to [d (4k+3)]. *)
Definition group (d : nat -> nat) (k : nat) : string :=
  string_of_list_ascii ((fun l => digit_char (d (4 * k + l)%nat)) <$> seq 0 4).

(** [sep.join(l)] *)
Fixpoint join (sep : string) (l : list string) : string :=
  match l with
  | [] => ""
  | [x] => x
  | x :: l' => x +:+ sep +:+ join sep l'
  end.

(** The line the controller answers to a register read, for the 32
    digits [d 0] to [d 31]: eight groups of four between two stars,
    separated by underscores, and the line terminator. *)
Definition encode (d : nat -> nat) : string :=
  "*" +:+ join "_" (group d <$> seq 0 8) +:+ "*" +:+ crlf.

(** The descriptions that [table] has for the digits that are not zero
    among the first [n], in order. *)
Definition described (table : gmap Z string) (d : nat -> nat) (n : nat)
    : list string :=
  omap (fun i => if (d i =? 0)%nat then None else table !! (Z.of_nat i + 1))
       (seq 0 n).

(** What a register holding [old] holds when the first [n] digits of a
    reply are stored in it. *)
Definition stored (old : list Z) (d : nat -> nat) (n : nat) : list Z :=
  (Z.of_nat ∘ d <$> seq 0 n) ++ drop n old.

(** The state that a register read leaves from [s]: the register, as
    [set] assigns it, holds [value]; the frame of [R] was sent, its reply
    taken, and the frame and the descriptions [out] were printed. *)
Definition outcome {F} `{FloatOps F} (s : Axes.state F)
    (set : Axes.Axes F -> list Z -> Axes.Axes F) (value : list Z)
    (out : list string) : Axes.state F :=
  Axes.mkState (set (Axes.self s) value)
    (mkSerial (written (Axes.ser s) ++ [Axes.frame s "R"])
              (tl (pending (Axes.ser s))))
    (Axes.stdout s ++ Axes.frame s "R" :: out).
End Reply.

(** ** class Scanner *)
Module Scanner.
(** The list [self.a] that [Scanner.__init__(self, port)] builds, in
    binary64; its item 0 is the empty string, here [None].  The port
    [self.ser] is the one of the state the methods run in.  The scale
    of the third axis is the float [2111.1111111111113]. *)
Definition a : list (option (Axes.Axes float)) :=
  [None;
   Some (Axes.__init__ (PInt 1) "x" (PInt 12800) "t");
   Some (Axes.__init__ (PInt 2) "y" (PInt 22800) "t");
   Some (Axes.__init__ (PInt 3) "rot" (PFloat 0x1.07e38e38e38e4p+11%float) "r")].
End Scanner.

(** ** Inputs of the examples *)
Module Scenario.
Import Axes.

(** A method called on axis [a] with nothing written yet and [replies]
    waiting on the port. *)
Definition start {F} (a : Axes F) (replies : list (list string)) : state F :=
  mkState a (mkSerial [] replies) [].

(** [Axes(1, 'x', ser)] *)
Definition axis_x {F} `{FloatOps F} : Axes F :=
  Axes.__init__ (PInt 1) "x" (PInt 12800) "t".

(** [Axes(3, 'rot', ser, scale=2111.1111111111113, typ='r')] *)
Definition axis_rot : Axes float :=
  Axes.__init__ (PInt 3) "rot" (PFloat 0x1.07e38e38e38e4p+11%float) "r".

(** [Profile(dstep=0, N=2)]: nothing to travel, so that the deceleration
    starts before the acceleration ends. *)
Definition short_travel {F} : gmap string (pynum F) :=
  {[ "dstep" := PInt 0; "N" := PInt 2 ]}.

(** [Profile(N=2)] and [Profile(N=3)]: the default motion on few samples. *)
Definition two_samples {F} : gmap string (pynum F) := {[ "N" := PInt 2 ]}.
Definition three_samples {F} : gmap string (pynum F) := {[ "N" := PInt 3 ]}.

(** [Profile(N=5)]: the second sample lies inside the acceleration. *)
Definition five_samples {F} : gmap string (pynum F) := {[ "N" := PInt 5 ]}.

(** [Profile(dstep=10**308, spr=1e-10, N=2)] in binary64: a travel whose
    count of revolutions overflows. *)
Definition overflowing : gmap string (pynum float) :=
  {[ "dstep" := PInt (10 ^ 308);
     "spr" := PFloat 0x1.b7cdfd9d7bdbbp-34%float;
     "N" := PInt 2 ]}.

(** [Profile(dstep=-12800, N=2)]: a travel backwards. *)
Definition backwards {F} : gmap string (pynum F) :=
  {[ "dstep" := PInt (-12800); "N" := PInt 2 ]}.

(** Axis x after two calls [add_profile(N=2)], in binary64. *)
Definition two_profiles : state float :=
  exec_all [add_profile two_samples; add_profile two_samples]
           (start axis_x []).

(** The reply to [R(ST)] with only bit 32 set, after an echo line. *)
Definition reply_bit32 (echo : string) : list string :=
  [echo; "*0000_0000_0000_0000_0000_0000_0000_0001*" +:+ crlf].

(** A command framed as the wire protocol has it:
    [<axisId><CommandText>\r\n]. *)
Definition framed (axis_id command : string) : string :=
  axis_id +:+ command +:+ crlf.

(** The step count of [mv] as the specification words it:
    [round(distance*scale)]. *)
Definition rounded_nstep (var scale : pynum float) : result Z :=
  match py_mul var scale with
  | PInt z => mret z
  | PFloat x => Binary64.round x
  end.

(** The 32 digits of a register of which only entry [n] is set. *)
Definition only_bit (n i : nat) : nat := if (i =? n)%nat then 1%nat else 0%nat.

(** An evaluator for [home('get')] that refuses every text. *)
Definition no_eval (text : string) : result string := raise SyntaxError.
End Scenario.

(** * Verification *)

(** ** Arrays *)
Section ArrayFacts.
Context {F : Type} `{FloatOps F}.
Implicit Types (a t : list F) (c : F -> bool) (f : F -> F).

Lemma length_arange n : length (np.arange (F:=F) n) = n.
Proof. unfold np.arange. by rewrite length_fmap, length_seq. Qed.

Lemma lookup_arange n i :
  (i < n)%nat -> np.arange (F:=F) n !! i = Some (f_of_Z (Z.of_nat i)).
Proof.
  intros Hi. unfold np.arange.
  by rewrite list_lookup_fmap, lookup_seq_lt.
Qed.

Lemma length_linspace start stop n : length (np.linspace start stop n) = n.
Proof.
  destruct n as [|[|m]]; [done..|].
  unfold np.linspace.
  by rewrite length_insert, length_fmap, length_arange.
Qed.

(** The samples of [linspace]: the last one is [stop] itself. *)
Lemma lookup_linspace start stop m i :
  (i <= S m)%nat ->
  np.linspace start stop (S (S m)) !! i =
    Some (if decide (i = S m) then stop
          else f_add (f_mul (f_of_Z (Z.of_nat i))
                            (f_div (f_sub stop start) (f_of_Z (Z.of_nat (S m)))))
                     start).
Proof.
  intros Hi. unfold np.linspace.
  case_decide as Hd.
  - subst i. apply list_lookup_insert_eq.
    rewrite length_fmap, length_arange. lia.
  - rewrite list_lookup_insert_ne by done.
    rewrite list_lookup_fmap, lookup_arange by lia. done.
Qed.

Lemma length_put a u vals : length (np.put a u vals) = length a.
Proof.
  unfold np.put. revert a.
  induction (zip u vals) as [|[i x] l IH]; intros a; [done|].
  simpl. by rewrite IH, length_insert.
Qed.

Lemma length_cumsum_from acc a : length (np.cumsum_from acc a) = length a.
Proof. revert acc. induction a as [|x a IH]; intros acc; simpl; [done|]. by rewrite IH. Qed.

Lemma length_cumsum a : length (np.cumsum a) = length a.
Proof. destruct a; simpl; [done|]. by rewrite length_cumsum_from. Qed.

Lemma put_where_from c f t : forall pa pt a,
  length pa = length pt -> length a = length t ->
  np.put (pa ++ a) (np.where_from (length pt) c t)
         (f <$> np.take (pt ++ t) (np.where_from (length pt) c t))
  = pa ++ np.select c f t a.
Proof.
  induction t as [|x t IH]; intros pa pt a Hp Ha.
  - destruct a; [done|discriminate].
  - destruct a as [|y a]; [discriminate|].
    injection Ha as Ha. simpl.
    assert (Hstep : forall z,
      np.put (pa ++ z :: a) (np.where_from (S (length pt)) c t)
             (f <$> np.take (pt ++ x :: t) (np.where_from (S (length pt)) c t))
      = pa ++ z :: np.select c f t a).
    { intros z.
      replace (pa ++ z :: a) with ((pa ++ [z]) ++ a) by by rewrite <- app_assoc.
      replace (pt ++ x :: t) with ((pt ++ [x]) ++ t) by by rewrite <- app_assoc.
      replace (S (length pt)) with (length (pt ++ [x]))
        by (rewrite length_app; simpl; lia).
      rewrite IH; [by rewrite <- app_assoc| |done].
      rewrite !length_app. simpl. lia. }
    destruct (c x) eqn:Hc.
    + unfold np.take at 1. simpl.
      rewrite (list_lookup_middle pt (t) x (length pt)) by done.
      simpl. unfold np.put. simpl. fold (np.put (F:=F)).
      replace (<[length pt:=f x]> (pa ++ y :: a)) with (pa ++ f x :: a).
      * apply Hstep.
      * rewrite <- Hp. by rewrite insert_app_r_alt, Nat.sub_diag by lia.
    + apply Hstep.
Qed.

Lemma put_where c f t a :
  length a = length t ->
  np.put a (np.where_ c t) (f <$> np.take t (np.where_ c t)) = np.select c f t a.
Proof. intros Ha. by apply (put_where_from c f t [] [] a). Qed.

Lemma length_select c f t a :
  length a = length t -> length (np.select c f t a) = length t.
Proof. intros Ha. unfold np.select. rewrite length_zip_with. lia. Qed.

Lemma lookup_select c f t a i x y :
  t !! i = Some x -> a !! i = Some y ->
  np.select c f t a !! i = Some (if c x then f x else y).
Proof.
  intros Hx Hy. unfold np.select. rewrite lookup_zip_with, Hx. simpl. by rewrite Hy.
Qed.

(** Each running sum is the one before plus the sample. *)
Lemma lookup_cumsum_S a i s x :
  np.cumsum a !! i = Some s -> a !! S i = Some x ->
  np.cumsum a !! S i = Some (f_add s x).
Proof.
  destruct a as [|y a]; [done|]. simpl. revert y i s.
  induction a as [|z a IH]; intros y i s Hs Hx; [done|].
  destruct i as [|i]; simpl in *.
  - by simplify_eq.
  - apply (IH (f_add y z) i s); done.
Qed.
End ArrayFacts.

(** ** Constructed profiles, in any arithmetic *)
Section ProfileFacts.
Context {F : Type} `{FloatOps F}.
Implicit Types (p : Profile.Profile F) (kwargs : gmap string (pynum F)).

Ltac bind_inv H :=
  repeat lazymatch type of H with
  | mbind _ ?m = inr _ =>
      let E := fresh "E" in
      destruct m eqn:E; [discriminate H|]; cbn [mbind result_bind] in H
  | result_bind _ _ _ ?m = inr _ =>
      let E := fresh "E" in
      destruct m eqn:E; [discriminate H|]; cbn [mbind result_bind] in H
  end.

Lemma init_inv kwargs p :
  Profile.__init__ kwargs = inr p ->
  exists n t1v t2v t_0 t_1, Profile.constructed p n t1v t2v t_0 t_1.
Proof.
  intros Hp. unfold Profile.__init__ in Hp. cbv zeta in Hp.
  bind_inv Hp. injection Hp as <-.
  unfold Profile.item in *.
  match goal with E : match ?l !! 1%nat with _ => _ end = _ |- _ =>
    destruct (l !! 1%nat) as [x1|] eqn:H1; [|discriminate E] end.
  match goal with E : match ?l !! 0%nat with _ => _ end = _ |- _ =>
    destruct (l !! 0%nat) as [x0|] eqn:H0; [|discriminate E] end.
  injection E13 as ->. injection E14 as ->.
  eexists n, _, _, _, _.
  split; unfold Profile.t1, Profile.t2;
    cbn [Profile.num Profile.aa Profile.ad Profile.dstep Profile.vmax
         Profile.vs Profile.spr Profile.N Profile.drev Profile.T
         Profile.cmd Profile.t Profile.v Profile.dr Profile.ds];
    try eassumption; try reflexivity.
  - by rewrite E8.
  - by rewrite E12.
Qed.


(** A float operand makes the result a float. *)
Lemma py_mul_float_l x b : py_mul (PFloat x) b = PFloat (f_mul x (py_float b)).
Proof. by destruct b. Qed.
Lemma py_mul_float_r a y : py_mul a (PFloat y) = PFloat (f_mul (py_float a) y).
Proof. by destruct a. Qed.
Lemma py_add_float_l x b : py_add (PFloat x) b = PFloat (f_add x (py_float b)).
Proof. by destruct b. Qed.
Lemma py_add_float_r a y : py_add a (PFloat y) = PFloat (f_add (py_float a) y).
Proof. by destruct a. Qed.
Lemma py_div_float_r a y c :
  py_div a (PFloat y) = inr c ->
  f_eqb y (f_of_Z 0) = false /\ c = PFloat (f_div (py_float a) y).
Proof.
  destruct a; simpl; destruct (f_eqb y (f_of_Z 0)); try discriminate;
    intros [= <-]; done.
Qed.
Lemma py_div_float_l x b c :
  py_div (PFloat x) b = inr c ->
  f_eqb (py_float b) (f_of_Z 0) = false /\ c = PFloat (f_div x (py_float b)).
Proof.
  destruct b; simpl; destruct (f_eqb _ (f_of_Z 0)); try discriminate;
    intros [= <-]; done.
Qed.

Lemma size_arg_inv (N : pynum F) n :
  Profile.size_arg N = inr n -> N = PInt (Z.of_nat n).
Proof.
  destruct N as [z|x]; simpl; [|discriminate].
  destruct (z <? 0) eqn:Hz; [discriminate|]. intros [= <-].
  f_equal. lia.
Qed.

Section Constructed.
Context {p n t1v t2v t_0 t_1} (Hc : Profile.constructed p n t1v t2v t_0 t_1).

Lemma constructed_length_t : length (Profile.t p) = n.
Proof. rewrite (Profile.c_t _ _ _ _ _ _ Hc). apply length_linspace. Qed.

Lemma constructed_v_select :
  Profile.v p =
    np.select (fun x => f_leb (py_float t2v) x) (Profile.ramp_down p t2v) (Profile.t p)
      (np.select (fun x => f_ltb x (py_float t1v)) (Profile.ramp_up p) (Profile.t p)
         (np.rmul (py_float (Profile.vmax p)) (np.ones n))).
Proof.
  rewrite (Profile.c_v _ _ _ _ _ _ Hc). cbv zeta.
  assert (Hn : length (np.rmul (py_float (Profile.vmax p)) (np.ones n))
               = length (Profile.t p)).
  { unfold np.rmul, np.ones.
    by rewrite length_fmap, length_replicate, constructed_length_t. }
  change (np.mul (np.take (Profile.t p) ?u) (py_float (Profile.aa p)))
    with (Profile.ramp_up p <$> np.take (Profile.t p) u).
  rewrite (put_where _ (Profile.ramp_up p)) by done.
  unfold np.add, np.mul, np.neg. rewrite <- !list_fmap_compose.
  apply (put_where _ (Profile.ramp_down p t2v)).
  by rewrite length_select.
Qed.

Lemma constructed_length_v : length (Profile.v p) = n.
Proof.
  rewrite constructed_v_select, length_select; [apply constructed_length_t|].
  rewrite length_select; [done|]. unfold np.rmul, np.ones.
  by rewrite length_fmap, length_replicate, constructed_length_t.
Qed.

Lemma constructed_length_dr : length (Profile.dr p) = n.
Proof.
  rewrite (Profile.c_dr _ _ _ _ _ _ Hc). unfold np.mul.
  by rewrite length_fmap, length_cumsum, constructed_length_v.
Qed.

Lemma constructed_length_ds : length (Profile.ds p) = n.
Proof.
  rewrite (Profile.c_ds _ _ _ _ _ _ Hc). unfold np.mul.
  by rewrite length_fmap, constructed_length_dr.
Qed.

(** The velocity sample by sample: the deceleration overwrite is the
    last one and wins, then the acceleration overwrite, then the
    constant fill. *)
Lemma constructed_lookup_v i x :
  Profile.t p !! i = Some x ->
  Profile.v p !! i =
    Some (if f_leb (py_float t2v) x then Profile.ramp_down p t2v x
          else if f_ltb x (py_float t1v) then Profile.ramp_up p x
          else f_mul (py_float (Profile.vmax p)) (f_of_Z 1)).
Proof.
  intros Hx. rewrite constructed_v_select.
  assert (Hi : (i < n)%nat).
  { rewrite <- constructed_length_t. by eapply lookup_lt_Some. }
  erewrite lookup_select; [done|done|].
  erewrite lookup_select; [done|done|].
  unfold np.rmul, np.ones.
  by rewrite list_lookup_fmap, lookup_replicate_2.
Qed.

Lemma constructed_n_ge_2 : (2 <= n)%nat.
Proof.
  rewrite <- constructed_length_t.
  pose proof (lookup_lt_Some _ _ _ (Profile.c_t1' _ _ _ _ _ _ Hc)). lia.
Qed.
End Constructed.
End ProfileFacts.

(** ** Profiles in exact arithmetic *)
Section ExactFacts.
Local Open Scope Q_scope.

Lemma exact_ltb_iff (x y : Q) : Exact.ltb x y = true <-> x < y.
Proof.
  unfold Exact.ltb. rewrite negb_true_iff.
  destruct (Qle_bool y x) eqn:E.
  - apply Qle_bool_iff in E. split; [discriminate|]. intros. lra.
  - split; [intros _|done].
    apply Qnot_le_lt. intros Hle. apply Qle_bool_iff in Hle. congruence.
Qed.

Lemma exact_leb_false (x y : Q) : Qle_bool x y = false <-> y < x.
Proof.
  rewrite <- exact_ltb_iff. unfold Exact.ltb.
  by destruct (Qle_bool x y).
Qed.

Lemma exact_eqb_false (x : Q) : Qeq_bool x (inject_Z 0) = false -> ~ x == 0.
Proof.
  intros E Hx. assert (Hx' : x == inject_Z 0) by (rewrite Hx; reflexivity).
  apply Qeq_bool_iff in Hx'. congruence.
Qed.

(** The quotient [vmax**2/aa] is not negative, floored or not. *)
Lemma sqr_div_nonneg (vmax aa q : pynum Q) :
  0 < py_float aa -> py_div (py_sqr vmax) aa = inr q -> 0 <= py_float q.
Proof.
  intros Haa. destruct vmax as [v|v], aa as [a|a]; cbn in *.
  - destruct (Z.eqb_spec a 0); [discriminate|]. intros [= <-]. cbn.
    assert (0 < a)%Z by (unfold Qlt in Haa; cbn in Haa; lia).
    rewrite <- (Zle_Qle 0). apply Z.div_pos; nia.
  - destruct (Qeq_bool a (inject_Z 0)) eqn:E; [discriminate|]. intros [= <-]. cbn.
    apply Qle_shift_div_l; [done|]. rewrite Qmult_0_l.
    rewrite <- (Zle_Qle 0). nia.
  - destruct (Qeq_bool (inject_Z a) (inject_Z 0)) eqn:E; [discriminate|].
    intros [= <-]. cbn. apply Qle_shift_div_l; [done|]. nra.
  - destruct (Qeq_bool a (inject_Z 0)) eqn:E; [discriminate|]. intros [= <-]. cbn.
    apply Qle_shift_div_l; [done|]. nra.
Qed.

Section ExactConstructed.
Context {p : Profile.Profile Q} {n : nat} {t1v t2v : pynum Q} {t_0 t_1 : Q}
        (Hc : Profile.constructed p n t1v t2v t_0 t_1).
Hypotheses (Haa : 0 < py_float (Profile.aa p))
           (Had : 0 < py_float (Profile.ad p))
           (Hspr : 0 < py_float (Profile.spr p))
           (Hvmax : 0 < py_float (Profile.vmax p)).

(** The duration and the two phase boundaries, as rationals. *)
Lemma exact_times : exists Tq qq,
  Profile.T p = PFloat Tq /\
  t1v = PFloat (py_float (Profile.vmax p) / (inject_Z 1 * py_float (Profile.aa p))) /\
  t2v = PFloat (Tq - py_float (Profile.vmax p) / (inject_Z 1 * py_float (Profile.ad p))) /\
  0 <= qq /\
  Tq == (py_float (Profile.dstep p) / py_float (Profile.spr p) + qq)
        / py_float (Profile.vmax p).
Proof.
  destruct Hc as [Hdrev HT _ _ _ Ht1 Ht2 _ _ _ _ _].
  unfold Profile.t1, Profile.t2 in *. unfold Profile.one in *.
  rewrite py_mul_float_l in Hdrev. rewrite py_mul_float_l in HT.
  rewrite py_mul_float_l in Ht1. rewrite py_mul_float_l in Ht2.
  apply py_div_float_r in Hdrev as [_ Hdrev].
  apply py_div_float_r in Ht1 as [_ ->].
  destruct (py_div (py_sqr (Profile.vmax p)) (Profile.aa p)) as [|q] eqn:Hq;
    [discriminate|].
  cbn [mbind result_bind] in HT. rewrite Hdrev, py_add_float_l in HT.
  apply py_div_float_r in HT as [_ HT].
  destruct (py_div (Profile.vmax p) _) as [|d] eqn:Hd; [discriminate|].
  apply py_div_float_r in Hd as [_ ->].
  cbn [mbind result_bind] in Ht2. injection Ht2 as <-.
  rewrite HT. cbn.
  eexists _, (py_float q). repeat split.
  - exact (sqr_div_nonneg _ _ _ Haa Hq).
  - field. split; lra.
Qed.

Lemma exact_sample Tq i x :
  Profile.T p = PFloat Tq -> Profile.t p !! i = Some x ->
  (i < n)%nat /\ x == inject_Z (Z.of_nat i) * Exact.spacing Tq n.
Proof.
  intros HT Hx. pose proof (constructed_n_ge_2 Hc) as Hn.
  pose proof (lookup_lt_Some _ _ _ Hx) as Hi.
  rewrite (constructed_length_t Hc) in Hi. split; [done|].
  rewrite (Profile.c_t _ _ _ _ _ _ Hc), HT in Hx.
  destruct n as [|[|m]]; [lia..|].
  rewrite lookup_linspace in Hx by lia. injection Hx as <-.
  unfold Exact.spacing. cbn [pred py_float].
  assert (Hm : 0 < inject_Z (Z.of_nat (S m))).
  { rewrite <- (Zlt_Qlt 0). lia. }
  case_decide as Hd; cbn.
  - subst i. field. lra.
  - field. lra.
Qed.

Lemma spacing_sign Tq :
  (0 <= Tq -> 0 <= Exact.spacing Tq n) /\ (Tq <= 0 -> Exact.spacing Tq n <= 0).
Proof.
  pose proof (constructed_n_ge_2 Hc) as Hn. unfold Exact.spacing.
  assert (Hm : 0 < inject_Z (Z.of_nat (pred n))).
  { rewrite <- (Zlt_Qlt 0). lia. }
  split; intros HT.
  - apply Qle_shift_div_l; [done|]. lra.
  - apply Qle_shift_div_r; [done|]. lra.
Qed.

Lemma exact_last Tq : inject_Z (Z.of_nat (pred n)) * Exact.spacing Tq n == Tq.
Proof.
  pose proof (constructed_n_ge_2 Hc) as Hn. unfold Exact.spacing.
  assert (Hm : 0 < inject_Z (Z.of_nat (pred n))).
  { rewrite <- (Zlt_Qlt 0). lia. }
  field. lra.
Qed.

(** The samples lie between [0] and [T], whichever is the smaller. *)
Lemma exact_sample_bounds Tq i x :
  Profile.T p = PFloat Tq -> Profile.t p !! i = Some x ->
  (0 <= Tq -> 0 <= x <= Tq) /\ (Tq <= 0 -> Tq <= x <= 0).
Proof.
  intros HT Hx. destruct (exact_sample Tq i x HT Hx) as [Hi ->].
  pose proof (exact_last Tq) as Hlast.
  destruct (spacing_sign Tq) as [Hpos Hneg].
  assert (H0 : 0 <= inject_Z (Z.of_nat i)) by (rewrite <- (Zle_Qle 0); lia).
  assert (H1 : inject_Z (Z.of_nat i) <= inject_Z (Z.of_nat (pred n)))
    by (rewrite <- Zle_Qle; lia).
  split; intros HTs.
  - specialize (Hpos HTs). nra.
  - specialize (Hneg HTs). nra.
Qed.

(** [t] does not decrease when the duration is not negative. *)
Lemma exact_t_monotone Tq i j x y :
  Profile.T p = PFloat Tq -> 0 <= Tq -> (i <= j)%nat ->
  Profile.t p !! i = Some x -> Profile.t p !! j = Some y -> x <= y.
Proof.
  intros HT HTs Hij Hx Hy.
  destruct (exact_sample Tq i x HT Hx) as [_ ->].
  destruct (exact_sample Tq j y HT Hy) as [_ ->].
  destruct (spacing_sign Tq) as [Hpos _]. specialize (Hpos HTs).
  assert (H1 : inject_Z (Z.of_nat i) <= inject_Z (Z.of_nat j))
    by (rewrite <- Zle_Qle; lia).
  nra.
Qed.

Lemma exact_dt Tq : Profile.T p = PFloat Tq -> t_1 - t_0 == Exact.spacing Tq n.
Proof.
  intros HT.
  destruct (exact_sample Tq 0 t_0 HT (Profile.c_t0 _ _ _ _ _ _ Hc)) as [_ ->].
  destruct (exact_sample Tq 1 t_1 HT (Profile.c_t1' _ _ _ _ _ _ Hc)) as [_ ->].
  cbn. ring.
Qed.

(** The deceleration ramp is [ad*(T - x)]: it reaches zero at [T]. *)
Lemma exact_ramp_down Tq x :
  Profile.T p = PFloat Tq ->
  t2v = PFloat (Tq - py_float (Profile.vmax p) / (inject_Z 1 * py_float (Profile.ad p))) ->
  Profile.ramp_down p t2v x == py_float (Profile.ad p) * (Tq - x).
Proof.
  intros HT ->. unfold Profile.ramp_down.
  rewrite py_mul_float_r, py_add_float_r. cbn. field. lra.
Qed.

(** Each velocity sample has the sign of the Exact.spacing of [t]. *)
Lemma exact_v_sign Tq i x y :
  Profile.T p = PFloat Tq ->
  Profile.t p !! i = Some x -> Profile.v p !! i = Some y ->
  (0 <= Tq -> 0 <= y) /\ (Tq <= 0 -> y <= 0).
Proof.
  intros HT Hx Hy.
  destruct exact_times as (Tq' & qq & HT' & Ht1 & Ht2 & _).
  rewrite HT in HT'. injection HT' as <-.
  rewrite (constructed_lookup_v Hc i x Hx) in Hy. injection Hy as <-.
  pose proof (exact_ramp_down Tq x HT Ht2) as Hdown.
  destruct (exact_sample_bounds Tq i x HT Hx) as [Hpos Hneg].
  assert (Hgap : 0 < py_float (Profile.vmax p) / (inject_Z 1 * py_float (Profile.ad p))).
  { change (inject_Z 1) with 1. apply Qlt_shift_div_l; lra. }
  unfold Profile.ramp_down, Profile.ramp_up in *. cbn in Hdown |- *.
  destruct (Qle_bool (py_float t2v) x) eqn:E1.
  - clear Hgap. revert Hdown.
    generalize (- x * py_float (Profile.ad p) +
                py_float (py_add (Profile.vmax p) (py_mul (Profile.ad p) t2v))).
    intros r Hdown.
    split; intros HTs; [specialize (Hpos HTs)|specialize (Hneg HTs)]; nra.
  - rewrite Ht2 in E1. cbn in E1. apply exact_leb_false in E1.
    split; intros HTs; [specialize (Hpos HTs)|specialize (Hneg HTs); lra].
    destruct (Exact.ltb x _) eqn:E2; [nra|].
    change (inject_Z 1) with 1. lra.
Qed.

(** The cumulated distance never decreases, whatever the sign of the
    requested travel. *)
Lemma exact_ds_monotone i a b :
  Profile.ds p !! i = Some a -> Profile.ds p !! S i = Some b -> a <= b.
Proof.
  intros Ha Hb.
  destruct exact_times as (Tq & qq & HT & _).
  rewrite (Profile.c_ds _ _ _ _ _ _ Hc), (Profile.c_dr _ _ _ _ _ _ Hc) in Ha, Hb.
  unfold np.mul in Ha, Hb. rewrite !list_lookup_fmap in Ha, Hb.
  destruct (np.cumsum (Profile.v p) !! i) as [s|] eqn:Hs; [|discriminate].
  pose proof (lookup_lt_Some _ _ _ Hs) as Hi.
  destruct (np.cumsum (Profile.v p) !! S i) as [s'|] eqn:Hs'; [|discriminate].
  pose proof (lookup_lt_Some _ _ _ Hs') as HSi.
  rewrite length_cumsum, (constructed_length_v Hc) in HSi.
  destruct (lookup_lt_is_Some_2 (Profile.v p) (S i)) as [y Hy];
    [by rewrite (constructed_length_v Hc)|].
  destruct (lookup_lt_is_Some_2 (Profile.t p) (S i)) as [x Hx];
    [by rewrite (constructed_length_t Hc)|].
  rewrite (lookup_cumsum_S _ _ _ _ Hs Hy) in Hs'. injection Hs' as <-.
  cbn in Ha, Hb. injection Ha as <-. injection Hb as <-.
  pose proof (exact_dt Tq HT) as Hdt.
  destruct (exact_v_sign Tq (S i) x y HT Hx Hy) as [Hpos Hneg].
  destruct (spacing_sign Tq) as [Spos Sneg].
  assert (Hyd : 0 <= y * (t_1 - t_0)).
  { rewrite Hdt. destruct (Qlt_le_dec Tq 0) as [HTs|HTs].
    - assert (HTs' : Tq <= 0) by lra.
      specialize (Hneg HTs'). specialize (Sneg HTs'). nra.
    - specialize (Hpos HTs). specialize (Spos HTs). nra. }
  revert Hyd. generalize (t_1 - t_0). intros dt Hyd.
  assert (Hyds : 0 <= (y * dt) * py_float (Profile.spr p)).
  { apply Qmult_le_0_compat; lra. }
  lra.
Qed.
End ExactConstructed.


End ExactFacts.

(** ** The axis protocol *)
Section AxesFacts.
Context {F : Type} `{FloatOps F}.
Implicit Types (s : Axes.state F) (a : Axes.Axes F).
Import Axes.
Local Abbreviation M := (@Axes.M F).
Local Abbreviation keeps := (Axes.keeps (F:=F)).

(** One exchange on the port: the frame is written (and printed when
    [verbose] is true), and the next reply is consumed. *)
Lemma com_run command verbose s :
  com command verbose s =
    (inr (hd [] (pending (ser s))),
     mkState (self s)
             (mkSerial (written (ser s) ++ [frame s command])
                       (tl (pending (ser s))))
             (stdout s ++ if truthy verbose then [frame s command] else [])).
Proof.
  unfold com, frame. destruct s as [a [w pe] out].
  unfold mbind, M_bind, get_self, ser_write, ser_readlines, print, mret, M_ret.
  cbn [self ser stdout written pending].
  destruct (truthy verbose) eqn:Hv; destruct pe as [|ls rest];
    cbn [self ser stdout written pending hd tl]; rewrite ?app_nil_r; reflexivity.
Qed.

Lemma setdefaults_lookup_Some (d : list (string * pynum F)) kw k x :
  kw !! k = Some x -> setdefaults d kw !! k = Some x.
Proof.
  unfold setdefaults. revert kw.
  induction d as [|[k' y] d IH]; intros kw Hk; [done|].
  simpl. apply IH. destruct (kw !! k') eqn:Hk'; [done|].
  destruct (decide (k' = k)) as [->|Hne]; [congruence|].
  by rewrite lookup_insert_ne.
Qed.

Lemma add_profile_run kwargs s :
  add_profile kwargs s =
    if Z.of_nat (length (lprofile (self s))) <? 8 then
      match Profile.__init__ (passed s kwargs) with
      | inr prof =>
          (inr tt, mkState (with_lprofile (self s) (lprofile (self s) ++ [prof]))
                           (ser s) (stdout s))
      | inl e => (inl e, s)
      end
    else (inr tt, s).
Proof.
  unfold add_profile, passed.
  unfold mbind, M_bind, get_self, set_self, lift, mret, M_ret.
  destruct (_ <? 8); [|done].
  by destruct (Profile.__init__ _).
Qed.

Lemma init_num kwargs (p : Profile.Profile F) x :
  Profile.__init__ kwargs = inr p -> kwargs !! "num" = Some x ->
  Profile.num p = x.
Proof.
  intros Hp Hx. unfold Profile.__init__ in Hp. cbv zeta in Hp.
  destruct (getitem _ "num") as [|x'] eqn:Hnum; [discriminate Hp|].
  unfold getitem in Hnum.
  rewrite (setdefaults_lookup_Some _ _ _ _ Hx) in Hnum. injection Hnum as <-.
  cbn [mbind result_bind] in Hp.
  repeat lazymatch type of Hp with
  | mbind _ ?m = inr _ =>
      destruct m; [discriminate Hp|]; cbn [mbind result_bind] in Hp
  | result_bind _ _ _ ?m = inr _ =>
      destruct m; [discriminate Hp|]; cbn [mbind result_bind] in Hp
  end.
  by injection Hp as <-.
Qed.

Lemma add_profile_length kwargs s :
  (length (lprofile (self s)) <= 8)%nat ->
  (length (lprofile (self (exec (add_profile kwargs) s))) <= 8)%nat.
Proof.
  intros Hl. unfold exec. rewrite add_profile_run.
  destruct (Z.ltb_spec (Z.of_nat (length (lprofile (self s)))) 8) as [Hlt|Hge];
    [|done].
  destruct (Profile.__init__ _); [done|].
  cbn. rewrite length_app. simpl. lia.
Qed.

Lemma add_profiles_length (calls : list (gmap string (pynum F))) s :
  (length (lprofile (self s)) <= 8)%nat ->
  (length (lprofile (self (exec_all (add_profile <$> calls) s))) <= 8)%nat.
Proof.
  unfold exec_all. revert s.
  induction calls as [|kw calls IH]; intros s Hl; [done|].
  simpl. apply IH. by apply add_profile_length.
Qed.

Lemma set_profile_run num s :
  set_profile num s =
    if py_le num (PInt (Z.of_nat (length (lprofile (self s))))) then
      (inr tt,
       mkState (self s)
         (mkSerial
            (written (ser s) ++
               [frame s (py_str (_id (self s)) +:+ "USE" +:+ py_str num)])
            (tl (pending (ser s))))
         (stdout s))
    else (inl (AssertionError "profile number not defined"), s).
Proof.
  unfold set_profile.
  unfold mbind at 1. unfold M_bind at 1. unfold get_self at 1.
  destruct (py_le _ _); [|done].
  unfold mbind, M_bind. rewrite com_run. cbn. by rewrite app_nil_r.
Qed.

Lemma mv_run var s :
  mv var s =
    match py_int (py_mul var (scale (self s))) with
    | inl e => (inl e, s)
    | inr nstep =>
        (inl (NameError "scom2"),
         mkState (self s)
           (mkSerial
              (written (ser s) ++
                 [frame s ("D" +:+ str_int nstep); frame s "G"])
              (tl (tl (pending (ser s)))))
           (stdout s))
    end.
Proof.
  unfold mv.
  unfold mbind at 1. unfold M_bind at 1. unfold get_self at 1.
  unfold mbind at 1. unfold M_bind at 1. unfold lift at 1.
  destruct (py_int _) as [e|nstep]; [done|].
  unfold mbind, M_bind. rewrite com_run. cbn [truthy].
  rewrite com_run. unfold frame, throw. cbn.
  by rewrite !app_nil_r, <- app_assoc.
Qed.

Lemma del_profile_run index s :
  del_profile index s =
    match list_pop (lprofile (self s)) (index - 1) with
    | inl e => (inl e, s)
    | inr r =>
        (inr tt, mkState (with_lprofile (self s) r.2) (ser s) (stdout s))
    end.
Proof.
  unfold del_profile, mbind, M_bind, get_self, lift, set_self.
  by destruct (list_pop _ _).
Qed.

(** [l.pop(i)], case by case. *)
Lemma list_pop_in_range {A} (l : list A) (i : Z) :
  0 <= i < Z.of_nat (length l) ->
  exists x, l !! Z.to_nat i = Some x /\
            list_pop l i = inr (x, take (Z.to_nat i) l ++ drop (S (Z.to_nat i)) l).
Proof.
  intros Hi. unfold list_pop.
  destruct (Z.ltb_spec i 0); [lia|].
  destruct (Z.ltb_spec i 0); [lia|].
  destruct (Z.leb_spec (Z.of_nat (length l)) i); [lia|]. cbn.
  destruct (lookup_lt_is_Some_2 l (Z.to_nat i)) as [x Hx]; [lia|].
  exists x. rewrite Hx. split; [done|].
  by rewrite delete_take_drop.
Qed.

Lemma list_pop_from_end {A} (l : list A) (i : Z) :
  - Z.of_nat (length l) <= i < 0 ->
  exists x, l !! Z.to_nat (i + Z.of_nat (length l)) = Some x /\
            list_pop l i =
              inr (x, take (Z.to_nat (i + Z.of_nat (length l))) l ++
                      drop (S (Z.to_nat (i + Z.of_nat (length l)))) l).
Proof.
  intros Hi. unfold list_pop.
  destruct (Z.ltb_spec i 0); [|lia].
  destruct (Z.ltb_spec (i + Z.of_nat (length l)) 0); [lia|].
  destruct (Z.leb_spec (Z.of_nat (length l)) (i + Z.of_nat (length l))); [lia|].
  cbn.
  destruct (lookup_lt_is_Some_2 l (Z.to_nat (i + Z.of_nat (length l))))
    as [x Hx]; [lia|].
  exists x. rewrite Hx. split; [done|].
  by rewrite delete_take_drop.
Qed.

Lemma list_pop_out_of_range {A} (l : list A) (i : Z) :
  i < - Z.of_nat (length l) \/ Z.of_nat (length l) <= i ->
  list_pop l i = inl IndexError.
Proof.
  intros Hi. unfold list_pop.
  destruct (Z.ltb_spec i 0).
  - destruct (Z.ltb_spec (i + Z.of_nat (length l)) 0); [done|lia].
  - destruct (Z.ltb_spec i 0); [lia|].
    destruct (Z.leb_spec (Z.of_nat (length l)) i); [done|lia].
Qed.

Lemma unchanged_refl typ a : unchanged typ a a.
Proof. by repeat split. Qed.

Lemma unchanged_trans typ a1 a2 a3 :
  unchanged typ a1 a2 -> unchanged typ a2 a3 -> unchanged typ a1 a3.
Proof.
  intros (?&?&?&?&?&H6&H7&H8) (?&?&?&?&?&G6&G7&G8).
  repeat split; try congruence.
  - intros Hn. rewrite (G6 Hn). auto.
  - intros Hn. rewrite (G7 Hn). auto.
  - intros Hn. rewrite (G8 Hn). auto.
Qed.

Lemma keeps_bind {A B} typ (m : M A) (f : A -> M B) :
  keeps typ m -> (forall x, keeps typ (f x)) -> keeps typ (m ≫= f).
Proof.
  intros Hm Hf s. unfold mbind, M_bind.
  specialize (Hm s). destruct (m s) as [[e|x] s1]; [done|].
  eapply unchanged_trans; [exact Hm|]. apply Hf.
Qed.

Lemma keeps_ret {A} typ (x : A) : keeps typ (mret x).
Proof. intros s. apply unchanged_refl. Qed.

Lemma keeps_lift {A} typ (r : result A) : keeps typ (lift r).
Proof. intros s. apply unchanged_refl. Qed.

Lemma keeps_print typ x : keeps typ (print x).
Proof. intros s. apply unchanged_refl. Qed.

Lemma keeps_com typ command verbose : keeps typ (com command verbose).
Proof. intros s. rewrite com_run. apply unchanged_refl. Qed.

Lemma keeps_for {A} typ (xs : list A) (body : A -> M unit) :
  (forall x, keeps typ (body x)) -> keeps typ (for_ xs body).
Proof.
  intros Hb. induction xs as [|x xs IH]; simpl; [apply keeps_ret|].
  apply keeps_bind; [apply Hb|]. intros _. exact IH.
Qed.

Lemma keeps_store_bit typ get set table i val :
  (forall a x, unchanged typ a (set a x)) ->
  keeps typ (store_bit get set table i val).
Proof.
  intros Hset. unfold store_bit.
  intros s. unfold mbind, M_bind, get_self, lift, set_self.
  destruct (list_setitem _ _ _) as [e|r]; [apply unchanged_refl|].
  cbn. destruct (val =? 0); cbn; [apply Hset|].
  destruct (dict_item _ _); cbn; apply Hset.
Qed.

(** [reg] leaves everything but the register it was asked for. *)
Lemma keeps_reg typ : keeps typ (reg typ).
Proof.
  unfold reg.
  apply keeps_bind; [apply keeps_com|]. intros buf.
  apply keeps_bind; [apply keeps_lift|]. intros line.
  apply keeps_for. intros k. apply keeps_for. intros l.
  repeat (apply keeps_bind; [apply keeps_lift|]; intros ?).
  apply keeps_bind; [|intros _; apply keeps_bind; [|intros _]].
  - destruct (String.eqb_spec typ "ST") as [->|Hne]; [|apply keeps_ret].
    apply keeps_store_bit. intros a' r. by repeat split.
  - destruct (String.eqb_spec typ "UF") as [->|Hne]; [|apply keeps_ret].
    apply keeps_store_bit. intros a' r. by repeat split.
  - destruct (String.eqb_spec typ "DF") as [->|Hne]; [|apply keeps_ret].
    apply keeps_store_bit. intros a' r. by repeat split.
Qed.
End AxesFacts.

(** * The claims about [Profile] *)

(** C3: the wire command of every constructed profile is
    [PROFILE<num>(<aa>,<ad>,<dstep>,<vmax>,<vs>)], each number printed by
    [str]; with the values 1, 200, 200, 12800, 15 and 0 it is the literal
    [PROFILE1(200,200,12800,15,0)]. *)
Theorem profile_cmd_format {F : Type} `{FloatOps F}
    (kwargs : gmap string (pynum F)) (p : Profile.Profile F) :
  Profile.__init__ kwargs = inr p ->
  Profile.cmd p =
    "PROFILE" +:+ py_str (Profile.num p) +:+
    "(" +:+ py_str (Profile.aa p) +:+ "," +:+ py_str (Profile.ad p) +:+
    "," +:+ py_str (Profile.dstep p) +:+ "," +:+ py_str (Profile.vmax p) +:+
    "," +:+ py_str (Profile.vs p) +:+ ")"
  /\ (Profile.num p = PInt 1 -> Profile.aa p = PInt 200 ->
      Profile.ad p = PInt 200 -> Profile.dstep p = PInt 12800 ->
      Profile.vmax p = PInt 15 -> Profile.vs p = PInt 0 ->
      Profile.cmd p = "PROFILE1(200,200,12800,15,0)").
Proof.
  intros Hp. destruct (init_inv _ _ Hp) as (n & t1v & t2v & t_0 & t_1 & Hc).
  pose proof (Profile.c_cmd _ _ _ _ _ _ Hc) as Hcmd.
  split; [exact Hcmd|].
  intros Hnum Haa Had Hdstep Hvmax Hvs.
  rewrite Hcmd, Hnum, Haa, Had, Hdstep, Hvmax, Hvs. reflexivity.
Qed.

Lemma profile_cmd_format_default :
  exists p : Profile.Profile float,
    Profile.__init__ ∅ = inr p /\
    Profile.cmd p = "PROFILE1(200,200,12800,15,0)".
Proof.
  eexists. split; [vm_compute; reflexivity|].
  eapply (profile_cmd_format ∅); [vm_compute| ..]; reflexivity.
Defined.

(** C2: [v] is filled with [vmax], then overwritten with the acceleration
    ramp where [t < t1], then with the deceleration ramp where [t >= t2];
    so a sample with [t2 <= t[i]] carries the deceleration value
    [-ad*t[i] + (vmax + ad*t2)] also when [t[i] < t1]. *)
Theorem profile_fill_order {F : Type} `{FloatOps F}
    (kwargs : gmap string (pynum F)) (p : Profile.Profile F) :
  Profile.__init__ kwargs = inr p ->
  exists (n : nat) (t1 t2 : pynum F),
    Profile.size_arg (Profile.N p) = inr n /\
    Profile.t1 p = inr t1 /\ Profile.t2 p = inr t2 /\
    (let t := Profile.t p in
     let u1 := np.where_ (fun x => f_ltb x (py_float t1)) t in
     let u2 := np.where_ (fun x => f_leb (py_float t2) x) t in
     Profile.v p =
       np.put
         (np.put (np.rmul (py_float (Profile.vmax p)) (np.ones n)) u1
                 (np.mul (np.take t u1) (py_float (Profile.aa p))))
         u2
         (np.add (np.mul (np.neg (np.take t u2)) (py_float (Profile.ad p)))
                 (py_float (py_add (Profile.vmax p) (py_mul (Profile.ad p) t2))))) /\
    (forall i x, Profile.t p !! i = Some x ->
       Profile.v p !! i =
         Some (if f_leb (py_float t2) x then Profile.ramp_down p t2 x
               else if f_ltb x (py_float t1) then Profile.ramp_up p x
               else f_mul (py_float (Profile.vmax p)) (f_of_Z 1))) /\
    (forall i x, Profile.t p !! i = Some x ->
       f_leb (py_float t2) x = true -> f_ltb x (py_float t1) = true ->
       Profile.v p !! i =
         Some (f_add (f_mul (f_neg x) (py_float (Profile.ad p)))
                     (py_float (py_add (Profile.vmax p)
                                       (py_mul (Profile.ad p) t2))))).
Proof.
  intros Hp. destruct (init_inv _ _ Hp) as (n & t1v & t2v & t_0 & t_1 & Hc).
  exists n, t1v, t2v.
  split; [exact (Profile.c_N _ _ _ _ _ _ Hc)|].
  split; [exact (Profile.c_t1 _ _ _ _ _ _ Hc)|].
  split; [exact (Profile.c_t2 _ _ _ _ _ _ Hc)|].
  split; [exact (Profile.c_v _ _ _ _ _ _ Hc)|].
  split.
  - intros i x Hx. exact (constructed_lookup_v Hc i x Hx).
  - intros i x Hx Hge Hlt.
    rewrite (constructed_lookup_v Hc i x Hx), Hge. reflexivity.
Qed.

(** With nothing to travel the first sample lies in both phases, and its
    velocity is the deceleration value 40/3, not the acceleration value
    [aa*t[0] = 0]. *)
Lemma profile_fill_order_short_travel :
  exists (p : Profile.Profile Q) (x y : Q),
    Profile.__init__ Scenario.short_travel = inr p /\
    Profile.t p !! 0%nat = Some x /\ Profile.v p !! 0%nat = Some y /\
    (y == 40 # 3)%Q /\ ~ (y == py_float (Profile.aa p) * x)%Q.
Proof.
  eexists. eexists. eexists.
  split; [vm_compute; reflexivity|].
  split; [vm_compute; reflexivity|].
  match goal with |- ?v !! _ = _ /\ _ =>
    match v with Profile.v ?p =>
      destruct (profile_fill_order Scenario.short_travel p)
        as (n & t1 & t2 & _ & Ht1 & Ht2 & _ & _ & Hov); [vm_compute; reflexivity|]
    end
  end.
  vm_compute in Ht1. injection Ht1 as <-.
  vm_compute in Ht2. injection Ht2 as <-.
  split; [apply Hov; reflexivity|].
  split; [reflexivity|discriminate].
Defined.

Section ExactClaims.
Local Open Scope Q_scope.
Implicit Types (kwargs : gmap string (pynum Q)) (p : Profile.Profile Q).

(** The duration is not negative when the travel is not. *)
Lemma exact_duration_nonneg p n t1v t2v t_0 t_1 :
  Profile.constructed p n t1v t2v t_0 t_1 ->
  0 < py_float (Profile.aa p) -> 0 < py_float (Profile.spr p) ->
  0 < py_float (Profile.vmax p) -> 0 <= py_float (Profile.dstep p) ->
  exists Tq, Profile.T p = PFloat Tq /\ 0 <= Tq.
Proof.
  intros Hc Haa Hspr Hvmax Hdstep.
  destruct (exact_times Hc Haa Hspr Hvmax) as (Tq & qq & HT & _ & _ & Hqq & HTq).
  exists Tq. split; [done|]. rewrite HTq.
  apply Qle_shift_div_l; [done|].
  assert (0 <= py_float (Profile.dstep p) / py_float (Profile.spr p)).
  { apply Qle_shift_div_l; [done|]. lra. }
  lra.
Qed.

(** C1, amended: in exact arithmetic, for a profile constructed with
    [aa, ad, spr, vmax > 0], [dstep >= 0] and [N >= 2]: [t], [v], [dr]
    and [ds] have length [N]; [t] never decreases; [v[i] == aa*t[i]] at
    every sample that lies before both [t1] and [t2]; and
    [v[i] == -t[i]*ad + (vmax + ad*t2)] at every sample from [t2] on,
    before [t1] or not. *)
Theorem profile_arrays kwargs p (n : Z) :
  Profile.__init__ kwargs = inr p ->
  0 < py_float (Profile.aa p) -> 0 < py_float (Profile.ad p) ->
  0 < py_float (Profile.spr p) -> 0 < py_float (Profile.vmax p) ->
  0 <= py_float (Profile.dstep p) ->
  Profile.N p = PInt n -> (2 <= n)%Z ->
  (length (Profile.t p) = Z.to_nat n /\ length (Profile.v p) = Z.to_nat n /\
   length (Profile.dr p) = Z.to_nat n /\ length (Profile.ds p) = Z.to_nat n) /\
  (forall i j x y, (i <= j)%nat ->
     Profile.t p !! i = Some x -> Profile.t p !! j = Some y -> x <= y) /\
  (forall i x t1 t2,
     Profile.t1 p = inr (PFloat t1) -> Profile.t2 p = inr (PFloat t2) ->
     Profile.t p !! i = Some x -> x < t1 -> x < t2 ->
     exists y, Profile.v p !! i = Some y /\ y == py_float (Profile.aa p) * x) /\
  (forall i x t2,
     Profile.t2 p = inr (PFloat t2) ->
     Profile.t p !! i = Some x -> t2 <= x ->
     exists y, Profile.v p !! i = Some y /\
       y == - x * py_float (Profile.ad p)
            + (py_float (Profile.vmax p) + py_float (Profile.ad p) * t2)).
Proof.
  intros Hp Haa Had Hspr Hvmax Hdstep HN Hn.
  destruct (init_inv _ _ Hp) as (m & t1v & t2v & t_0 & t_1 & Hc).
  assert (Hm : m = Z.to_nat n).
  { pose proof (size_arg_inv _ _ (Profile.c_N _ _ _ _ _ _ Hc)) as HN'.
    rewrite HN in HN'. injection HN' as ->. lia. }
  subst m. split; [|split; [|split]].
  - rewrite (constructed_length_t Hc), (constructed_length_v Hc),
      (constructed_length_dr Hc), (constructed_length_ds Hc). done.
  - destruct (exact_duration_nonneg _ _ _ _ _ _ Hc Haa Hspr Hvmax Hdstep)
      as (Tq & HT & HTq).
    intros i j x y Hij Hx Hy.
    exact (exact_t_monotone Hc Tq i j x y HT HTq Hij Hx Hy).
  - intros i x t1 t2 Ht1 Ht2 Hx Hx1 Hx2.
    rewrite (Profile.c_t1 _ _ _ _ _ _ Hc) in Ht1. injection Ht1 as ->.
    rewrite (Profile.c_t2 _ _ _ _ _ _ Hc) in Ht2. injection Ht2 as ->.
    eexists. split; [exact (constructed_lookup_v Hc i x Hx)|].
    cbn [py_float f_leb f_ltb Exact.ops].
    apply exact_leb_false in Hx2. rewrite Hx2.
    apply exact_ltb_iff in Hx1. rewrite Hx1.
    unfold Profile.ramp_up. cbn. ring.
  - intros i x t2 Ht2 Hx Hx2.
    rewrite (Profile.c_t2 _ _ _ _ _ _ Hc) in Ht2. injection Ht2 as ->.
    eexists. split; [exact (constructed_lookup_v Hc i x Hx)|].
    cbn [py_float f_leb Exact.ops].
    apply Qle_bool_iff in Hx2. rewrite Hx2.
    unfold Profile.ramp_down. rewrite py_mul_float_r, py_add_float_r.
    cbn. ring.
Qed.

(** The default motion on five samples: the second sample,
    [t[1] = 0.07], lies inside the acceleration ([t1 = 0.075],
    [t2 = 0.205]) and has [v[1] = 200 * 0.07 = 14]; the last one,
    [t[4] = 0.28], lies in the deceleration and has [v[4] = 0]. *)
Lemma profile_arrays_five_samples :
  exists (p : Profile.Profile Q) (t1 t2 x z : Q),
    Profile.__init__ Scenario.five_samples = inr p /\
    Profile.t1 p = inr (PFloat t1) /\ Profile.t2 p = inr (PFloat t2) /\
    Profile.t p !! 1%nat = Some x /\ x == 7 # 100 /\ x < t1 /\ x < t2 /\
    Profile.t p !! 4%nat = Some z /\ z == 7 # 25 /\ t2 <= z /\
    (length (Profile.t p) = Z.to_nat 5 /\ length (Profile.v p) = Z.to_nat 5 /\
     length (Profile.dr p) = Z.to_nat 5 /\ length (Profile.ds p) = Z.to_nat 5) /\
    (forall i j x y, (i <= j)%nat ->
       Profile.t p !! i = Some x -> Profile.t p !! j = Some y -> x <= y) /\
    (exists y, Profile.v p !! 1%nat = Some y /\
               y == py_float (Profile.aa p) * x /\ y == 14) /\
    (exists y, Profile.v p !! 4%nat = Some y /\
               y == - z * py_float (Profile.ad p)
                    + (py_float (Profile.vmax p) + py_float (Profile.ad p) * t2)
               /\ y == 0).
Proof.
  do 5 eexists.
  split; [vm_compute; reflexivity|].
  split; [vm_compute; reflexivity|].
  split; [vm_compute; reflexivity|].
  split; [vm_compute; reflexivity|].
  split; [reflexivity|]. split; [reflexivity|]. split; [reflexivity|].
  split; [vm_compute; reflexivity|].
  split; [reflexivity|]. split; [vm_compute; discriminate|].
  lazymatch goal with
  | |- (length (Profile.t ?p) = _ /\ _) /\ _ =>
      destruct (profile_arrays Scenario.five_samples p 5)
        as (Hlen & Hmono & Hup & Hdown);
        [vm_compute; reflexivity | reflexivity | reflexivity | reflexivity
        | reflexivity | vm_compute; discriminate | reflexivity | lia |]
  end.
  split; [exact Hlen|]. split; [exact Hmono|]. split.
  - edestruct (Hup 1%nat) as (y & Hy & Hyx);
      [vm_compute; reflexivity | vm_compute; reflexivity
      | vm_compute; reflexivity | reflexivity | reflexivity |].
    exists y. split; [exact Hy|]. split; [exact Hyx|].
    rewrite Hyx. vm_compute. reflexivity.
  - edestruct (Hdown 4%nat) as (y & Hy & Hyz);
      [vm_compute; reflexivity | vm_compute; reflexivity
      | vm_compute; discriminate |].
    exists y. split; [exact Hy|]. split; [exact Hyz|].
    rewrite Hyz. vm_compute. reflexivity.
Defined.

(** C1 as stated fails where the two phases overlap: with nothing to
    travel, the first sample has [t[0] = 0 < t1 = 3/40], and [v[0]] is
    the deceleration value 40/3, not [aa*t[0] = 0]. *)
Lemma profile_arrays_overlap :
  exists (p : Profile.Profile Q) (t1 x y : Q),
    Profile.__init__ Scenario.short_travel = inr p /\
    0 < py_float (Profile.aa p) /\ 0 < py_float (Profile.ad p) /\
    0 < py_float (Profile.spr p) /\ 0 < py_float (Profile.vmax p) /\
    Profile.N p = PInt 2 /\
    Profile.t1 p = inr (PFloat t1) /\
    Profile.t p !! 0%nat = Some x /\ x < t1 /\
    Profile.v p !! 0%nat = Some y /\
    ~ y == py_float (Profile.aa p) * x.
Proof.
  do 4 eexists.
  split; [vm_compute; reflexivity|].
  do 5 (split; [reflexivity|]).
  split; [vm_compute; reflexivity|].
  split; [vm_compute; reflexivity|].
  split; [reflexivity|].
  split; [vm_compute; reflexivity|].
  vm_compute. discriminate.
Qed.

(** The hypothesis [dstep >= 0] is needed: a negative travel gives a
    negative duration, and [t] runs backwards. *)
Lemma profile_backwards_decreases :
  exists (p : Profile.Profile Q) (x y : Q),
    Profile.__init__ Scenario.backwards = inr p /\
    Profile.t p !! 0%nat = Some x /\ Profile.t p !! 1%nat = Some y /\ y < x.
Proof.
  do 3 eexists.
  split; [vm_compute; reflexivity|].
  split; [vm_compute; reflexivity|].
  split; [vm_compute; reflexivity|]. reflexivity.
Qed.

(** C8, amended: in exact arithmetic, for a profile constructed with
    [aa, ad, spr, vmax > 0], [ds] never decreases; and when [dstep >= 0]
    no velocity sample is negative. *)
Theorem profile_ds_monotone kwargs p :
  Profile.__init__ kwargs = inr p ->
  0 < py_float (Profile.aa p) -> 0 < py_float (Profile.ad p) ->
  0 < py_float (Profile.spr p) -> 0 < py_float (Profile.vmax p) ->
  (forall i a b,
     Profile.ds p !! i = Some a -> Profile.ds p !! S i = Some b -> a <= b) /\
  (0 <= py_float (Profile.dstep p) ->
   forall i y, Profile.v p !! i = Some y -> 0 <= y).
Proof.
  intros Hp Haa Had Hspr Hvmax.
  destruct (init_inv _ _ Hp) as (m & t1v & t2v & t_0 & t_1 & Hc).
  split.
  - intros i a b. exact (exact_ds_monotone Hc Haa Had Hspr Hvmax i a b).
  - intros Hdstep i y Hy.
    destruct (exact_duration_nonneg _ _ _ _ _ _ Hc Haa Hspr Hvmax Hdstep)
      as (Tq & HT & HTq).
    destruct (lookup_lt_is_Some_2 (Profile.t p) i) as [x Hx].
    { rewrite (constructed_length_t Hc), <- (constructed_length_v Hc).
      by eapply lookup_lt_Some. }
    destruct (exact_v_sign Hc Haa Had Hspr Hvmax Tq i x y HT Hx Hy) as [Hpos _].
    by apply Hpos.
Qed.

Lemma profile_ds_monotone_three_samples :
  exists p : Profile.Profile Q,
    Profile.__init__ Scenario.three_samples = inr p /\
    (forall i a b,
       Profile.ds p !! i = Some a -> Profile.ds p !! S i = Some b -> a <= b) /\
    (0 <= py_float (Profile.dstep p) ->
     forall i y, Profile.v p !! i = Some y -> 0 <= y).
Proof.
  eexists. split; [vm_compute; reflexivity|].
  apply (profile_ds_monotone Scenario.three_samples);
    [vm_compute; reflexivity| reflexivity..].
Defined.
End ExactClaims.

(** C8 as stated fails in binary64: on two samples of the default motion
    the last velocity, zero in exact arithmetic, is computed as
    [-7.1e-15], and [ds[1] < ds[0]]. *)
Lemma profile_ds_rounding :
  exists (p : Profile.Profile float) (a b y : float),
    Profile.__init__ Scenario.two_samples = inr p /\
    f_ltb (f_of_Z 0) (py_float (Profile.aa p)) = true /\
    f_ltb (f_of_Z 0) (py_float (Profile.ad p)) = true /\
    f_ltb (f_of_Z 0) (py_float (Profile.spr p)) = true /\
    f_ltb (f_of_Z 0) (py_float (Profile.vmax p)) = true /\
    Profile.N p = PInt 2 /\
    Profile.ds p !! 0%nat = Some a /\ Profile.ds p !! 1%nat = Some b /\
    f_leb a b = false /\ f_ltb b a = true /\
    Profile.v p !! 1%nat = Some y /\ f_ltb y (f_of_Z 0) = true.
Proof.
  do 4 eexists.
  split; [vm_compute; reflexivity|].
  repeat (split; [vm_compute; reflexivity|]).
  vm_compute; reflexivity.
Qed.

(** The scope of C1 as amended is needed too.  In binary64 a travel
    of [10**308] steps at [1e-10] steps per round meets every hypothesis
    and has an infinite duration: [linspace] computes [t[0]] as
    [0*inf], which is no number, so that [t[0] <= t[1]] does not hold. *)
Lemma profile_arrays_overflow :
  exists (p : Profile.Profile float) (x y : float),
    Profile.__init__ Scenario.overflowing = inr p /\
    f_ltb (f_of_Z 0) (py_float (Profile.aa p)) = true /\
    f_ltb (f_of_Z 0) (py_float (Profile.ad p)) = true /\
    f_ltb (f_of_Z 0) (py_float (Profile.spr p)) = true /\
    f_ltb (f_of_Z 0) (py_float (Profile.vmax p)) = true /\
    f_leb (f_of_Z 0) (py_float (Profile.dstep p)) = true /\
    Profile.N p = PInt 2 /\
    Profile.t p !! 0%nat = Some x /\ Profile.t p !! 1%nat = Some y /\
    PrimFloat.is_nan x = true /\ PrimFloat.is_infinity y = true /\
    f_leb x y = false.
Proof.
  do 3 eexists.
  split; [vm_compute; reflexivity|].
  repeat (split; [vm_compute; reflexivity|]).
  vm_compute; reflexivity.
Qed.

(** * The claims about [Axes] *)
Import Axes.

(** C4: a call of [add_profile] on a list of fewer than 8 profiles appends
    one profile, numbered by the length of the list plus one whatever
    [num] the caller gave (or leaves the list alone when [Profile] raises);
    on a list of 8 or more it returns without error and changes nothing.
    So a list of at most 8 profiles stays so over any sequence of calls,
    and after 9 calls on a fresh axis it holds at most 8. *)
Theorem add_profile_bounded {F : Type} `{FloatOps F} :
  (forall (s : state F) kwargs,
     (length (lprofile (self s)) < 8)%nat ->
     (exists prof,
        Profile.__init__ (passed s kwargs) = inr prof /\
        Profile.num prof = PInt (Z.of_nat (length (lprofile (self s))) + 1) /\
        add_profile kwargs s =
          (inr tt, mkState (with_lprofile (self s) (lprofile (self s) ++ [prof]))
                           (ser s) (stdout s)))
     \/ (exists e, Profile.__init__ (passed s kwargs) = inl e /\
                   add_profile kwargs s = (inl e, s))) /\
  (forall (s : state F) kwargs,
     (8 <= length (lprofile (self s)))%nat ->
     add_profile kwargs s = (inr tt, s)) /\
  (forall (s : state F) (calls : list (gmap string (pynum F))),
     (length (lprofile (self s)) <= 8)%nat ->
     (length (lprofile (self (exec_all (add_profile <$> calls) s))) <= 8)%nat) /\
  (forall _id name scale typ replies (calls : list (gmap string (pynum F))),
     length calls = 9%nat ->
     (length (lprofile (self (exec_all (add_profile <$> calls)
               (Scenario.start (Axes.__init__ _id name scale typ) replies))))
      <= 8)%nat).
Proof.
  split; [|split; [|split]].
  - intros s kwargs Hl. rewrite add_profile_run.
    destruct (Z.ltb_spec (Z.of_nat (length (lprofile (self s)))) 8); [|lia].
    destruct (Profile.__init__ (passed s kwargs)) as [e|prof] eqn:Hp.
    + right. by exists e.
    + left. exists prof. split; [done|]. split; [|done].
      apply (init_num _ _ _ Hp). unfold passed. apply lookup_insert_eq.
  - intros s kwargs Hl. rewrite add_profile_run.
    by destruct (Z.ltb_spec (Z.of_nat (length (lprofile (self s)))) 8); [lia|].
  - intros s calls. apply add_profiles_length.
  - intros _id name scale typ replies calls _.
    apply add_profiles_length. simpl. lia.
Qed.

Lemma add_profile_nine_calls :
  (length (lprofile (self (exec_all
     (add_profile <$> replicate 9 (∅ : gmap string (pynum float)))
     (Scenario.start Scenario.axis_x [])))) <= 8)%nat.
Proof.
  destruct (@add_profile_bounded float _) as (_ & _ & _ & Hnine).
  apply (Hnine (PInt 1) "x" (PInt 12800) "t" [] (replicate 9 ∅)).
  reflexivity.
Defined.

(** C5: [set_profile(1)] on axis 1 holding two profiles sends the axis
    id twice, [11USE1] and the terminator, because [com] puts the id in
    front of a command that [set_profile] has already prefixed with it;
    [set_profile(3)] fails the assertion and sends nothing. *)
Theorem set_profile_sends_id_twice :
  set_profile (PInt 1) Scenario.two_profiles =
    (inr tt,
     mkState (self Scenario.two_profiles)
             (mkSerial [Scenario.framed "1" "1USE1"] []) [])
  /\ Scenario.framed "1" "1USE1" <> Scenario.framed "1" "USE1"
  /\ set_profile (PInt 3) Scenario.two_profiles =
       (inl (AssertionError "profile number not defined"),
        Scenario.two_profiles).
Proof.
  split; [vm_compute; reflexivity|].
  split; [discriminate|]. vm_compute; reflexivity.
Qed.

(** The sibling [mvpro] passes the bare command, and the frame carries
    the id once. *)
Lemma mvpro_sends_id_once :
  written (ser (exec (mvpro (PInt 1)) Scenario.two_profiles)) =
    [Scenario.framed "1" "USE(1)"; Scenario.framed "1" "G"].
Proof. vm_compute; reflexivity. Qed.

Section AxesClaims.
Context {F : Type} `{FloatOps F}.
Implicit Types (s : state F).

(** C6, amended: [mv] converts the distance to steps with [int], that
    is by truncation, and writes the two frames [D<nstep>] and [G] and
    nothing else; [mv(10)] with a scale of 12800 writes [D128000] then
    [G]. *)
Theorem mv_sends_D_then_G :
  (forall s var nstep,
     py_int (py_mul var (scale (self s))) = inr nstep ->
     written (ser (exec (mv var) s)) =
       written (ser s) ++ [frame s ("D" +:+ str_int nstep); frame s "G"]
     /\ self (exec (mv var) s) = self s) /\
  (forall s,
     scale (self s) = PInt 12800 ->
     written (ser (exec (mv (PInt 10)) s)) =
       written (ser s) ++ [frame s "D128000"; frame s "G"]).
Proof.
  split.
  - intros s var nstep Hn. unfold exec. rewrite mv_run, Hn. done.
  - intros s Hs. unfold exec. rewrite mv_run, Hs. done.
Qed.

(** C9, amended: [del_profile(index)] removes the profile at the
    1-based position [index] when [1 <= index <= len], raises
    [IndexError] when [index > len] or [index <= -len], and for
    [-len < index <= 0] removes the profile at position [len + index],
    counted as [list.pop] counts a negative index. *)
Theorem del_profile_cases s (index : Z) :
  let l := lprofile (self s) in
  let n := Z.of_nat (length l) in
  (1 <= index <= n ->
   del_profile index s =
     (inr tt,
      mkState (with_lprofile (self s)
                 (take (Z.to_nat (index - 1)) l ++ drop (Z.to_nat index) l))
              (ser s) (stdout s))) /\
  (n < index \/ index <= - n ->
   del_profile index s = (inl IndexError, s)) /\
  (- n < index <= 0 ->
   del_profile index s =
     (inr tt,
      mkState (with_lprofile (self s)
                 (take (Z.to_nat (n + index - 1)) l
                  ++ drop (Z.to_nat (n + index)) l))
              (ser s) (stdout s))).
Proof.
  intros l n. subst l n. split; [|split]; intros Hi; rewrite del_profile_run.
  - destruct (list_pop_in_range (lprofile (self s)) (index - 1)) as (x & _ & ->);
      [lia|]. cbn. repeat f_equal. lia.
  - rewrite list_pop_out_of_range by lia. done.
  - destruct (list_pop_from_end (lprofile (self s)) (index - 1)) as (x & _ & ->);
      [lia|]. cbn. repeat f_equal; lia.
Qed.

(** C10: whatever [reg(typ)] does, and whether it returns or raises, it
    leaves the profile list, the id, the name, the scale and the type of
    the axis, and the two registers that [typ] does not name. *)
Theorem reg_frame (typ : string) s :
  let a := self s in
  let a' := self (exec (reg typ) s) in
  lprofile a' = lprofile a /\ _id a' = _id a /\ name a' = name a /\
  scale a' = scale a /\ Axes.typ a' = Axes.typ a /\
  (typ <> "ST" -> status a' = status a) /\
  (typ <> "UF" -> usrflt a' = usrflt a) /\
  (typ <> "DF" -> drvflt a' = drvflt a).
Proof. exact (keeps_reg typ s). Qed.

(** C7: on the reply [*0000_..._0001*] to a read of ST, [reg] has sent
    the bare frame [R], not [R(ST)], has printed that frame, and after
    setting [status[31] = 1] it raises [KeyError: 32] on the lookup of
    the missing description. *)
Theorem reg_bit32 (echo : string) :
  reg "ST" (Scenario.start Scenario.axis_x [Scenario.reply_bit32 echo]) =
    (inl (KeyError (KInt 32)),
     mkState (with_status Scenario.axis_x (replicate 31 0 ++ [1]))
             (mkSerial [Scenario.framed "1" "R"] [])
             [Scenario.framed "1" "R"])
  /\ Scenario.framed "1" "R" <> Scenario.framed "1" "R(ST)"
  /\ dstatus !! 32 = None.
Proof.
  split; [vm_compute; reflexivity|].
  split; [discriminate|]. vm_compute; reflexivity.
Qed.
End AxesClaims.

Lemma mv_sends_D_then_G_ten :
  written (ser (exec (mv (PInt 10)) (Scenario.start (Scenario.axis_x (F:=float)) []))) =
    [Scenario.framed "1" "D128000"; Scenario.framed "1" "G"].
Proof.
  destruct (@mv_sends_D_then_G float _) as [Hmv Hten].
  exact (Hten (Scenario.start Scenario.axis_x []) eq_refl).
Defined.

(** C6 as stated fails twice.  On the rotation axis [mv(5)] sends
    [D10555]: [5*2111.1111111111113] is [10555.55...], which [int]
    truncates and [round] would take to 10556.  And [mv(10)] on axis x
    does not complete: after the two frames it raises [NameError]. *)
Lemma mv_truncates_and_raises :
  (written (ser (exec (mv (PInt 5)) (Scenario.start Scenario.axis_rot []))) =
     [Scenario.framed "3" "D10555"; Scenario.framed "3" "G"]
   /\ Scenario.rounded_nstep (PInt 5) (scale Scenario.axis_rot) = inr 10556)
  /\ (mv (PInt 10) (Scenario.start (Scenario.axis_x (F:=float)) [])).1 =
       inl (NameError "scom2").
Proof. repeat split; vm_compute; reflexivity. Qed.

Lemma del_profile_cases_first :
  let l := lprofile (self Scenario.two_profiles) in
  del_profile 1 Scenario.two_profiles =
    (inr tt,
     mkState (with_lprofile (self Scenario.two_profiles)
                (take (Z.to_nat (1 - 1)) l ++ drop (Z.to_nat 1) l))
             (ser Scenario.two_profiles) (stdout Scenario.two_profiles)).
Proof.
  intros l.
  apply (proj1 (del_profile_cases Scenario.two_profiles 1)).
  vm_compute. split; discriminate.
Defined.

(** C9 as stated fails for index 0: on a list of two profiles
    [del_profile(0)] raises nothing and removes the last profile. *)
Lemma del_profile_zero :
  length (lprofile (self Scenario.two_profiles)) = 2%nat /\
  (del_profile 0 Scenario.two_profiles).1 = inr tt /\
  lprofile (self (exec (del_profile 0) Scenario.two_profiles)) =
    take 1 (lprofile (self Scenario.two_profiles)).
Proof. repeat split; vm_compute; reflexivity. Qed.

Lemma reg_frame_bit32 :
  let s := Scenario.start (Scenario.axis_x (F:=float)) [Scenario.reply_bit32 "1R"] in
  usrflt (self (exec (reg "ST") s)) = usrflt (self s) /\
  drvflt (self (exec (reg "ST") s)) = drvflt (self s).
Proof.
  intros s.
  destruct (reg_frame "ST" s) as (_ & _ & _ & _ & _ & _ & Huf & Hdf).
  split; [apply Huf|apply Hdf]; discriminate.
Defined.

(** * More about [Profile] *)

(** * More about [Profile] *)
Section ProfileArguments.
Context {F : Type} `{FloatOps F}.
Implicit Types (p : Profile.Profile F) (kwargs kw : gmap string (pynum F)).

(** Filling in defaults is a union in which the caller's entries win. *)
Lemma setdefaults_union (d : list (string * pynum F)) kw :
  setdefaults d kw = kw ∪ list_to_map d.
Proof.
  unfold setdefaults. revert kw.
  induction d as [|[k y] d IH]; intros kw; simpl.
  - by rewrite (right_id_L ∅ (∪)).
  - rewrite IH. apply map_eq. intros j.
    destruct (kw !! k) as [x|] eqn:Hk.
    + rewrite !lookup_union. destruct (decide (k = j)) as [<-|Hne].
      * rewrite Hk, lookup_insert_eq. by destruct (list_to_map d !! k).
      * by rewrite lookup_insert_ne.
    + rewrite !lookup_union. destruct (decide (k = j)) as [<-|Hne].
      * rewrite Hk, !lookup_insert_eq. by destruct (list_to_map d !! k).
      * by rewrite !lookup_insert_ne.
  Qed.

Lemma getitem_setdefaults (d : list (string * pynum F)) kw k x :
  (list_to_map d : gmap string (pynum F)) !! k = Some x ->
  getitem (setdefaults d kw) k = inr (default x (kw !! k)).
Proof.
  intros Hd. unfold getitem. rewrite setdefaults_union, lookup_union, Hd.
  by destruct (kw !! k).
Qed.

(** The eight parameters as [__init__] reads them. *)
Lemma init_args kwargs p :
  Profile.__init__ kwargs = inr p ->
  Profile.num p = default (PInt 1) (kwargs !! "num") /\
  Profile.aa p = default (PInt 200) (kwargs !! "aa") /\
  Profile.ad p = default (PInt 200) (kwargs !! "ad") /\
  Profile.dstep p = default (PInt 12800) (kwargs !! "dstep") /\
  Profile.vmax p = default (PInt 15) (kwargs !! "vmax") /\
  Profile.vs p = default (PInt 0) (kwargs !! "vs") /\
  Profile.spr p = default (PInt 4000) (kwargs !! "spr") /\
  Profile.N p = default (PInt 100) (kwargs !! "N").
Proof.
  intros Hp. unfold Profile.__init__ in Hp. cbv zeta in Hp.
  rewrite (getitem_setdefaults _ _ "num" (PInt 1)) in Hp by reflexivity.
  rewrite (getitem_setdefaults _ _ "aa" (PInt 200)) in Hp by reflexivity.
  rewrite (getitem_setdefaults _ _ "ad" (PInt 200)) in Hp by reflexivity.
  rewrite (getitem_setdefaults _ _ "dstep" (PInt 12800)) in Hp by reflexivity.
  rewrite (getitem_setdefaults _ _ "vmax" (PInt 15)) in Hp by reflexivity.
  rewrite (getitem_setdefaults _ _ "vs" (PInt 0)) in Hp by reflexivity.
  rewrite (getitem_setdefaults _ _ "spr" (PInt 4000)) in Hp by reflexivity.
  rewrite (getitem_setdefaults _ _ "N" (PInt 100)) in Hp by reflexivity.
  cbn [mbind result_bind] in Hp.
  repeat lazymatch type of Hp with
  | mbind _ ?m = inr _ =>
      destruct m; [discriminate Hp|]; cbn [mbind result_bind] in Hp
  | result_bind _ _ _ ?m = inr _ =>
      destruct m; [discriminate Hp|]; cbn [mbind result_bind] in Hp
  end.
  injection Hp as <-. done.
Qed.

(** X3: a profile holds each of its eight parameters as the caller gave
    it, and the default where the caller gave none; no other key of
    [kwargs] is read. *)
Theorem profile_reads_kwargs kwargs p :
  Profile.__init__ kwargs = inr p ->
  Profile.num p = default (PInt 1) (kwargs !! "num") /\
  Profile.aa p = default (PInt 200) (kwargs !! "aa") /\
  Profile.ad p = default (PInt 200) (kwargs !! "ad") /\
  Profile.dstep p = default (PInt 12800) (kwargs !! "dstep") /\
  Profile.vmax p = default (PInt 15) (kwargs !! "vmax") /\
  Profile.vs p = default (PInt 0) (kwargs !! "vs") /\
  Profile.spr p = default (PInt 4000) (kwargs !! "spr") /\
  Profile.N p = default (PInt 100) (kwargs !! "N").
Proof. apply init_args. Qed.

(** X1: in any arithmetic, a profile is constructed only with an int
    sample count [N >= 2], and its six arrays then have [N] items. *)
Theorem profile_shape kwargs p :
  Profile.__init__ kwargs = inr p ->
  exists n : Z,
    Profile.N p = PInt n /\ 2 <= n /\
    length (Profile.t p) = Z.to_nat n /\ length (Profile.v p) = Z.to_nat n /\
    length (Profile.v1 p) = Z.to_nat n /\ length (Profile.v2 p) = Z.to_nat n /\
    length (Profile.dr p) = Z.to_nat n /\ length (Profile.ds p) = Z.to_nat n.
Proof.
  intros Hp. destruct (init_inv _ _ Hp) as (n & t1v & t2v & t_0 & t_1 & Hc).
  pose proof (constructed_n_ge_2 Hc) as Hn.
  exists (Z.of_nat n). rewrite Nat2Z.id.
  split; [exact (size_arg_inv _ _ (Profile.c_N _ _ _ _ _ _ Hc))|].
  split; [lia|].
  rewrite (constructed_length_t Hc), (constructed_length_v Hc),
    (constructed_length_dr Hc), (constructed_length_ds Hc).
  assert (Hv12 : length (Profile.v1 p) = n /\ length (Profile.v2 p) = n).
  { pose proof (constructed_length_t Hc) as Ht.
    unfold Profile.__init__ in Hp. cbv zeta in Hp.
    repeat lazymatch type of Hp with
    | mbind _ ?m = inr _ =>
        destruct m; [discriminate Hp|]; cbn [mbind result_bind] in Hp
    | result_bind _ _ _ ?m = inr _ =>
        destruct m; [discriminate Hp|]; cbn [mbind result_bind] in Hp
    end.
    injection Hp as <-. cbn [Profile.v1 Profile.v2 Profile.t] in *.
    unfold np.mul. by rewrite !length_fmap, Ht. }
  destruct Hv12 as [-> ->]. done.
Qed.

(** X4: the start speed [vs] is kept for the wire command only: giving
    another [vs] changes neither whether the construction succeeds nor
    any of the computed values. *)
Theorem profile_vs_irrelevant kwargs (x y : pynum F) p :
  Profile.__init__ (<["vs" := x]> kwargs) = inr p ->
  exists q,
    Profile.__init__ (<["vs" := y]> kwargs) = inr q /\
    Profile.vs q = y /\
    Profile.drev q = Profile.drev p /\ Profile.T q = Profile.T p /\
    Profile.t q = Profile.t p /\ Profile.v q = Profile.v p /\
    Profile.v1 q = Profile.v1 p /\ Profile.v2 q = Profile.v2 p /\
    Profile.dr q = Profile.dr p /\ Profile.ds q = Profile.ds p.
Proof.
  intros Hp. unfold Profile.__init__ in *. cbv zeta in *.
  rewrite (getitem_setdefaults _ _ "num" (PInt 1)),
    (getitem_setdefaults _ _ "aa" (PInt 200)),
    (getitem_setdefaults _ _ "ad" (PInt 200)),
    (getitem_setdefaults _ _ "dstep" (PInt 12800)),
    (getitem_setdefaults _ _ "vmax" (PInt 15)),
    (getitem_setdefaults _ _ "vs" (PInt 0)),
    (getitem_setdefaults _ _ "spr" (PInt 4000)),
    (getitem_setdefaults _ _ "N" (PInt 100)) in Hp by reflexivity.
  rewrite (getitem_setdefaults _ _ "num" (PInt 1)),
    (getitem_setdefaults _ _ "aa" (PInt 200)),
    (getitem_setdefaults _ _ "ad" (PInt 200)),
    (getitem_setdefaults _ _ "dstep" (PInt 12800)),
    (getitem_setdefaults _ _ "vmax" (PInt 15)),
    (getitem_setdefaults _ _ "vs" (PInt 0)),
    (getitem_setdefaults _ _ "spr" (PInt 4000)),
    (getitem_setdefaults _ _ "N" (PInt 100)) by reflexivity.
  rewrite !lookup_insert_eq in *.
  rewrite !lookup_insert_ne in * by done.
  cbn [mbind result_bind default] in *.
  repeat lazymatch type of Hp with
  | mbind _ ?m = inr _ =>
      destruct m; [discriminate Hp|]; cbn [mbind result_bind] in *
  | result_bind _ _ _ ?m = inr _ =>
      destruct m; [discriminate Hp|]; cbn [mbind result_bind] in *
  end.
  injection Hp as <-. eexists. split; [reflexivity|]. done.
Qed.
End ProfileArguments.

Lemma profile_reads_kwargs_default :
  exists p : Profile.Profile float,
    Profile.__init__ Scenario.two_samples = inr p /\
    Profile.num p = default (PInt 1) (Scenario.two_samples !! "num") /\
    Profile.aa p = default (PInt 200) (Scenario.two_samples !! "aa") /\
    Profile.ad p = default (PInt 200) (Scenario.two_samples !! "ad") /\
    Profile.dstep p = default (PInt 12800) (Scenario.two_samples !! "dstep") /\
    Profile.vmax p = default (PInt 15) (Scenario.two_samples !! "vmax") /\
    Profile.vs p = default (PInt 0) (Scenario.two_samples !! "vs") /\
    Profile.spr p = default (PInt 4000) (Scenario.two_samples !! "spr") /\
    Profile.N p = default (PInt 100) (Scenario.two_samples !! "N").
Proof.
  eexists. split; [vm_compute; reflexivity|].
  apply (profile_reads_kwargs Scenario.two_samples). vm_compute; reflexivity.
Defined.

Lemma profile_shape_two_samples :
  exists (p : Profile.Profile float) (n : Z),
    Profile.__init__ Scenario.two_samples = inr p /\
    Profile.N p = PInt n /\ 2 <= n /\
    length (Profile.t p) = Z.to_nat n /\ length (Profile.v p) = Z.to_nat n /\
    length (Profile.v1 p) = Z.to_nat n /\ length (Profile.v2 p) = Z.to_nat n /\
    length (Profile.dr p) = Z.to_nat n /\ length (Profile.ds p) = Z.to_nat n.
Proof.
  eexists.
  match goal with |- exists n, Profile.__init__ ?kw = inr ?p /\ _ =>
    destruct (profile_shape kw p) as (n & Hn); [vm_compute; reflexivity|];
    exists n; split; [vm_compute; reflexivity|exact Hn]
  end.
Defined.

Lemma profile_vs_irrelevant_two_samples :
  exists p q : Profile.Profile float,
    Profile.__init__ (<["vs" := PInt 0]> Scenario.two_samples) = inr p /\
    Profile.__init__ (<["vs" := PInt 5]> Scenario.two_samples) = inr q /\
    Profile.vs q = PInt 5 /\
    Profile.drev q = Profile.drev p /\ Profile.T q = Profile.T p /\
    Profile.t q = Profile.t p /\ Profile.v q = Profile.v p /\
    Profile.v1 q = Profile.v1 p /\ Profile.v2 q = Profile.v2 p /\
    Profile.dr q = Profile.dr p /\ Profile.ds q = Profile.ds p.
Proof.
  eexists.
  match goal with |- exists q, Profile.__init__ _ = inr ?p /\ _ =>
    destruct (profile_vs_irrelevant Scenario.two_samples (PInt 0) (PInt 5) p)
      as (q & Hq); [vm_compute; reflexivity|];
    exists q; split; [vm_compute; reflexivity|exact Hq]
  end.
Defined.

(** ** More about profiles in exact arithmetic *)
Section ExactShape.
Local Open Scope Q_scope.
Implicit Types (kwargs : gmap string (pynum Q)) (p : Profile.Profile Q).

Lemma exact_eqb_true_iff (x : Q) : Qeq_bool x (inject_Z 0) = true <-> x == 0.
Proof. rewrite Qeq_bool_iff. reflexivity. Qed.

Lemma exact_div_ok (a b : pynum Q) :
  ~ py_float b == 0 -> exists c, py_div a b = inr c.
Proof.
  intros Hb. destruct a as [x|x], b as [y|y]; cbn in *.
  - destruct (Z.eqb_spec y 0) as [->|]; [by destruct Hb|]. by eexists.
  - destruct (Qeq_bool y (inject_Z 0)) eqn:E; [|by eexists].
    apply exact_eqb_true_iff in E. by destruct Hb.
  - destruct (Qeq_bool (inject_Z y) (inject_Z 0)) eqn:E; [|by eexists].
    apply exact_eqb_true_iff in E. by destruct Hb.
  - destruct (Qeq_bool y (inject_Z 0)) eqn:E; [|by eexists].
    apply exact_eqb_true_iff in E. by destruct Hb.
Qed.

Lemma exact_div_nonzero (a b c : pynum Q) :
  py_div a b = inr c -> ~ py_float b == 0.
Proof.
  destruct a as [x|x], b as [y|y]; cbn.
  - destruct (Z.eqb_spec y 0) as [->|Hy]; [discriminate|]. intros _ Hq.
    apply Hy. unfold Qeq in Hq. cbn in Hq. lia.
  - destruct (Qeq_bool y (inject_Z 0)) eqn:E; [discriminate|]. intros _.
    by apply exact_eqb_false.
  - destruct (Qeq_bool (inject_Z y) (inject_Z 0)) eqn:E; [discriminate|]. intros _.
    by apply exact_eqb_false.
  - destruct (Qeq_bool y (inject_Z 0)) eqn:E; [discriminate|]. intros _.
    by apply exact_eqb_false.
Qed.

(** The divisors that a finished [__init__] has met are not zero. *)
Lemma constructed_nonzero p n t1v t2v t_0 t_1 :
  Profile.constructed p n t1v t2v t_0 t_1 ->
  ~ py_float (Profile.spr p) == 0 /\ ~ py_float (Profile.aa p) == 0 /\
  ~ py_float (Profile.vmax p) == 0 /\ ~ py_float (Profile.ad p) == 0.
Proof.
  intros [Hdrev HT _ _ _ Ht1 Ht2 _ _ _ _ _].
  unfold Profile.t1, Profile.t2, Profile.one in *.
  apply exact_div_nonzero in Hdrev.
  destruct (py_div (py_sqr _) _) as [|q] eqn:Hq; [discriminate|].
  cbn [mbind result_bind] in HT.
  apply exact_div_nonzero in Hq, HT.
  destruct (py_div (Profile.vmax p) (py_mul _ (Profile.ad p))) as [|d] eqn:Hd;
    [discriminate|].
  apply exact_div_nonzero in Hd.
  rewrite py_mul_float_l in Hdrev. rewrite py_mul_float_l in HT.
  rewrite py_mul_float_l in Hd.
  cbn [py_float f_mul f_of_Z Exact.ops] in Hdrev, HT, Hd.
  change (inject_Z 1) with 1 in Hdrev, HT, Hd.
  repeat split; try done; intros Hz.
  - apply Hdrev. clear -Hz. revert Hz. generalize (py_float (Profile.spr p)).
    intros x Hx. lra.
  - apply HT. clear -Hz. revert Hz. generalize (py_float (Profile.vmax p)).
    intros x Hx. lra.
  - apply Hd. clear -Hz. revert Hz. generalize (py_float (Profile.ad p)).
    intros x Hx. lra.
Qed.

(** X5: in exact arithmetic the duration of a constructed profile is
    [(dstep/spr + vmax**2/aa)/vmax], where the quotient [vmax**2/aa] is
    the floored integer quotient when [vmax] and [aa] are both ints. *)
Theorem profile_duration kwargs p :
  Profile.__init__ kwargs = inr p ->
  exists Tq : Q,
    Profile.T p = PFloat Tq /\
    Tq == (py_float (Profile.dstep p) / py_float (Profile.spr p)
           + Exact.sqr_quotient (Profile.vmax p) (Profile.aa p))
          / py_float (Profile.vmax p).
Proof.
  intros Hp. destruct (init_inv _ _ Hp) as (n & t1v & t2v & t_0 & t_1 & Hc).
  destruct (constructed_nonzero _ _ _ _ _ _ Hc) as (Hspr & Haa & Hvmax & Had).
  destruct Hc as [Hdrev HT _ _ _ _ _ _ _ _ _ _].
  unfold Profile.one in *.
  rewrite py_mul_float_l in Hdrev. rewrite py_mul_float_l in HT.
  apply py_div_float_r in Hdrev as [_ Hdrev].
  destruct (py_div (py_sqr (Profile.vmax p)) (Profile.aa p)) as [|q] eqn:Hq;
    [discriminate|].
  cbn [mbind result_bind] in HT. rewrite Hdrev, py_add_float_l in HT.
  apply py_div_float_r in HT as [_ HT].
  eexists. split; [exact HT|].
  assert (Hqq : py_float q == Exact.sqr_quotient (Profile.vmax p) (Profile.aa p)).
  { unfold Exact.sqr_quotient.
    destruct (Profile.vmax p) as [v|v], (Profile.aa p) as [a|a]; cbn in Hq |- *.
    - destruct (a =? 0)%Z; [discriminate|]. injection Hq as <-. reflexivity.
    - destruct (Qeq_bool _ _); [discriminate|]. injection Hq as <-. cbn.
      rewrite inject_Z_mult. reflexivity.
    - destruct (Qeq_bool _ _); [discriminate|]. injection Hq as <-. reflexivity.
    - destruct (Qeq_bool _ _); [discriminate|]. injection Hq as <-. reflexivity. }
  cbn. rewrite Hqq. field. split; done.
Qed.

(** X2: in exact arithmetic [Profile] applied to keyword arguments returns a profile exactly
    when none of [spr], [aa], [vmax] and [ad] is zero and [N] is an int
    of at least 2; negative parameters are accepted. *)
Theorem profile_succeeds_iff kwargs :
  let spr := default (PInt 4000) (kwargs !! "spr") in
  let aa := default (PInt 200) (kwargs !! "aa") in
  let vmax := default (PInt 15) (kwargs !! "vmax") in
  let ad := default (PInt 200) (kwargs !! "ad") in
  let N := default (PInt 100) (kwargs !! "N") in
  (exists p, Profile.__init__ kwargs = inr p) <->
  (~ py_float spr == 0 /\ ~ py_float aa == 0 /\ ~ py_float vmax == 0 /\
   ~ py_float ad == 0 /\ exists n : Z, N = PInt n /\ (2 <= n)%Z).
Proof.
  intros spr aa vmax ad N. split.
  - intros [p Hp].
    destruct (init_args _ _ Hp) as (_ & Haa & Had & _ & Hvmax & _ & Hspr & HN).
    destruct (init_inv _ _ Hp) as (n & t1v & t2v & t_0 & t_1 & Hc).
    destruct (constructed_nonzero _ _ _ _ _ _ Hc) as (Zspr & Zaa & Zvmax & Zad).
    subst spr aa vmax ad N. rewrite <- Hspr, <- Haa, <- Hvmax, <- Had, <- HN.
    repeat split; try done.
    exists (Z.of_nat n).
    split; [exact (size_arg_inv _ _ (Profile.c_N _ _ _ _ _ _ Hc))|].
    pose proof (constructed_n_ge_2 Hc). lia.
  - intros (Zspr & Zaa & Zvmax & Zad & n & HN & Hn).
    unfold Profile.__init__. cbv zeta.
    rewrite (getitem_setdefaults _ _ "num" (PInt 1)),
      (getitem_setdefaults _ _ "aa" (PInt 200)),
      (getitem_setdefaults _ _ "ad" (PInt 200)),
      (getitem_setdefaults _ _ "dstep" (PInt 12800)),
      (getitem_setdefaults _ _ "vmax" (PInt 15)),
      (getitem_setdefaults _ _ "vs" (PInt 0)),
      (getitem_setdefaults _ _ "spr" (PInt 4000)),
      (getitem_setdefaults _ _ "N" (PInt 100)) by reflexivity.
    fold spr aa vmax ad N. cbn [mbind result_bind]. rewrite HN.
    assert (Hone : forall x : pynum Q,
              ~ py_float x == 0 -> ~ py_float (py_mul Profile.one x) == 0).
    { intros x Hx. unfold Profile.one. rewrite py_mul_float_l.
      cbn [py_float f_mul f_of_Z Exact.ops]. change (inject_Z 1) with 1.
      revert Hx. generalize (py_float x). intros y Hy Hz. apply Hy. lra. }
    destruct (exact_div_ok (default (PInt 12800) (kwargs !! "dstep"))
                (py_mul Profile.one spr) (Hone _ Zspr)) as [drev ->].
    cbn [mbind result_bind].
    destruct (exact_div_ok (py_sqr vmax) aa Zaa) as [q ->].
    cbn [mbind result_bind].
    destruct (exact_div_ok (py_add drev q) (py_mul Profile.one vmax)
                (Hone _ Zvmax)) as [T ->].
    cbn [mbind result_bind].
    unfold Profile.size_arg. destruct (Z.ltb_spec n 0) as [|_]; [lia|].
    cbn [mbind result_bind mret result_ret].
    destruct (exact_div_ok vmax (py_mul Profile.one aa) (Hone _ Zaa)) as [t1 ->].
    cbn [mbind result_bind].
    destruct (exact_div_ok vmax (py_mul Profile.one ad) (Hone _ Zad)) as [d ->].
    cbn [mbind result_bind].
    unfold Profile.item.
    destruct (lookup_lt_is_Some_2
                (np.linspace (f_of_Z 0) (py_float T) (Z.to_nat n)) 1) as [x1 ->].
    { rewrite length_linspace. lia. }
    destruct (lookup_lt_is_Some_2
                (np.linspace (f_of_Z 0) (py_float T) (Z.to_nat n)) 0) as [x0 ->].
    { rewrite length_linspace. lia. }
    cbn [mbind result_bind mret result_ret]. by eexists.
Qed.

Section Shape.
Context {p : Profile.Profile Q} {kwargs : gmap string (pynum Q)}
        (Hp : Profile.__init__ kwargs = inr p).
Hypotheses (Haa : 0 < py_float (Profile.aa p))
           (Had : 0 < py_float (Profile.ad p))
           (Hspr : 0 < py_float (Profile.spr p))
           (Hvmax : 0 < py_float (Profile.vmax p)).

(** The velocity of a sample in closed form, phase by phase. *)
Lemma exact_velocity i x y (Tq t1 t2 : Q) :
  Profile.T p = PFloat Tq ->
  Profile.t1 p = inr (PFloat t1) -> Profile.t2 p = inr (PFloat t2) ->
  Profile.t p !! i = Some x -> Profile.v p !! i = Some y ->
  t1 == py_float (Profile.vmax p) / py_float (Profile.aa p) /\
  t2 == Tq - py_float (Profile.vmax p) / py_float (Profile.ad p) /\
  (t2 <= x -> y == py_float (Profile.ad p) * (Tq - x)) /\
  (x < t2 -> x < t1 -> y == py_float (Profile.aa p) * x) /\
  (x < t2 -> t1 <= x -> y == py_float (Profile.vmax p)).
Proof.
  intros HT Ht1 Ht2 Hx Hy.
  destruct (init_inv _ _ Hp) as (n & t1v & t2v & t_0 & t_1 & Hc).
  destruct (exact_times Hc Haa Hspr Hvmax) as (Tq' & qq & HT' & Et1 & Et2 & _).
  rewrite HT in HT'. injection HT' as <-.
  rewrite (Profile.c_t1 _ _ _ _ _ _ Hc) in Ht1. injection Ht1 as Ht1.
  rewrite (Profile.c_t2 _ _ _ _ _ _ Hc) in Ht2. injection Ht2 as Ht2.
  pose proof (exact_ramp_down Hc Had Tq x HT Et2) as Hdown.
  rewrite (constructed_lookup_v Hc i x Hx) in Hy. injection Hy as <-.
  rewrite Ht1 in Et1. injection Et1 as Et1.
  rewrite Ht2 in Et2. injection Et2 as Et2.
  rewrite Ht1, Ht2. cbn [py_float f_leb f_ltb Exact.ops]. subst t1 t2.
  change (inject_Z 1) with 1.
  split; [field; lra|]. split; [field; lra|].
  rewrite Ht2 in Hdown.
  split; [|split].
  - intros Hge. apply Qle_bool_iff in Hge. rewrite Hge. exact Hdown.
  - intros Hlt2 Hlt1. apply exact_leb_false in Hlt2. rewrite Hlt2.
    apply exact_ltb_iff in Hlt1. rewrite Hlt1.
    unfold Profile.ramp_up. cbn. ring.
  - intros Hlt2 Hge1. apply exact_leb_false in Hlt2. rewrite Hlt2.
    destruct (Exact.ltb x _) eqn:E.
    + apply exact_ltb_iff in E. lra.
    + cbn. change (inject_Z 1) with 1. ring.
Qed.

(** The two phase boundaries of a constructed profile are floats. *)
Lemma exact_boundaries :
  exists Tq t1 t2 : Q,
    Profile.T p = PFloat Tq /\
    Profile.t1 p = inr (PFloat t1) /\ Profile.t2 p = inr (PFloat t2).
Proof.
  destruct (init_inv _ _ Hp) as (n & t1v & t2v & t_0 & t_1 & Hc).
  destruct (exact_times Hc Haa Hspr Hvmax) as (Tq & qq & HT & Et1 & Et2 & _).
  exists Tq. eexists. eexists. split; [exact HT|].
  rewrite (Profile.c_t1 _ _ _ _ _ _ Hc), (Profile.c_t2 _ _ _ _ _ _ Hc), Et1, Et2.
  split; reflexivity.
Qed.

Lemma exact_sample_exists i y :
  Profile.v p !! i = Some y -> exists x, Profile.t p !! i = Some x.
Proof.
  intros Hy. destruct (init_inv _ _ Hp) as (n & t1v & t2v & t_0 & t_1 & Hc).
  apply lookup_lt_is_Some_2.
  rewrite (constructed_length_t Hc), <- (constructed_length_v Hc).
  by eapply lookup_lt_Some.
Qed.
End Shape.

(** X8: in exact arithmetic, with [aa, ad, spr, vmax > 0], the samples of
    [v] follow the trapezoid in closed form: [ad*(T - t[i])] from [t2]
    on, and before [t2] the ramp [aa*t[i]] up to [t1] and [vmax] from
    [t1] on, where [t1 = vmax/aa] and [t2 = T - vmax/ad]. *)
Theorem profile_phases kwargs p i x y (Tq t1 t2 : Q) :
  Profile.__init__ kwargs = inr p ->
  0 < py_float (Profile.aa p) -> 0 < py_float (Profile.ad p) ->
  0 < py_float (Profile.spr p) -> 0 < py_float (Profile.vmax p) ->
  Profile.T p = PFloat Tq ->
  Profile.t1 p = inr (PFloat t1) -> Profile.t2 p = inr (PFloat t2) ->
  Profile.t p !! i = Some x -> Profile.v p !! i = Some y ->
  t1 == py_float (Profile.vmax p) / py_float (Profile.aa p) /\
  t2 == Tq - py_float (Profile.vmax p) / py_float (Profile.ad p) /\
  (t2 <= x -> y == py_float (Profile.ad p) * (Tq - x)) /\
  (x < t2 -> x < t1 -> y == py_float (Profile.aa p) * x) /\
  (x < t2 -> t1 <= x -> y == py_float (Profile.vmax p)).
Proof. intros Hp Haa Had Hspr Hvmax. by apply (exact_velocity Hp). Qed.

(** X7: in exact arithmetic, with [aa, ad, spr, vmax > 0], no velocity
    sample exceeds [vmax], whatever the travel. *)
Theorem profile_velocity_bounded kwargs p :
  Profile.__init__ kwargs = inr p ->
  0 < py_float (Profile.aa p) -> 0 < py_float (Profile.ad p) ->
  0 < py_float (Profile.spr p) -> 0 < py_float (Profile.vmax p) ->
  forall i y, Profile.v p !! i = Some y -> y <= py_float (Profile.vmax p).
Proof.
  intros Hp Haa Had Hspr Hvmax i y Hy.
  destruct (exact_boundaries Hp Haa Hspr Hvmax) as (Tq & t1 & t2 & HT & Ht1 & Ht2).
  destruct (exact_sample_exists Hp i y Hy) as [x Hx].
  destruct (exact_velocity Hp Haa Had Hspr Hvmax i x y Tq t1 t2 HT Ht1 Ht2 Hx Hy)
    as (Et1 & Et2 & Hdown & Hup & Hflat).
  revert Haa Had Hvmax Et1 Et2 Hdown Hup Hflat.
  generalize (py_float (Profile.aa p)) (py_float (Profile.ad p))
             (py_float (Profile.vmax p)).
  intros aa ad vmax Haa Had Hvmax Et1 Et2 Hdown Hup Hflat.
  assert (Ea : aa * (vmax / aa) == vmax) by (field; lra).
  assert (Ed : ad * (vmax / ad) == vmax) by (field; lra).
  destruct (Qlt_le_dec x t2) as [Hlt2|Hge2].
  - destruct (Qlt_le_dec x t1) as [Hlt1|Hge1].
    + rewrite (Hup Hlt2 Hlt1). nra.
    + rewrite (Hflat Hlt2 Hge1). lra.
  - rewrite (Hdown Hge2). nra.
Qed.

(** X6: in exact arithmetic, with [aa, ad, spr, vmax > 0], the samples
    of [t] start at 0 and end at the duration [T] itself, and the last
    velocity sample is 0. *)
Theorem profile_endpoints kwargs p :
  Profile.__init__ kwargs = inr p ->
  0 < py_float (Profile.aa p) -> 0 < py_float (Profile.ad p) ->
  0 < py_float (Profile.spr p) -> 0 < py_float (Profile.vmax p) ->
  exists (n : nat) (Tq x0 y : Q),
    length (Profile.t p) = S n /\ Profile.T p = PFloat Tq /\
    Profile.t p !! 0%nat = Some x0 /\ x0 == 0 /\
    Profile.t p !! n = Some Tq /\
    Profile.v p !! n = Some y /\ y == 0.
Proof.
  intros Hp Haa Had Hspr Hvmax.
  destruct (exact_boundaries Hp Haa Hspr Hvmax) as (Tq & t1 & t2 & HT & Ht1 & Ht2).
  destruct (init_inv _ _ Hp) as (n & t1v & t2v & t_0 & t_1 & Hc).
  pose proof (constructed_n_ge_2 Hc) as Hn.
  destruct n as [|[|m]]; [lia..|].
  assert (Hlast : Profile.t p !! S m = Some Tq).
  { rewrite (Profile.c_t _ _ _ _ _ _ Hc), HT, lookup_linspace by lia.
    by rewrite decide_True. }
  destruct (lookup_lt_is_Some_2 (Profile.v p) (S m)) as [y Hy].
  { rewrite (constructed_length_v Hc). lia. }
  exists (S m), Tq, t_0, y.
  split; [exact (constructed_length_t Hc)|]. split; [exact HT|].
  split; [exact (Profile.c_t0 _ _ _ _ _ _ Hc)|].
  split.
  { destruct (exact_sample Hc Tq 0 t_0 HT (Profile.c_t0 _ _ _ _ _ _ Hc)) as [_ ->].
    cbn. ring. }
  split; [exact Hlast|]. split; [exact Hy|].
  destruct (exact_velocity Hp Haa Had Hspr Hvmax (S m) Tq y Tq t1 t2
              HT Ht1 Ht2 Hlast Hy) as (_ & Et2 & Hdown & _).
  assert (Hgap : 0 < py_float (Profile.vmax p) / py_float (Profile.ad p)).
  { apply Qlt_shift_div_l; lra. }
  rewrite Hdown; [ring|].
  revert Et2 Hgap. generalize (py_float (Profile.vmax p) / py_float (Profile.ad p)).
  intros g Et2 Hgap. lra.
Qed.
End ExactShape.

Lemma profile_phases_three_samples :
  exists (p : Profile.Profile Q) (x y Tq t1 t2 : Q),
    Profile.__init__ Scenario.three_samples = inr p /\
    (t1 == py_float (Profile.vmax p) / py_float (Profile.aa p) /\
     t2 == Tq - py_float (Profile.vmax p) / py_float (Profile.ad p) /\
     (t2 <= x -> y == py_float (Profile.ad p) * (Tq - x)) /\
     (x < t2 -> x < t1 -> y == py_float (Profile.aa p) * x) /\
     (x < t2 -> t1 <= x -> y == py_float (Profile.vmax p)))%Q.
Proof.
  do 6 eexists. split; [vm_compute; reflexivity|].
  eapply (profile_phases Scenario.three_samples _ 1%nat);
    [vm_compute; reflexivity | reflexivity | reflexivity | reflexivity
    | reflexivity | reflexivity | vm_compute; reflexivity
    | vm_compute; reflexivity | vm_compute; reflexivity
    | vm_compute; reflexivity].
Defined.

Lemma profile_velocity_bounded_three_samples :
  exists p : Profile.Profile Q,
    Profile.__init__ Scenario.three_samples = inr p /\
    forall i y, Profile.v p !! i = Some y -> (y <= py_float (Profile.vmax p))%Q.
Proof.
  eexists. split; [vm_compute; reflexivity|].
  apply (profile_velocity_bounded Scenario.three_samples);
    [vm_compute; reflexivity | reflexivity ..].
Defined.

Lemma profile_endpoints_three_samples :
  exists (p : Profile.Profile Q) (n : nat) (Tq x0 y : Q),
    Profile.__init__ Scenario.three_samples = inr p /\
    length (Profile.t p) = S n /\ Profile.T p = PFloat Tq /\
    Profile.t p !! 0%nat = Some x0 /\ (x0 == 0)%Q /\
    Profile.t p !! n = Some Tq /\
    Profile.v p !! n = Some y /\ (y == 0)%Q.
Proof.
  eexists.
  match goal with |- exists n Tq x0 y, Profile.__init__ ?kw = inr ?p /\ _ =>
    destruct (profile_endpoints kw p) as (n & Tq & x0 & y & Hn);
      [vm_compute; reflexivity | reflexivity ..|];
    exists n, Tq, x0, y; split; [vm_compute; reflexivity|exact Hn]
  end.
Defined.

(** The defaults: [15**2/200] is the int 1, and the duration is
    [(3.2 + 1)/15 = 0.28]. *)
Lemma profile_duration_default :
  exists (p : Profile.Profile Q) (Tq : Q),
    Profile.__init__ ∅ = inr p /\
    Profile.T p = PFloat Tq /\
    (Tq == (py_float (Profile.dstep p) / py_float (Profile.spr p)
            + Exact.sqr_quotient (Profile.vmax p) (Profile.aa p))
           / py_float (Profile.vmax p))%Q /\
    Exact.sqr_quotient (Profile.vmax p) (Profile.aa p) = inject_Z 1 /\
    (Tq == 7 # 25)%Q.
Proof.
  eexists.
  match goal with |- exists Tq, Profile.__init__ ?kw = inr ?p /\ _ =>
    destruct (profile_duration kw p) as (Tq & HT & HTq);
      [vm_compute; reflexivity|];
    exists Tq; split; [vm_compute; reflexivity|];
    split; [exact HT|]; split; [exact HTq|]; split; [reflexivity|];
    rewrite HTq; vm_compute; reflexivity
  end.
Defined.

(** * More about [Axes] *)
Section Protocol.
Context {F : Type} `{FloatOps F}.
Implicit Types (s : Axes.state F) (a : Axes.Axes F).
Import Axes.
Local Abbreviation M := (@Axes.M F).
Local Abbreviation polite := (Axes.polite (F:=F)).

Lemma follows_refl s : follows s s.
Proof.
  split; [done|]. exists []. simpl. by rewrite app_nil_r, drop_0.
Qed.

Lemma follows_trans s1 s2 s3 : follows s1 s2 -> follows s2 s3 -> follows s1 s3.
Proof.
  intros [Hid (c1 & Hw1 & Hp1)] [Hid' (c2 & Hw2 & Hp2)].
  split; [congruence|]. exists (c1 ++ c2).
  rewrite Hw2, Hw1, Hp2, Hp1, fmap_app, <- app_assoc, length_app, drop_drop.
  split; [|done]. do 2 f_equal.
  apply list_fmap_ext. intros _ c _. unfold frame. by rewrite Hid.
Qed.

Lemma polite_bind {A B} (m : M A) (f : A -> M B) :
  polite m -> (forall x, polite (f x)) -> polite (m ≫= f).
Proof.
  intros Hm Hf s. unfold mbind, M_bind.
  specialize (Hm s). destruct (m s) as [[e|x] s1]; [done|].
  eapply follows_trans; [exact Hm|]. apply Hf.
Qed.

Lemma polite_ret {A} (x : A) : polite (mret x).
Proof. intros s. apply follows_refl. Qed.

Lemma polite_lift {A} (r : result A) : polite (lift r).
Proof. intros s. apply follows_refl. Qed.

Lemma polite_throw {A} (e : exn) : polite (throw (A:=A) e).
Proof. intros s. apply follows_refl. Qed.

Lemma polite_get_self : polite get_self.
Proof. intros s. apply follows_refl. Qed.

Lemma polite_print x : polite (print x).
Proof.
  intros s. split; [done|]. exists []. simpl. by rewrite app_nil_r, drop_0.
Qed.

Lemma polite_com command verbose : polite (com command verbose).
Proof.
  intros s. rewrite com_run. split; [done|]. exists [command]. simpl.
  split; [done|]. by destruct (pending (ser s)).
Qed.

Lemma polite_for {A} (xs : list A) (body : A -> M unit) :
  (forall x, polite (body x)) -> polite (for_ xs body).
Proof.
  intros Hb. induction xs as [|x xs IH]; simpl; [apply polite_ret|].
  apply polite_bind; [apply Hb|]. intros _. exact IH.
Qed.

Lemma polite_print2 x e : polite (print2 x e).
Proof.
  unfold print2. destruct e; [|apply polite_print].
  apply polite_bind; [apply polite_print|]. intros _. apply polite_throw.
Qed.

Lemma polite_print3 x e c : polite (print3 x e c).
Proof.
  unfold print3. destruct e; [|apply polite_print].
  apply polite_bind; [apply polite_print|]. intros _. apply polite_throw.
Qed.

Lemma polite_store_bit get set table i val :
  (forall a x, _id (set a x) = _id a) ->
  polite (store_bit get set table i val).
Proof.
  intros Hset s. unfold store_bit, mbind, M_bind, get_self, lift, set_self.
  assert (Hs : forall r out, follows s (mkState (set (self s) r) (ser s) out)).
  { intros r out. split; [apply Hset|]. exists []. simpl.
    by rewrite app_nil_r, drop_0. }
  destruct (list_setitem _ _ _) as [e|r]; [apply follows_refl|].
  cbn. destruct (val =? 0); cbn; [apply Hs|].
  destruct (dict_item _ _); cbn; apply Hs.
Qed.

Ltac polite_steps :=
  repeat first
    [ apply polite_ret | apply polite_lift | apply polite_throw
    | apply polite_get_self | apply polite_print | apply polite_com
    | apply polite_print2 | apply polite_print3
    | (apply polite_for; intros ?)
    | (apply polite_store_bit; done)
    | match goal with |- polite (if ?b then _ else _) => destruct b end
    | match goal with |- Axes.polite (if ?b then _ else _) => destruct b end
    | (apply polite_bind; [|intros ?]) ].

(** X13: every method keeps to the protocol, whether it returns or
    raises: the axis keeps its id, what the port had received stays, each
    string added to it is a command framed as [str(id) + command + CR LF],
    and exactly one waiting reply is taken per command sent. *)
Theorem methods_polite :
  (forall command verbose, polite (com command verbose)) /\
  (forall keys lvar, polite (getvar keys lvar)) /\
  (forall py_eval cmd kwargs, polite (home py_eval cmd kwargs)) /\
  (forall index, polite (del_profile index)) /\
  (forall kwargs, polite (add_profile kwargs)) /\
  (forall num, polite (set_profile num)) /\
  polite reset /\
  (forall id_pro, polite (mvpro id_pro)) /\
  (forall typ, polite (reg typ)) /\
  (forall var, polite (mv var)) /\
  polite homeor.
Proof.
  assert (Hset : forall a l out s,
            _id a = _id (self s) ->
            follows s (mkState (with_lprofile a l) (ser s) out)).
  { intros a l out s Ha. split; [done|]. exists []. simpl.
    by rewrite app_nil_r, drop_0. }
  repeat apply conj.
  - apply polite_com.
  - intros keys lvar. unfold getvar. polite_steps.
  - intros py_eval cmd kwargs. unfold home, home_get, home_set, home_go.
    polite_steps.
  - intros index s. rewrite del_profile_run.
    destruct (list_pop _ _); [apply follows_refl|]. by apply Hset.
  - intros kwargs s. rewrite add_profile_run.
    destruct (_ <? 8); [|apply follows_refl].
    destruct (Profile.__init__ _); [apply follows_refl|]. by apply Hset.
  - intros num. unfold set_profile. polite_steps.
  - unfold reset. polite_steps.
  - intros id_pro. unfold mvpro. polite_steps.
  - intros typ. unfold reg. polite_steps.
  - intros var. unfold mv. polite_steps.
  - unfold homeor. polite_steps.
Qed.
End Protocol.

Section ProfileList.
Context {F : Type} `{FloatOps F}.
Implicit Types (s : Axes.state F) (a : Axes.Axes F).
Import Axes.

(** What [add_profile] hands to [Profile] under a key other than [num]
    is what its caller gave, or the default of [add_profile]. *)
Lemma passed_lookup s (kwargs : gmap string (pynum F)) k :
  k <> "num" ->
  passed s kwargs !! k =
    (kwargs ∪ (list_to_map add_defaults : gmap string (pynum F))) !! k.
Proof.
  intros Hk. unfold passed. rewrite lookup_insert_ne by done.
  by rewrite setdefaults_union.
Qed.

(** X9: [add_profile] offers the cruise speed under the key [v], and
    [Profile] reads [vmax]: unless the caller passes [vmax] itself, the
    profile that is appended has [vmax = 15], whatever [v] is; the other
    parameters are those of the caller, or 200, 200, 12800, 0, 4000 and
    100. *)
Theorem add_profile_ignores_v s (kwargs : gmap string (pynum F)) prof :
  Profile.__init__ (passed s kwargs) = inr prof ->
  Profile.vmax prof = default (PInt 15) (kwargs !! "vmax") /\
  Profile.aa prof = default (PInt 200) (kwargs !! "aa") /\
  Profile.ad prof = default (PInt 200) (kwargs !! "ad") /\
  Profile.dstep prof = default (PInt 12800) (kwargs !! "dstep") /\
  Profile.vs prof = default (PInt 0) (kwargs !! "vs") /\
  Profile.spr prof = default (PInt 4000) (kwargs !! "spr") /\
  Profile.N prof = default (PInt 100) (kwargs !! "N").
Proof.
  intros Hp.
  destruct (init_args _ _ Hp) as (_ & Haa & Had & Hdstep & Hvmax & Hvs & Hspr & HN).
  rewrite Haa, Had, Hdstep, Hvmax, Hvs, Hspr, HN.
  rewrite !passed_lookup by done. rewrite !lookup_union.
  repeat split.
  - change ((list_to_map add_defaults : gmap string (pynum F)) !! "vmax") with (@None (pynum F)).
    by destruct (kwargs !! "vmax").
  - change ((list_to_map add_defaults : gmap string (pynum F)) !! "aa") with (Some (PInt (F:=F) 200)).
    by destruct (kwargs !! "aa").
  - change ((list_to_map add_defaults : gmap string (pynum F)) !! "ad") with (Some (PInt (F:=F) 200)).
    by destruct (kwargs !! "ad").
  - change ((list_to_map add_defaults : gmap string (pynum F)) !! "dstep") with (Some (PInt (F:=F) 12800)).
    by destruct (kwargs !! "dstep").
  - change ((list_to_map add_defaults : gmap string (pynum F)) !! "vs") with (Some (PInt (F:=F) 0)).
    by destruct (kwargs !! "vs").
  - change ((list_to_map add_defaults : gmap string (pynum F)) !! "spr") with (Some (PInt (F:=F) 4000)).
    by destruct (kwargs !! "spr").
  - change ((list_to_map add_defaults : gmap string (pynum F)) !! "N") with (Some (PInt (F:=F) 100)).
    by destruct (kwargs !! "N").
Qed.

Lemma numbered_nil : numbered ([] : list (Profile.Profile F)).
Proof. intros i p Hi. done. Qed.

Lemma numbered_snoc (l : list (Profile.Profile F)) p :
  numbered l -> Profile.num p = PInt (Z.of_nat (length l) + 1) ->
  numbered (l ++ [p]).
Proof.
  intros Hl Hp i q Hq.
  destruct (decide (i < length l)%nat) as [Hi|Hi].
  - rewrite lookup_app_l in Hq by done. by apply Hl.
  - rewrite lookup_app_r in Hq by lia.
    destruct (i - length l)%nat as [|j] eqn:Hj; [|by destruct j].
    injection Hq as <-. rewrite Hp. do 2 f_equal. lia.
Qed.

Lemma add_profile_numbered kwargs s :
  numbered (lprofile (self s)) ->
  numbered (lprofile (self (exec (add_profile kwargs) s))).
Proof.
  intros Hl. unfold exec. rewrite add_profile_run.
  destruct (_ <? 8); [|done].
  destruct (Profile.__init__ _) as [e|prof] eqn:Hp; [done|].
  cbn. apply numbered_snoc; [done|].
  apply (init_num _ _ _ Hp). unfold passed. apply lookup_insert_eq.
Qed.

(** X10: on an axis on which profiles were only ever added, the profile
    at position [i] of the list carries the number [i+1]. *)
Theorem add_profile_numbers _id name scale typ replies
    (calls : list (gmap string (pynum F))) :
  numbered (lprofile (self (exec_all (add_profile <$> calls)
     (Scenario.start (Axes.__init__ _id name scale typ) replies)))).
Proof.
  assert (Hgen : forall s, numbered (lprofile (self s)) ->
            numbered (lprofile (self (exec_all (add_profile <$> calls) s)))).
  { unfold exec_all. induction calls as [|kw calls IH]; intros s Hs; [done|].
    simpl. apply IH. by apply add_profile_numbered. }
  apply Hgen. apply numbered_nil.
Qed.

(** X12: a profile that [add_profile] has appended is removed again by
    [del_profile] at its number, and by [del_profile(0)]: the list is
    back to what it was. *)
Theorem add_then_del s (kwargs : gmap string (pynum F)) prof :
  (length (lprofile (self s)) < 8)%nat ->
  Profile.__init__ (passed s kwargs) = inr prof ->
  let s1 := exec (add_profile kwargs) s in
  lprofile (self s1) = lprofile (self s) ++ [prof] /\
  del_profile (Z.of_nat (length (lprofile (self s))) + 1) s1 = (inr tt, s) /\
  del_profile 0 s1 = (inr tt, s).
Proof.
  intros Hl Hp s1. subst s1. unfold exec. rewrite add_profile_run.
  destruct (Z.ltb_spec (Z.of_nat (length (lprofile (self s)))) 8); [|lia].
  rewrite Hp. cbn [snd]. split; [done|].
  assert (Hs : forall l, l = lprofile (self s) ->
            mkState (with_lprofile (with_lprofile (self s) (lprofile (self s) ++ [prof])) l)
                    (ser s) (stdout s) = s).
  { intros l ->. by destruct s as [[] ? ?]. }
  split; rewrite del_profile_run; cbn [self ser stdout lprofile with_lprofile].
  - destruct (list_pop_in_range (lprofile (self s) ++ [prof])
                (Z.of_nat (length (lprofile (self s))) + 1 - 1)) as (x & _ & ->).
    { rewrite length_app. simpl. lia. }
    cbn. f_equal. apply Hs.
    replace (Z.to_nat _) with (length (lprofile (self s))) by lia.
    rewrite take_app_length.
    rewrite drop_app_ge by lia.
    replace (_ - _)%nat with 1%nat by lia. simpl. by rewrite app_nil_r.
  - destruct (list_pop_from_end (lprofile (self s) ++ [prof]) (0 - 1)) as (x & _ & ->).
    { rewrite length_app. simpl. lia. }
    cbn. f_equal. apply Hs.
    rewrite length_app. simpl.
    replace (Z.to_nat _) with (length (lprofile (self s))) by lia.
    rewrite take_app_length.
    rewrite drop_app_ge by lia.
    replace (_ - _)%nat with 1%nat by lia. simpl. by rewrite app_nil_r.
Qed.

(** X11: the numbers are not renewed by a deletion.  On a list numbered
    1 to [n], once a profile other than the last is deleted, the next
    profile added takes the number [n], which the old last profile still
    carries: two profiles of the list have the same number. *)
Theorem del_then_add_repeats_num s (index : Z) (kwargs : gmap string (pynum F)) prof :
  let l := lprofile (self s) in
  let n := length l in
  numbered l -> (n <= 8)%nat -> 1 <= index < Z.of_nat n ->
  let s1 := exec (del_profile index) s in
  Profile.__init__ (passed s1 kwargs) = inr prof ->
  let l2 := lprofile (self (exec (add_profile kwargs) s1)) in
  exists old,
    l2 !! (n - 2)%nat = Some old /\ l2 !! (n - 1)%nat = Some prof /\
    Profile.num old = PInt (Z.of_nat n) /\ Profile.num prof = PInt (Z.of_nat n).
Proof.
  intros l n Hnum Hn Hi s1 Hp l2.
  assert (Hs1 : lprofile (self s1) =
                take (Z.to_nat (index - 1)) l ++ drop (S (Z.to_nat (index - 1))) l).
  { subst s1. unfold exec. rewrite del_profile_run.
    destruct (list_pop_in_range l (index - 1)) as (x & _ & Hpop); [lia|].
    fold l. rewrite Hpop. done. }
  assert (Hlen1 : length (lprofile (self s1)) = (n - 1)%nat).
  { rewrite Hs1, length_app, length_take, length_drop. fold n. lia. }
  assert (Hl2 : l2 = lprofile (self s1) ++ [prof]).
  { subst l2. unfold exec. rewrite add_profile_run.
    destruct (Z.ltb_spec (Z.of_nat (length (lprofile (self s1)))) 8); [|lia].
    by rewrite Hp. }
  destruct (lookup_lt_is_Some_2 l (n - 1)) as [old Hold]; [lia|].
  exists old. rewrite Hl2. split; [|split; [|split]].
  - rewrite lookup_app_l by lia. rewrite Hs1.
    rewrite lookup_app_r by (rewrite length_take; lia).
    rewrite length_take, lookup_drop. rewrite <- Hold. f_equal. fold n. lia.
  - rewrite lookup_app_r by lia. rewrite Hlen1.
    by replace (n - 1 - (n - 1))%nat with 0%nat by lia.
  - rewrite (Hnum _ _ Hold). f_equal. lia.
  - rewrite (init_num _ _ (PInt (Z.of_nat (length (lprofile (self s1))) + 1)) Hp).
    + rewrite Hlen1. f_equal. lia.
    + unfold passed. apply lookup_insert_eq.
Qed.
End ProfileList.

Lemma add_profile_ignores_v_five :
  exists prof : Profile.Profile float,
    let s := Scenario.start Scenario.axis_x [] in
    let kwargs : gmap string (pynum float) := {[ "v" := PInt 5; "N" := PInt 2 ]} in
    Profile.__init__ (Axes.passed s kwargs) = inr prof /\
    Profile.vmax prof = default (PInt 15) (kwargs !! "vmax") /\
    Profile.aa prof = default (PInt 200) (kwargs !! "aa") /\
    Profile.ad prof = default (PInt 200) (kwargs !! "ad") /\
    Profile.dstep prof = default (PInt 12800) (kwargs !! "dstep") /\
    Profile.vs prof = default (PInt 0) (kwargs !! "vs") /\
    Profile.spr prof = default (PInt 4000) (kwargs !! "spr") /\
    Profile.N prof = default (PInt 100) (kwargs !! "N").
Proof.
  eexists. intros s kwargs. split; [vm_compute; reflexivity|].
  apply (add_profile_ignores_v s kwargs). vm_compute; reflexivity.
Defined.

Lemma add_then_del_first :
  exists prof : Profile.Profile float,
    Profile.__init__
      (Axes.passed (Scenario.start Scenario.axis_x []) Scenario.two_samples)
      = inr prof /\
    let s1 := Axes.exec (Axes.add_profile Scenario.two_samples)
                (Scenario.start Scenario.axis_x []) in
    Axes.lprofile (Axes.self s1) =
      Axes.lprofile (Axes.self (Scenario.start Scenario.axis_x [])) ++ [prof] /\
    Axes.del_profile
      (Z.of_nat (length (Axes.lprofile
                           (Axes.self (Scenario.start Scenario.axis_x [])))) + 1)
      s1 = (inr tt, Scenario.start Scenario.axis_x []) /\
    Axes.del_profile 0 s1 = (inr tt, Scenario.start Scenario.axis_x []).
Proof.
  eexists. split; [vm_compute; reflexivity|].
  refine (add_then_del (Scenario.start Scenario.axis_x []) Scenario.two_samples _ _ _).
  - vm_compute. lia.
  - vm_compute. reflexivity.
Defined.

Lemma del_then_add_repeats_num_two :
  exists prof old : Profile.Profile float,
    let s := Scenario.two_profiles in
    let s1 := Axes.exec (Axes.del_profile 1) s in
    let l2 := Axes.lprofile (Axes.self (Axes.exec (Axes.add_profile Scenario.two_samples) s1)) in
    Profile.__init__ (Axes.passed s1 Scenario.two_samples) = inr prof /\
    l2 !! (length (Axes.lprofile (Axes.self s)) - 2)%nat = Some old /\
    l2 !! (length (Axes.lprofile (Axes.self s)) - 1)%nat = Some prof /\
    Profile.num old = PInt (Z.of_nat (length (Axes.lprofile (Axes.self s)))) /\
    Profile.num prof = PInt (Z.of_nat (length (Axes.lprofile (Axes.self s)))).
Proof.
  eexists.
  match goal with |- exists old, let s := _ in let s1 := _ in let l2 := _ in
                       Profile.__init__ _ = inr ?p /\ _ =>
    destruct (del_then_add_repeats_num Scenario.two_profiles 1
                Scenario.two_samples p) as (old & Hold)
  end.
  - intros i q Hq. destruct i as [|[|i]]; vm_compute in Hq; [| |discriminate];
      injection Hq as <-; reflexivity.
  - vm_compute. lia.
  - vm_compute. split; [discriminate|reflexivity].
  - vm_compute. reflexivity.
  - exists old. intros s s1 l2. split; [vm_compute; reflexivity|exact Hold].
Defined.

(** * Homing, variables and profile moves *)

Section Homing.
Context {F : Type} `{FloatOps F}.
Implicit Types (s : Axes.state F) (a : Axes.Axes F).
Import Axes.

Lemma sent_nil s : sent s [] = s.
Proof.
  unfold sent. simpl. rewrite app_nil_r, drop_0. by destruct s as [? [] ?].
Qed.

(** A silent command, and the state it leaves. *)
Lemma com_silent {B} command s (k : list string -> Axes.M B) :
  (com command (ABool false) ≫= k) s = k (hd [] (pending (ser s))) (sent s [command]).
Proof.
  unfold mbind, M_bind. rewrite com_run. cbn [truthy]. unfold sent. cbn.
  rewrite app_nil_r. by destruct (pending (ser s)).
Qed.

Lemma sent_sent s c1 c2 : sent (sent s c1) c2 = sent s (c1 ++ c2).
Proof.
  unfold sent. cbn. rewrite fmap_app, <- app_assoc, length_app, drop_drop.
  done.
Qed.

Lemma kwdefaults_union (d : list (string * pyval F)) (kw : gmap string (pyval F)) :
  kwdefaults d kw = kw ∪ list_to_map d.
Proof.
  unfold kwdefaults. revert kw.
  induction d as [|[k y] d IH]; intros kw; simpl.
  - by rewrite (right_id_L ∅ (∪)).
  - rewrite IH. apply map_eq. intros j.
    destruct (kw !! k) as [x|] eqn:Hk.
    + rewrite !lookup_union. destruct (decide (k = j)) as [<-|Hne].
      * rewrite Hk, lookup_insert_eq. by destruct (list_to_map d !! k).
      * by rewrite lookup_insert_ne.
    + rewrite !lookup_union. destruct (decide (k = j)) as [<-|Hne].
      * rewrite Hk, !lookup_insert_eq. by destruct (list_to_map d !! k).
      * by rewrite !lookup_insert_ne.
Qed.

Lemma kwitem_defaults (kw : gmap string (pyval F)) k x :
  (list_to_map home_defaults : gmap string (pyval F)) !! k = Some x ->
  kwitem (kwdefaults home_defaults kw) k = inr (default x (kw !! k)).
Proof.
  intros Hd. unfold kwitem. rewrite kwdefaults_union, lookup_union, Hd.
  by destruct (kw !! k).
Qed.

Lemma home_set_run py_eval (kwargs : gmap string (pyval F)) s :
  let arg k d := default d (kwargs !! k) in
  home py_eval "set" kwargs s =
    match arg "edg" (VStr "+") with
    | VStr edg =>
        (inr tt,
         sent s ["HOME" +:+ val_str (arg "armed" (VNum (PInt 1))) +:+
                 "(" +:+ edg +:+ "," +:+ val_str (arg "typ" (VNum (PInt 0))) +:+
                 "," +:+ (if val_gt0 (arg "vel" (VNum (PInt 10)))
                          then "+" +:+ val_str (arg "vel" (VNum (PInt 10)))
                          else "-" +:+ val_str (arg "vel" (VNum (PInt 10)))) +:+
                 "," +:+ val_str (arg "acc" (VNum (PInt 10))) +:+
                 "," +:+ val_str (arg "mode" (VNum (PInt 0))) +:+ ")"])
    | VNum _ => (inl TypeError, s)
    end.
Proof.
  intros arg.
  unfold home. cbv zeta. cbn [String.eqb Ascii.eqb Bool.eqb].
  unfold home_set.
  unfold mbind at 1. unfold M_bind at 1. unfold mret at 1, M_ret at 1.
  unfold mbind at 1. unfold M_bind at 1.
  unfold mbind, M_bind, lift.
  rewrite (kwitem_defaults _ "vel" (VNum (PInt 10))) by reflexivity.
  rewrite (kwitem_defaults _ "armed" (VNum (PInt 1))) by reflexivity.
  rewrite (kwitem_defaults _ "edg" (VStr "+")) by reflexivity.
  fold (arg "edg" (VStr "+")).
  destruct (arg "edg" (VStr "+")) as [x|edg]; [done|]. cbn [val_text mret result_ret].
  rewrite (kwitem_defaults _ "typ" (VNum (PInt 0))) by reflexivity.
  rewrite (kwitem_defaults _ "acc" (VNum (PInt 10))) by reflexivity.
  rewrite (kwitem_defaults _ "mode" (VNum (PInt 0))) by reflexivity.
  rewrite com_run. cbn [truthy mret M_ret]. unfold sent. cbn.
  rewrite app_nil_r. subst arg. cbv beta.
  destruct (pending (ser s)); reflexivity.
Qed.

(** X15: [home('set', ...)] sends the single command
    [HOME<armed>(<edg>,<typ>,<vel>,<acc>,<mode>)] built from the caller's
    values or the defaults 1, [+], 0, 10, 10 and 0, when [edg] is a
    string, and raises [TypeError] with nothing sent when it is a number.
    The velocity is written with a plus sign when positive and else with
    a minus sign put before its own text. *)
Theorem home_set_command py_eval (kwargs : gmap string (pyval F)) s :
  let arg k d := default d (kwargs !! k) in
  home py_eval "set" kwargs s =
    match arg "edg" (VStr "+") with
    | VStr edg =>
        (inr tt,
         sent s ["HOME" +:+ val_str (arg "armed" (VNum (PInt 1))) +:+
                 "(" +:+ edg +:+ "," +:+ val_str (arg "typ" (VNum (PInt 0))) +:+
                 "," +:+ (if val_gt0 (arg "vel" (VNum (PInt 10)))
                          then "+" +:+ val_str (arg "vel" (VNum (PInt 10)))
                          else "-" +:+ val_str (arg "vel" (VNum (PInt 10)))) +:+
                 "," +:+ val_str (arg "acc" (VNum (PInt 10))) +:+
                 "," +:+ val_str (arg "mode" (VNum (PInt 0))) +:+ ")"])
    | VNum _ => (inl TypeError, s)
    end.
Proof. exact (home_set_run py_eval kwargs s). Qed.

(** X18: with a negative int as velocity and the other values left to
    their defaults, [home('set', vel=z)] sends the velocity with two
    minus signs: [HOME1(+,0,--<|z|>,10,0)]. *)
Theorem home_set_negative_velocity py_eval (z : Z) s :
  z < 0 ->
  home py_eval "set" {[ "vel" := VNum (PInt z) ]} s =
    (inr tt, sent s ["HOME1(+,0,--" +:+ str_int (- z) +:+ ",10,0)"]).
Proof.
  intros Hz. rewrite home_set_run. destruct z as [|p|p]; [lia..|].
  reflexivity.
Qed.

(** X16: [home] with a selector other than ['get'], ['set'] and ['go']
    does nothing at all: no command, no output, no error. *)
Theorem home_other_selector py_eval cmd (kwargs : gmap string (pyval F)) s :
  cmd <> "get" -> cmd <> "set" -> cmd <> "go" ->
  home py_eval cmd kwargs s = (inr tt, s).
Proof.
  intros Hget Hset Hgo. unfold home. cbv zeta.
  destruct (String.eqb_spec cmd "get"); [done|].
  destruct (String.eqb_spec cmd "set"); [done|].
  destruct (String.eqb_spec cmd "go"); [done|]. reflexivity.
Qed.

(** X27: [home('get')] answered by fewer than two lines, or by none (a
    timeout): the command [HOME] was sent, nothing is printed, and the
    call raises [IndexError]. *)
Theorem home_get_short_reply py_eval (kwargs : gmap string (pyval F)) s :
  hd [] (pending (ser s)) !! 1%nat = None ->
  home py_eval "get" kwargs s = (inl IndexError, sent s ["HOME"]).
Proof.
  intros Hr. unfold home. cbv zeta. cbn [String.eqb Ascii.eqb Bool.eqb].
  unfold mbind at 1. unfold M_bind at 1. unfold home_get.
  rewrite com_silent. unfold mbind at 1. unfold M_bind at 1. unfold lift at 1.
  unfold list_item. change (Z.to_nat 1) with 1%nat. by rewrite Hr.
Qed.

Lemma home_go_run py_eval (kwargs : gmap string (pyval F)) s :
  home py_eval "go" kwargs s = (inr tt, sent s ["HOME1"; "ARM1"; "GH"]).
Proof.
  unfold home. cbv zeta. cbn [String.eqb Ascii.eqb Bool.eqb].
  unfold mbind at 1. unfold M_bind at 1. unfold mret at 1, M_ret at 1.
  unfold mbind at 1. unfold M_bind at 1. unfold mret at 1, M_ret at 1.
  unfold home_go. rewrite !com_silent, !sent_sent. reflexivity.
Qed.

Lemma homeor_run s :
  homeor s =
    (inr tt, sent s ["HOME" +:+ py_str (_id (self s));
                     "ARM" +:+ py_str (_id (self s)); "GH"]).
Proof.
  unfold homeor. unfold mbind at 1. unfold M_bind at 1. unfold get_self at 1.
  cbv zeta. rewrite !com_silent, !sent_sent. reflexivity.
Qed.

Lemma string_app_inv_l (a b c : string) : a +:+ b = a +:+ c -> b = c.
Proof. induction a as [|x a IH]; simpl; [done|]. intros [= Heq]. auto. Qed.

Lemma string_length_app (a b : string) :
  String.length (a +:+ b) = (String.length a + String.length b)%nat.
Proof. induction a as [|x a IH]; simpl; [done|]. by rewrite IH. Qed.

Lemma string_app_inv_r (a b c : string) : a +:+ c = b +:+ c -> a = b.
Proof.
  revert b. induction a as [|x a IH]; intros [|y b] Heq; simpl in Heq.
  - done.
  - apply (f_equal String.length) in Heq.
    rewrite !string_length_app in Heq. simpl in Heq.
    rewrite ?string_length_app in Heq. lia.
  - apply (f_equal String.length) in Heq.
    rewrite !string_length_app in Heq. simpl in Heq.
    rewrite ?string_length_app in Heq. lia.
  - injection Heq as -> Heq. f_equal. by apply IH.
Qed.

(** X17: [home('go')] names axis 1 in its commands whatever the axis,
    [homeor()] names the axis itself: both send three commands and never
    raise, and they send the same ones exactly when the id prints as
    [1]. *)
Theorem home_go_and_homeor py_eval (kwargs : gmap string (pyval F)) s :
  home py_eval "go" kwargs s = (inr tt, sent s ["HOME1"; "ARM1"; "GH"]) /\
  homeor s =
    (inr tt, sent s ["HOME" +:+ py_str (_id (self s));
                     "ARM" +:+ py_str (_id (self s)); "GH"]) /\
  (home py_eval "go" kwargs s = homeor s <-> py_str (_id (self s)) = "1").
Proof.
  split; [apply home_go_run|]. split; [apply homeor_run|].
  rewrite home_go_run, homeor_run. split.
  - intros Heq. apply (f_equal (fun r => written (ser r.2))) in Heq.
    cbn in Heq. apply app_inv_head in Heq. injection Heq as Hw _.
    unfold frame in Hw. apply string_app_inv_l in Hw.
    apply string_app_inv_r in Hw. by injection Hw.
  - intros ->. reflexivity.
Qed.

(** X14: [mvpro] sends [USE(<slot>)] and [G] and never raises.  Unlike
    [set_profile] it does not look at the profile list: for a slot beyond
    the list [set_profile] raises with nothing sent, and [mvpro] still
    sends both commands. *)
Theorem mvpro_unchecked (id_pro : pynum F) s :
  py_le id_pro (PInt (Z.of_nat (length (lprofile (self s))))) = false ->
  set_profile id_pro s = (inl (AssertionError "profile number not defined"), s)
  /\ mvpro id_pro s =
       (inr tt, sent s ["USE(" +:+ py_str id_pro +:+ ")"; "G"]).
Proof.
  intros Hle. split.
  - by rewrite set_profile_run, Hle.
  - unfold mvpro. rewrite !com_silent, !sent_sent. reflexivity.
Qed.

Lemma for_cons {A} (x : A) xs (body : A -> Axes.M unit) s :
  for_ (x :: xs) body s =
    match body x s with
    | (inl e, s') => (inl e, s')
    | (inr _, s') => for_ xs body s'
    end.
Proof. reflexivity. Qed.

Lemma getvar_loop vars : forall descs replies lines rest s,
  Forall2 (fun var d => svar !! var = Some d) vars descs ->
  Forall2 (fun (r : list string) l => r !! 1%nat = Some l) replies lines ->
  length replies = length vars ->
  pending (ser s) = replies ++ rest ->
  for_ vars (fun var =>
    st ← com (read_cmd var) (ABool false);
    desc ← lift (match svar !! var with
                 | Some d => mret d
                 | None => raise (KeyError (KStr var))
                 end);
    print2 desc (list_item st 1)) s =
  (inr tt,
   mkState (self s)
     (mkSerial (written (ser s) ++ (frame s ∘ read_cmd <$> vars)) rest)
     (stdout s ++ zip_with (fun d l => d +:+ soft_space d +:+ l) descs lines)).
Proof.
  induction vars as [|var vars IH];
    intros descs replies lines rest s Hd Hl Hlen Hp.
  - destruct replies; [|done]. inversion Hd; subst. simpl in *.
    rewrite !app_nil_r. destruct s as [? [] ?]; simpl in *. by subst.
  - destruct replies as [|r replies]; [done|].
    inversion Hd as [|? d ? descs' Hvar Hd']; subst.
    inversion Hl as [|? l ? lines' Hr Hl']; subst.
    rewrite for_cons, com_silent. replace (hd [] (pending (ser s))) with r
      by (by rewrite Hp).
    unfold mbind at 1. unfold M_bind at 1. unfold lift at 1. rewrite Hvar.
    cbn [mret result_ret]. unfold list_item. change (Z.to_nat 1) with 1%nat.
    rewrite Hr. cbn [mret result_ret print2 print].
    erewrite IH; [| exact Hd' | exact Hl' | by injection Hlen
                  | cbn; rewrite Hp; reflexivity ].
    unfold frame.
    cbn. rewrite <- !app_assoc. reflexivity.
Qed.

(** X19: [getvar] on variables that the table [svar] knows, each answered
    by a reply of two lines or more: it sends [R(<var>)] for each in
    order, takes one reply for each, and prints for each one line made of
    the table's description, a space, and the second line of the reply.
    An empty [lvar] stands for all the keys. *)
Theorem getvar_prints keys lvar descs replies lines rest s :
  let vars := match lvar with [] => keys | _ => lvar end in
  Forall2 (fun var d => svar !! var = Some d) vars descs ->
  Forall2 (fun (r : list string) l => r !! 1%nat = Some l) replies lines ->
  length replies = length vars ->
  pending (ser s) = replies ++ rest ->
  getvar keys lvar s =
    (inr tt,
     mkState (self s)
       (mkSerial (written (ser s) ++ (frame s ∘ read_cmd <$> vars)) rest)
       (stdout s ++ zip_with (fun d l => d +:+ soft_space d +:+ l) descs lines)).
Proof.
  intros vars Hd Hl Hlen Hp. unfold getvar. fold vars.
  by apply getvar_loop with (replies := replies).
Qed.

(** X20: [getvar] looks the variable up in its table only after it has
    sent the read command: for a variable that the table does not know
    it raises [KeyError] with [R(<var>)] sent, one reply taken and
    nothing printed, and the variables after it are not read. *)
Theorem getvar_unknown keys var lvar s :
  svar !! var = None ->
  getvar keys (var :: lvar) s = (inl (KeyError (KStr var)), sent s [read_cmd var]).
Proof.
  intros Hvar. unfold getvar. rewrite for_cons, com_silent.
  unfold mbind, M_bind, lift. by rewrite Hvar.
Qed.

(** X21: a known variable answered by fewer than two lines: [getvar]
    raises [IndexError] when it comes to the second line, after the
    description alone was written by the print statement. *)
Theorem getvar_short_reply keys var desc lvar s :
  svar !! var = Some desc ->
  hd [] (pending (ser s)) !! 1%nat = None ->
  getvar keys (var :: lvar) s = (inl IndexError, told s [read_cmd var] [desc]).
Proof.
  intros Hvar Hr. unfold getvar. rewrite for_cons, com_silent.
  unfold mbind at 1. unfold M_bind at 1. unfold lift at 1. rewrite Hvar.
  cbn [mret result_ret]. unfold list_item. change (Z.to_nat 1) with 1%nat.
  rewrite Hr. reflexivity.
Qed.
End Homing.

(** * The register read *)

Section ReplyText.
Implicit Types (c sep : ascii) (g J : string) (d : nat -> nat).

Lemma string_app_cons x (a b : string) : String x a +:+ b = String x (a +:+ b).
Proof. reflexivity. Qed.

Lemma string_app_nil (b : string) : "" +:+ b = b.
Proof. reflexivity. Qed.

Lemma string_app_empty_r (a : string) : a +:+ "" = a.
Proof.
  induction a as [|x a IH]; [done|]. by rewrite string_app_cons, IH.
Qed.

Lemma contains_app c a b :
  contains c (a +:+ b) = contains c a || contains c b.
Proof.
  induction a as [|x a IH]; [done|].
  rewrite string_app_cons. cbn [contains]. by rewrite IH, orb_assoc.
Qed.

Lemma contains_cons_false c x s :
  contains c (String x s) = false ->
  Ascii.eqb x c = false /\ contains c s = false.
Proof. simpl. by intros [? ?]%orb_false_elim. Qed.

Lemma replace_skips c old new J t :
  contains c J = false ->
  replace_go (String c old) new 0 (J +:+ t) =
    J +:+ replace_go (String c old) new 0 t.
Proof.
  induction J as [|x J IH]; intros HJ; [reflexivity|].
  apply contains_cons_false in HJ as [Hx HJ].
  rewrite !string_app_cons. cbn [replace_go String.prefix].
  destruct (ascii_dec c x) as [<-|_]; [by rewrite Ascii.eqb_refl in Hx|].
  by rewrite IH.
Qed.

Lemma replace_star J :
  contains "*" J = false ->
  replace_go "*" "" 0 (J +:+ "*" +:+ crlf) = J +:+ crlf.
Proof. intros HJ. by rewrite replace_skips. Qed.

Lemma replace_first c new X :
  replace_go (String c "") new 0 (String c "" +:+ X) =
    new +:+ replace_go (String c "") new 0 X.
Proof.
  rewrite string_app_cons, string_app_nil. cbn [replace_go String.prefix].
  destruct (ascii_dec c c) as [_|?]; [|done]. by destruct X.
Qed.

Lemma replace_crlf J :
  contains "013" J = false -> replace_go crlf "" 0 (J +:+ crlf) = J.
Proof.
  intros HJ. unfold crlf at 1. rewrite replace_skips by done.
  change (replace_go _ "" 0 crlf) with "". apply string_app_empty_r.
Qed.

Lemma split_field sep g rest :
  contains sep g = false ->
  split sep (g +:+ String sep rest) = g :: split sep rest.
Proof.
  induction g as [|x g IH]; intros Hg.
  - rewrite string_app_nil. cbn [split]. by rewrite Ascii.eqb_refl.
  - apply contains_cons_false in Hg as [Hx Hg].
    rewrite string_app_cons. cbn [split]. by rewrite Hx, IH.
Qed.

Lemma split_last sep g : contains sep g = false -> split sep g = [g].
Proof.
  induction g as [|x g IH]; intros Hg; [done|].
  apply contains_cons_false in Hg as [Hx Hg].
  cbn [split]. by rewrite Hx, IH.
Qed.

Lemma split_join sep g groups :
  Forall (fun g => contains sep g = false) (g :: groups) ->
  split sep (Reply.join (String sep "") (g :: groups)) = g :: groups.
Proof.
  revert g. induction groups as [|g' groups IH]; intros g Hall.
  - apply split_last. by inversion Hall.
  - inversion Hall as [|? ? Hg Hall']; subst.
    change (Reply.join (String sep "") (g :: g' :: groups))
      with (g +:+ String sep (Reply.join (String sep "") (g' :: groups))).
    by rewrite split_field, IH.
Qed.

Lemma contains_join c (sep : string) groups :
  contains c sep = false ->
  Forall (fun g => contains c g = false) groups ->
  contains c (Reply.join sep groups) = false.
Proof.
  intros Hsep. induction groups as [|g groups IH]; intros Hall; [done|].
  inversion Hall as [|? ? Hg Hall']; subst.
  destruct groups as [|g' groups]; [done|].
  change (Reply.join sep (g :: g' :: groups))
    with (g +:+ sep +:+ Reply.join sep (g' :: groups)).
  by rewrite !contains_app, Hg, Hsep, IH.
Qed.

Lemma is_digit_digit_char n : (n <= 9)%nat -> is_digit (Reply.digit_char n) = true.
Proof.
  intros Hn. unfold is_digit, Reply.digit_char.
  rewrite nat_ascii_embedding by lia. cbv zeta.
  apply andb_true_intro. split; apply Nat.leb_le; lia.
Qed.

Lemma digit_char_eqb n c :
  (n <= 9)%nat -> is_digit c = false -> Ascii.eqb (Reply.digit_char n) c = false.
Proof.
  intros Hn Hc. destruct (Ascii.eqb_spec (Reply.digit_char n) c) as [<-|]; [|done].
  by rewrite is_digit_digit_char in Hc.
Qed.

Lemma contains_group d k c :
  (forall i, (d i <= 9)%nat) -> is_digit c = false ->
  contains c (Reply.group d k) = false.
Proof.
  intros Hd Hc. unfold Reply.group. cbn [seq fmap list_fmap string_of_list_ascii contains].
  by rewrite !digit_char_eqb.
Qed.

Lemma all_groups d c (ks : list nat) :
  (forall i, (d i <= 9)%nat) -> is_digit c = false ->
  Forall (fun g => contains c g = false) (Reply.group d <$> ks).
Proof.
  intros Hd Hc. apply Forall_fmap, Forall_forall. intros k _.
  by apply contains_group.
Qed.

(** What [reg] makes of a well-formed reply: its eight groups. *)
Lemma decode_encode d :
  (forall i, (d i <= 9)%nat) ->
  split "_" (replace crlf "" (replace "*" "" (Reply.encode d)))
    = Reply.group d <$> seq 0 8.
Proof.
  intros Hd. unfold Reply.encode, replace.
  set (J := Reply.join "_" (Reply.group d <$> seq 0 8)).
  assert (HJ : forall c, is_digit c = false -> contains c "_" = false ->
                         contains c J = false).
  { intros c Hc Hsep. apply contains_join; [done|]. by apply all_groups. }
  pose proof (HJ "*"%char eq_refl eq_refl) as Hstar.
  pose proof (HJ "013"%char eq_refl eq_refl) as Hcr.
  rewrite replace_first, replace_star by done.
  rewrite string_app_nil, replace_crlf by done.
  subst J. cbn [seq fmap list_fmap].
  apply (split_join "_"). by apply (all_groups d "_" (seq 0 8)).
Qed.

Lemma get_group d k l :
  (l < 4)%nat ->
  String.get l (Reply.group d k) = Some (Reply.digit_char (d (4 * k + l)%nat)).
Proof.
  intros Hl. do 4 (destruct l as [|l]; [reflexivity|]). lia.
Qed.

Lemma eval_digit_char k l n :
  (n <= 9)%nat -> eval_char k l (Reply.digit_char n) = inr (Z.of_nat n).
Proof.
  intros Hn. unfold eval_char. rewrite is_digit_digit_char by done.
  unfold Reply.digit_char. rewrite nat_ascii_embedding by lia.
  cbn. f_equal. lia.
Qed.

Lemma stored_length old d n :
  (n <= length old)%nat -> length (Reply.stored old d n) = length old.
Proof.
  intros Hn. unfold Reply.stored.
  rewrite length_app, length_fmap, length_seq, length_drop. lia.
Qed.

Lemma stored_insert old d n :
  (n < length old)%nat ->
  <[n := Z.of_nat (d n)]> (Reply.stored old d n) = Reply.stored old d (S n).
Proof.
  intros Hn. unfold Reply.stored.
  destruct (lookup_lt_is_Some_2 old n Hn) as [x Hx].
  rewrite (drop_S _ _ _ Hx), seq_S, fmap_app, <- app_assoc. cbn [fmap list_fmap app].
  rewrite insert_app_r_alt by (rewrite length_fmap, length_seq; lia).
  rewrite length_fmap, length_seq, Nat.sub_diag. reflexivity.
Qed.

Lemma stored_all old d : Reply.stored old d (length old) = Z.of_nat ∘ d <$> seq 0 (length old).
Proof. unfold Reply.stored. by rewrite drop_all, app_nil_r. Qed.

Lemma described_S table d n :
  Reply.described table d (S n) =
    Reply.described table d n ++
      (if (d n =? 0)%nat then []
       else match table !! (Z.of_nat n + 1) with Some x => [x] | None => [] end).
Proof.
  unfold Reply.described. rewrite seq_S, omap_app. f_equal.
  cbn [omap list_omap Nat.add].
  destruct (d n =? 0)%nat; [done|]. by destruct (table !! _).
Qed.
End ReplyText.

Section RegisterRead.
Context {F : Type} `{FloatOps F}.
Implicit Types (s : Axes.state F) (a : Axes.Axes F).
Import Axes.
Local Abbreviation M := (@Axes.M F).

Lemma for_ext {A} (xs : list A) (body body' : A -> M unit) s :
  (forall x s, body x s = body' x s) -> for_ xs body s = for_ xs body' s.
Proof.
  intros Hb. revert s. induction xs as [|x xs IH]; intros s; [done|].
  rewrite !for_cons, Hb. destruct (body' x s) as [[e|u] s']; [done|apply IH].
Qed.

Lemma for_fmap {A B} (f : A -> B) xs (body : B -> M unit) s :
  for_ (f <$> xs) body s = for_ xs (fun x => body (f x)) s.
Proof.
  revert s. induction xs as [|x xs IH]; intros s; [done|].
  cbn [fmap list_fmap]. rewrite !for_cons.
  destruct (body (f x) s) as [[e|u] s']; [done|apply IH].
Qed.

Lemma for_app {A} (xs ys : list A) (body : A -> M unit) s :
  for_ (xs ++ ys) body s =
    match for_ xs body s with
    | (inl e, s') => (inl e, s')
    | (inr _, s') => for_ ys body s'
    end.
Proof.
  revert s. induction xs as [|x xs IH]; intros s; [done|].
  cbn [app]. rewrite !for_cons.
  destruct (body x s) as [[e|u] s']; [done|apply IH].
Qed.

(** The double loop of [reg] as one loop over the pairs. *)
Lemma for_nested {A B} (xs : list A) (ys : list B) (body : A -> B -> M unit) s :
  for_ xs (fun k => for_ ys (body k)) s =
    for_ (list_prod xs ys) (fun p => body p.1 p.2) s.
Proof.
  revert s. induction xs as [|x xs IH]; intros s; [done|].
  cbn [list_prod]. rewrite for_cons, for_app.
  change (map (fun y => (x, y)) ys) with ((fun y => (x, y)) <$> ys).
  rewrite for_fmap. cbn [fst snd].
  destruct (for_ ys _ s) as [[e|u] s']; [done|apply IH].
Qed.

Lemma for_seq_ok (body : nat -> M unit) (f : nat -> state F) m : forall lo,
  (forall i, (lo <= i < lo + m)%nat -> body i (f i) = (inr tt, f (S i))) ->
  for_ (seq lo m) body (f lo) = (inr tt, f (lo + m)%nat).
Proof.
  induction m as [|m IH]; intros lo Hstep.
  - by rewrite Nat.add_0_r.
  - cbn [seq]. rewrite for_cons, Hstep by lia.
    rewrite IH by (intros; apply Hstep; lia). f_equal. f_equal. lia.
Qed.

Lemma for_seq_fail (body : nat -> M unit) (f : nat -> state F) m j e s' :
  forall lo,
  (lo <= j < lo + m)%nat ->
  (forall i, (lo <= i < j)%nat -> body i (f i) = (inr tt, f (S i))) ->
  body j (f j) = (inl e, s') ->
  for_ (seq lo m) body (f lo) = (inl e, s').
Proof.
  induction m as [|m IH]; intros lo Hj Hstep Hfail; [lia|].
  cbn [seq]. rewrite for_cons.
  destruct (decide (lo = j)) as [->|Hne]; [by rewrite Hfail|].
  rewrite Hstep by lia. apply IH; [lia| |done].
  intros; apply Hstep; lia.
Qed.

Lemma store_bit_run get set table (i val : Z) s :
  store_bit get set table i val s =
    match list_setitem (get (self s)) i val with
    | inl e => (inl e, s)
    | inr r =>
        if val =? 0 then (inr tt, mkState (set (self s) r) (ser s) (stdout s))
        else match table !! (i + 1) with
             | Some x =>
                 (inr tt, mkState (set (self s) r) (ser s) (stdout s ++ [x]))
             | None =>
                 (inl (KeyError (KInt (i + 1))),
                  mkState (set (self s) r) (ser s) (stdout s))
             end
    end.
Proof.
  unfold store_bit, mbind, M_bind, get_self, set_self, lift, dict_item, print.
  destruct (list_setitem _ _ _) as [e|r]; [done|]. cbn.
  destruct (val =? 0); [done|]. by destruct (table !! _).
Qed.

Lemma register_lens typ get set table :
  register typ = Some (get, set, table) ->
  (forall a x, get (set a x) = x) /\
  (forall a x y, set (set a x) y = set a y) /\
  (forall a, set a (get a) = a).
Proof.
  unfold register. intros Hreg.
  destruct (String.eqb typ "ST"); [|destruct (String.eqb typ "UF");
    [|destruct (String.eqb typ "DF"); [|done]]];
  injection Hreg as <- <- <-; (split; [|split]); by intros [].
Qed.

Lemma M_bind_ret (m : M unit) s : (_ ← m; mret tt) s = m s.
Proof. unfold mbind, M_bind. by destruct (m s) as [[e|[]] s']. Qed.

Lemma bind_lift {A B} (r : result A) (k : A -> M B) s :
  (lift r ≫= k) s = match r with inl e => (inl e, s) | inr x => k x s end.
Proof. unfold mbind, M_bind, lift. by destruct r. Qed.

(** [reg] after its exchange: one loop over the 32 digits. *)
Lemma reg_run typ s :
  reg typ s =
    match list_item (hd [] (pending (ser s))) 1 with
    | inl e => (inl e, told s ["R"] [frame s "R"])
    | inr line =>
        for_ (seq 0 32) (fun i =>
          g ← lift (list_item
                      (split "_" (replace crlf "" (replace "*" "" line)))
                      (Z.of_nat (i / 4)));
          c ← lift (str_item g (Z.of_nat (i mod 4)));
          val ← lift (eval_char (Z.of_nat (i / 4)) (Z.of_nat (i mod 4)) c);
          match register typ with
          | Some (get, set, table) => store_bit get set table (Z.of_nat i) val
          | None => mret tt
          end)
          (told s ["R"] [frame s "R"])
    end.
Proof.
  unfold reg. unfold mbind at 1. unfold M_bind at 1. rewrite com_run.
  unfold mbind at 1. unfold M_bind at 1. unfold lift at 1.
  replace (mkState (self s) _ _) with (told s ["R"] [frame s "R"]).
  2:{ unfold told. cbn. by destruct (pending (ser s)). }
  destruct (list_item _ 1) as [e|line]; [done|].
  rewrite for_nested.
  change (list_prod (range 8) (range 4))
    with ((fun i => (Z.of_nat (i / 4), Z.of_nat (i mod 4))%nat) <$> seq 0 32).
  rewrite for_fmap. cbn [fst snd]. apply for_ext. intros i s'.
  rewrite !bind_lift. destruct (list_item _ _) as [e|g]; [done|].
  rewrite !bind_lift. destruct (str_item _ _) as [e|c]; [done|].
  rewrite !bind_lift. destruct (eval_char _ _ _) as [e|val]; [done|].
  replace (Z.of_nat (i / 4) * 4 + Z.of_nat (i mod 4)) with (Z.of_nat i).
  2:{ rewrite (Nat.div_mod_eq i 4) at 1. lia. }
  unfold register.
  destruct (String.eqb typ "ST") eqn:HST.
  { apply String.eqb_eq in HST as ->. cbn [String.eqb Ascii.eqb Bool.eqb].
    unfold mbind, M_bind. destruct (store_bit _ _ _ _ _ s') as [[e|[]] s'']; done. }
  destruct (String.eqb typ "UF") eqn:HUF.
  { apply String.eqb_eq in HUF as ->. cbn [String.eqb Ascii.eqb Bool.eqb].
    unfold mbind, M_bind. cbn [mret M_ret].
    destruct (store_bit _ _ _ _ _ s') as [[e|[]] s'']; done. }
  destruct (String.eqb typ "DF") eqn:HDF; reflexivity.
Qed.

Section Decode.
Variables (typ : string) (get : Axes F -> list Z)
  (set : Axes F -> list Z -> Axes F) (table : gmap Z string)
  (d : nat -> nat) (s : state F).
Hypothesis Hreg : register typ = Some (get, set, table).
Hypothesis Hlen : length (get (self s)) = 32%nat.
Hypothesis Hd : forall i, (d i <= 9)%nat.

Local Abbreviation f n :=
  (Reply.outcome s set (Reply.stored (get (self s)) d n) (Reply.described table d n)).

Lemma reg_digit i :
  (i < 32)%nat ->
  (g ← lift (list_item (Reply.group d <$> seq 0 8) (Z.of_nat (i / 4)));
   c ← lift (str_item g (Z.of_nat (i mod 4)));
   val ← lift (eval_char (Z.of_nat (i / 4)) (Z.of_nat (i mod 4)) c);
   match register typ with
   | Some (get, set, table) => store_bit get set table (Z.of_nat i) val
   | None => mret tt
   end) (f i) =
  if (d i =? 0)%nat then (inr tt, f (S i))
  else match table !! (Z.of_nat i + 1) with
       | Some x => (inr tt, f (S i))
       | None =>
           (inl (KeyError (KInt (Z.of_nat i + 1))),
            Reply.outcome s set (Reply.stored (get (self s)) d (S i))
                    (Reply.described table d i))
       end.
Proof.
  intros Hi. destruct (register_lens _ _ _ _ Hreg) as (Hgs & Hss & Hsg).
  assert (Hk : (i / 4 < 8)%nat) by (apply Nat.Div0.div_lt_upper_bound; lia).
  assert (Hl : (i mod 4 < 4)%nat) by (apply Nat.mod_upper_bound; lia).
  rewrite bind_lift.
  unfold list_item. rewrite Nat2Z.id, list_lookup_fmap, lookup_seq_lt by done.
  cbn [fmap option_fmap option_map mret result_ret].
  rewrite bind_lift.
  unfold str_item. rewrite Nat2Z.id, get_group by done.
  cbn [mret result_ret].
  replace (4 * (0 + i / 4) + i mod 4)%nat with i
    by (rewrite (Nat.div_mod_eq i 4) at 1; lia).
  rewrite bind_lift.
  rewrite eval_digit_char by done. rewrite Hreg, store_bit_run.
  unfold Reply.outcome. cbn [self ser stdout].
  rewrite Hgs. unfold list_setitem. rewrite Nat2Z.id.
  rewrite stored_length by lia. rewrite Hlen.
  destruct (Nat.ltb_spec i 32) as [_|?]; [|lia].
  cbn [mret result_ret]. rewrite stored_insert by lia. rewrite !Hss.
  rewrite described_S.
  destruct (Nat.eqb_spec (d i) 0) as [Hz|Hnz].
  - rewrite Hz. cbn [Z.of_nat Z.eqb]. by rewrite app_nil_r.
  - destruct (Z.eqb_spec (Z.of_nat (d i)) 0) as [?|_]; [lia|].
    destruct (table !! _) as [x|]; [|done].
    by rewrite <- app_assoc.
Qed.

Lemma outcome_start :
  told s ["R"] [frame s "R"] = f 0%nat.
Proof.
  destruct (register_lens _ _ _ _ Hreg) as (Hgs & Hss & Hsg).
  unfold told, Reply.outcome, Reply.stored, Reply.described. cbn.
  rewrite drop_0, Hsg. by destruct (pending (ser s)).
Qed.

Lemma reg_loop_ok :
  (forall i, (i < 32)%nat -> d i <> 0%nat ->
             is_Some (table !! (Z.of_nat i + 1))) ->
  for_ (seq 0 32) (fun i =>
    g ← lift (list_item (Reply.group d <$> seq 0 8) (Z.of_nat (i / 4)));
    c ← lift (str_item g (Z.of_nat (i mod 4)));
    val ← lift (eval_char (Z.of_nat (i / 4)) (Z.of_nat (i mod 4)) c);
    match register typ with
    | Some (get, set, table) => store_bit get set table (Z.of_nat i) val
    | None => mret tt
    end) (f 0%nat) =
  (inr tt, Reply.outcome s set (Z.of_nat ∘ d <$> seq 0 32) (Reply.described table d 32)).
Proof.
  intros Hdesc.
  rewrite (for_seq_ok _ (fun n => f n) 32 0).
  - cbn [Nat.add]. by rewrite <- Hlen, stored_all.
  - intros i Hi. rewrite reg_digit by lia.
    destruct (Nat.eqb_spec (d i) 0) as [|Hnz]; [done|].
    by destruct (Hdesc i ltac:(lia) Hnz) as [x ->].
Qed.

Lemma reg_loop_fail j :
  (j < 32)%nat -> d j <> 0%nat -> table !! (Z.of_nat j + 1) = None ->
  (forall i, (i < j)%nat -> d i <> 0%nat ->
             is_Some (table !! (Z.of_nat i + 1))) ->
  for_ (seq 0 32) (fun i =>
    g ← lift (list_item (Reply.group d <$> seq 0 8) (Z.of_nat (i / 4)));
    c ← lift (str_item g (Z.of_nat (i mod 4)));
    val ← lift (eval_char (Z.of_nat (i / 4)) (Z.of_nat (i mod 4)) c);
    match register typ with
    | Some (get, set, table) => store_bit get set table (Z.of_nat i) val
    | None => mret tt
    end) (f 0%nat) =
  (inl (KeyError (KInt (Z.of_nat j + 1))),
   Reply.outcome s set (Reply.stored (get (self s)) d (S j)) (Reply.described table d j)).
Proof.
  intros Hj Hnz Hnone Hdesc.
  apply (for_seq_fail _ (fun n => f n) 32 j _ _ 0); [lia| |].
  - intros i Hi. rewrite reg_digit by lia.
    destruct (Nat.eqb_spec (d i) 0) as [|Hnz']; [done|].
    by destruct (Hdesc i ltac:(lia) Hnz') as [x ->].
  - rewrite reg_digit by lia.
    destruct (Nat.eqb_spec (d j) 0) as [|_]; [done|]. by rewrite Hnone.
Qed.
End Decode.

Lemma reg_reply typ (l0 : string) d ls rest s :
  (forall i, (d i <= 9)%nat) ->
  pending (ser s) = (l0 :: Reply.encode d :: ls) :: rest ->
  reg typ s =
    for_ (seq 0 32) (fun i =>
      g ← lift (list_item (Reply.group d <$> seq 0 8) (Z.of_nat (i / 4)));
      c ← lift (str_item g (Z.of_nat (i mod 4)));
      val ← lift (eval_char (Z.of_nat (i / 4)) (Z.of_nat (i mod 4)) c);
      match register typ with
      | Some (get, set, table) => store_bit get set table (Z.of_nat i) val
      | None => mret tt
      end) (told s ["R"] [frame s "R"]).
Proof.
  intros Hd Hp. rewrite reg_run, Hp. cbn [hd]. unfold list_item.
  change (Z.to_nat 1) with 1%nat. cbn [lookup list_lookup mret result_ret].
  by rewrite decode_encode.
Qed.

(** X22: the register read decodes the reply.  For [typ] one of ST, UF
    and DF, a register of 32 entries and a reply whose second line
    carries the 32 digits [d 0 .. d 31] in eight groups of four between
    stars, [reg] returns with entry [i] of the register equal to [d i]
    for every [i], and has printed, after the frame, the description of
    code [i+1] for each digit that is not zero, in order -- provided the
    table describes every such code. *)
Theorem reg_decodes typ get set table d (l0 : string) ls rest s :
  register typ = Some (get, set, table) ->
  length (get (self s)) = 32%nat ->
  (forall i, (d i <= 9)%nat) ->
  (forall i, (i < 32)%nat -> d i <> 0%nat ->
             is_Some (table !! (Z.of_nat i + 1))) ->
  pending (ser s) = (l0 :: Reply.encode d :: ls) :: rest ->
  reg typ s =
    (inr tt,
     Reply.outcome s set (Z.of_nat ∘ d <$> seq 0 32) (Reply.described table d 32)).
Proof.
  intros Hreg Hlen Hd Hdesc Hp.
  rewrite (reg_reply _ _ _ _ _ _ Hd Hp), (outcome_start _ _ _ _ d _ Hreg).
  by apply reg_loop_ok.
Qed.

(** X23: a digit that is set and whose code the table does not describe
    stops the read.  At the first such digit [j], [reg] raises
    [KeyError] for the code [j+1]; the register then holds the digits up
    to and including [j] and its old entries after it, and the
    descriptions of the digits before [j] are printed. *)
Theorem reg_undescribed typ get set table d (l0 : string) ls rest s j :
  register typ = Some (get, set, table) ->
  length (get (self s)) = 32%nat ->
  (forall i, (d i <= 9)%nat) ->
  (j < 32)%nat -> d j <> 0%nat -> table !! (Z.of_nat j + 1) = None ->
  (forall i, (i < j)%nat -> d i <> 0%nat ->
             is_Some (table !! (Z.of_nat i + 1))) ->
  pending (ser s) = (l0 :: Reply.encode d :: ls) :: rest ->
  reg typ s =
    (inl (KeyError (KInt (Z.of_nat j + 1))),
     Reply.outcome s set (Reply.stored (get (self s)) d (S j)) (Reply.described table d j)).
Proof.
  intros Hreg Hlen Hd Hj Hnz Hnone Hdesc Hp.
  rewrite (reg_reply _ _ _ _ _ _ Hd Hp), (outcome_start _ _ _ _ d _ Hreg).
  by apply reg_loop_fail.
Qed.

(** X24: a reply of fewer than two lines, or none at all (a timeout):
    [reg] has sent and printed its frame and raises [IndexError]; the
    registers are as before. *)
Theorem reg_short_reply typ s :
  hd [] (pending (ser s)) !! 1%nat = None ->
  reg typ s = (inl IndexError, told s ["R"] [frame s "R"]).
Proof.
  intros Hr. rewrite reg_run. unfold list_item.
  change (Z.to_nat 1) with 1%nat. by rewrite Hr.
Qed.

(** X25: for a [typ] that is none of ST, UF and DF, [reg] still sends
    [R] and reads the reply through, and on a well-formed reply it
    returns with nothing stored: the name is not refused. *)
Theorem reg_unknown_register typ d (l0 : string) ls rest s :
  register (F:=F) typ = None ->
  (forall i, (d i <= 9)%nat) ->
  pending (ser s) = (l0 :: Reply.encode d :: ls) :: rest ->
  reg typ s = (inr tt, told s ["R"] [frame s "R"]).
Proof.
  intros Hreg Hd Hp. rewrite (reg_reply _ _ _ _ _ _ Hd Hp).
  apply (for_seq_ok _ (fun _ => told s ["R"] [frame s "R"]) 32 0).
  intros i Hi.
  assert (Hk : (i / 4 < 8)%nat) by (apply Nat.Div0.div_lt_upper_bound; lia).
  assert (Hl : (i mod 4 < 4)%nat) by (apply Nat.mod_upper_bound; lia).
  rewrite bind_lift.
  unfold list_item. rewrite Nat2Z.id, list_lookup_fmap, lookup_seq_lt by done.
  cbn [fmap option_fmap option_map mret result_ret].
  rewrite bind_lift.
  unfold str_item. rewrite Nat2Z.id, get_group by done.
  cbn [mret result_ret].
  rewrite bind_lift, eval_digit_char by done. by rewrite Hreg.
Qed.
End RegisterRead.

Section RegisterSizes.
Context {F : Type} `{FloatOps F}.
Implicit Types (s : Axes.state F) (a : Axes.Axes F).
Import Axes.
Local Abbreviation M := (@Axes.M F).
Local Abbreviation steady := (Axes.steady (F:=F)).

Lemma sized_refl a : sized a a.
Proof. by repeat split. Qed.

Lemma sized_trans a1 a2 a3 : sized a1 a2 -> sized a2 a3 -> sized a1 a3.
Proof. intros (?&?&?) (?&?&?). repeat split; congruence. Qed.

Lemma steady_bind {A B} (m : M A) (f : A -> M B) :
  steady m -> (forall x, steady (f x)) -> steady (m ≫= f).
Proof.
  intros Hm Hf s. unfold mbind, M_bind.
  specialize (Hm s). destruct (m s) as [[e|x] s1]; [done|].
  eapply sized_trans; [exact Hm|]. apply Hf.
Qed.

Lemma steady_ret {A} (x : A) : steady (mret x).
Proof. intros s. apply sized_refl. Qed.

Lemma steady_lift {A} (r : result A) : steady (lift r).
Proof. intros s. apply sized_refl. Qed.

Lemma steady_throw {A} (e : exn) : steady (throw (A:=A) e).
Proof. intros s. apply sized_refl. Qed.

Lemma steady_get_self : steady get_self.
Proof. intros s. apply sized_refl. Qed.

Lemma steady_print x : steady (print x).
Proof. intros s. apply sized_refl. Qed.

Lemma steady_com command verbose : steady (com command verbose).
Proof. intros s. rewrite com_run. apply sized_refl. Qed.

Lemma steady_for {A} (xs : list A) (body : A -> M unit) :
  (forall x, steady (body x)) -> steady (for_ xs body).
Proof.
  intros Hb. induction xs as [|x xs IH]; simpl; [apply steady_ret|].
  apply steady_bind; [apply Hb|]. intros _. exact IH.
Qed.

Lemma steady_print2 x e : steady (print2 x e).
Proof.
  unfold print2. destruct e; [|apply steady_print].
  apply steady_bind; [apply steady_print|]. intros _. apply steady_throw.
Qed.

Lemma steady_print3 x e c : steady (print3 x e c).
Proof.
  unfold print3. destruct e; [|apply steady_print].
  apply steady_bind; [apply steady_print|]. intros _. apply steady_throw.
Qed.

Lemma steady_store_bit get set table i val :
  (forall a x, length x = length (get a) -> sized a (set a x)) ->
  steady (store_bit get set table i val).
Proof.
  intros Hset s. rewrite store_bit_run. unfold list_setitem.
  destruct (_ <? _)%nat; [|apply sized_refl].
  cbn [mret result_ret].
  assert (Hs : sized (self s) (set (self s) (<[Z.to_nat i:=val]> (get (self s)))))
    by (apply Hset, length_insert).
  destruct (val =? 0); [exact Hs|]. by destruct (table !! _).
Qed.

Ltac steady_steps :=
  repeat first
    [ apply steady_ret | apply steady_lift | apply steady_throw
    | apply steady_get_self | apply steady_print | apply steady_com
    | apply steady_print2 | apply steady_print3
    | (apply steady_for; intros ?)
    | (apply steady_store_bit; intros [] ? ?; by repeat split)
    | match goal with |- Axes.steady (if ?b then _ else _) => destruct b end
    | match goal with |- Axes.steady (if ?b then _ else _) => destruct b end
    | (apply steady_bind; [|intros ?]) ].

(** X26: no method changes the size of a register, whether it returns
    or raises; the registers of a new axis have 32 entries each, and so
    has every register of an axis at any later time. *)
Theorem registers_keep_size :
  (forall _id name scale typ,
     let a := Axes.__init__ (F:=F) _id name scale typ in
     length (status a) = 32%nat /\ length (usrflt a) = 32%nat /\
     length (drvflt a) = 32%nat) /\
  (forall command verbose, steady (com command verbose)) /\
  (forall keys lvar, steady (getvar keys lvar)) /\
  (forall py_eval cmd kwargs, steady (home py_eval cmd kwargs)) /\
  (forall index, steady (del_profile index)) /\
  (forall kwargs, steady (add_profile kwargs)) /\
  (forall num, steady (set_profile num)) /\
  steady reset /\
  (forall id_pro, steady (mvpro id_pro)) /\
  (forall typ, steady (reg typ)) /\
  (forall var, steady (mv var)) /\
  steady homeor.
Proof.
  repeat apply conj.
  - intros _id name scale typ a. by repeat split.
  - apply steady_com.
  - intros keys lvar. unfold getvar. steady_steps.
  - intros py_eval cmd kwargs. unfold home, home_get, home_set, home_go.
    steady_steps.
  - intros index s. rewrite del_profile_run.
    destruct (list_pop _ _); by repeat split.
  - intros kwargs s. rewrite add_profile_run.
    destruct (_ <? 8); [|apply sized_refl].
    destruct (Profile.__init__ _); by repeat split.
  - intros num. unfold set_profile. steady_steps.
  - unfold reset. steady_steps.
  - intros id_pro. unfold mvpro. steady_steps.
  - intros typ. unfold reg. steady_steps.
  - intros var. unfold mv. steady_steps.
  - unfold homeor. steady_steps.
Qed.
End RegisterSizes.

(** * Examples *)


Lemma home_set_negative_velocity_five :
  -5 < 0 /\
  home Scenario.no_eval "set" {[ "vel" := VNum (PInt (-5)) ]}
       (Scenario.start (Scenario.axis_x (F:=float)) []) =
    (inr tt,
     sent (Scenario.start Scenario.axis_x [])
          ["HOME1(+,0,--" +:+ str_int (- -5) +:+ ",10,0)"]).
Proof.
  split; [lia|].
  apply (home_set_negative_velocity Scenario.no_eval (-5)
           (Scenario.start Scenario.axis_x [])). lia.
Defined.

Lemma home_get_short_reply_timeout :
  home Scenario.no_eval "get" ∅ (Scenario.start (Scenario.axis_x (F:=float)) []) =
    (inl IndexError, sent (Scenario.start Scenario.axis_x []) ["HOME"]).
Proof. apply home_get_short_reply. reflexivity. Defined.

Lemma home_other_selector_stop :
  home Scenario.no_eval "stop" ∅ (Scenario.start (Scenario.axis_x (F:=float)) []) =
    (inr tt, Scenario.start Scenario.axis_x []).
Proof. apply home_other_selector; discriminate. Defined.

Lemma mvpro_unchecked_empty :
  set_profile (PInt 3) (Scenario.start (Scenario.axis_x (F:=float)) []) =
    (inl (AssertionError "profile number not defined"),
     Scenario.start Scenario.axis_x [])
  /\ mvpro (PInt 3) (Scenario.start (Scenario.axis_x (F:=float)) []) =
       (inr tt,
        sent (Scenario.start Scenario.axis_x [])
             ["USE(" +:+ py_str (PInt 3) +:+ ")"; "G"]).
Proof. apply mvpro_unchecked. vm_compute. reflexivity. Defined.

Lemma getvar_prints_serial_number :
  getvar [] ["SN"]
    (Scenario.start (Scenario.axis_x (F:=float)) [["1R(SN)"; "*12345"]]) =
    (inr tt,
     mkState (self (Scenario.start Scenario.axis_x [["1R(SN)"; "*12345"]]))
       (mkSerial
          (written (ser (Scenario.start Scenario.axis_x [["1R(SN)"; "*12345"]]))
           ++ (frame (Scenario.start Scenario.axis_x [["1R(SN)"; "*12345"]])
                 ∘ read_cmd <$> ["SN"]))
          [])
       (stdout (Scenario.start Scenario.axis_x [["1R(SN)"; "*12345"]])
        ++ zip_with (fun d l => d +:+ soft_space d +:+ l)
             ["Serial Number"] ["*12345"])).
Proof.
  refine (getvar_prints [] ["SN"] ["Serial Number"] [["1R(SN)"; "*12345"]]
            ["*12345"] []
            (Scenario.start Scenario.axis_x [["1R(SN)"; "*12345"]]) _ _ _ _).
  - repeat constructor.
  - repeat constructor.
  - reflexivity.
  - reflexivity.
Defined.

Lemma getvar_unknown_XX :
  getvar [] ["XX"; "SN"] (Scenario.start (Scenario.axis_x (F:=float)) []) =
    (inl (KeyError (KStr "XX")),
     sent (Scenario.start Scenario.axis_x []) [read_cmd "XX"]).
Proof. apply getvar_unknown. vm_compute. reflexivity. Defined.

Lemma getvar_short_reply_timeout :
  getvar [] ["SN"] (Scenario.start (Scenario.axis_x (F:=float)) []) =
    (inl IndexError,
     told (Scenario.start Scenario.axis_x []) [read_cmd "SN"] ["Serial Number"]).
Proof.
  apply getvar_short_reply; [vm_compute; reflexivity | reflexivity].
Defined.

Lemma reg_decodes_stationary :
  reg "ST" (Scenario.start (Scenario.axis_x (F:=float))
              [["1R"; Reply.encode (Scenario.only_bit 19)]]) =
    (inr tt,
     Reply.outcome (Scenario.start Scenario.axis_x [["1R"; Reply.encode (Scenario.only_bit 19)]])
       with_status (Z.of_nat ∘ Scenario.only_bit 19 <$> seq 0 32)
       (Reply.described dstatus (Scenario.only_bit 19) 32)).
Proof.
  refine (reg_decodes "ST" status with_status dstatus (Scenario.only_bit 19) "1R" [] []
            (Scenario.start Scenario.axis_x [["1R"; Reply.encode (Scenario.only_bit 19)]])
            _ _ _ _ _).
  - reflexivity.
  - reflexivity.
  - intros i. unfold Scenario.only_bit. destruct (i =? 19)%nat; lia.
  - intros i _. unfold Scenario.only_bit.
    destruct (Nat.eqb_spec i 19) as [->|_]; [|done].
    intros _. vm_compute. eauto.
  - reflexivity.
Defined.

Lemma reg_undescribed_bit8 :
  reg "ST" (Scenario.start (Scenario.axis_x (F:=float))
              [["1R"; Reply.encode (Scenario.only_bit 7)]]) =
    (inl (KeyError (KInt (Z.of_nat 7 + 1))),
     Reply.outcome (Scenario.start Scenario.axis_x [["1R"; Reply.encode (Scenario.only_bit 7)]])
       with_status
       (Reply.stored (status (self (Scenario.start Scenario.axis_x
                                [["1R"; Reply.encode (Scenario.only_bit 7)]])))
               (Scenario.only_bit 7) 8)
       (Reply.described dstatus (Scenario.only_bit 7) 7)).
Proof.
  refine (reg_undescribed "ST" status with_status dstatus (Scenario.only_bit 7) "1R" [] []
            (Scenario.start Scenario.axis_x [["1R"; Reply.encode (Scenario.only_bit 7)]])
            7 _ _ _ _ _ _ _ _).
  - reflexivity.
  - reflexivity.
  - intros i. unfold Scenario.only_bit. destruct (i =? 7)%nat; lia.
  - lia.
  - discriminate.
  - vm_compute. reflexivity.
  - intros i Hi. unfold Scenario.only_bit.
    destruct (Nat.eqb_spec i 7) as [->|_]; [lia|done].
  - reflexivity.
Defined.

Lemma reg_short_reply_timeout :
  reg "ST" (Scenario.start (Scenario.axis_x (F:=float)) []) =
    (inl IndexError,
     told (Scenario.start Scenario.axis_x []) ["R"]
          [frame (Scenario.start Scenario.axis_x []) "R"]).
Proof. apply reg_short_reply. reflexivity. Defined.

Lemma reg_unknown_register_XX :
  reg "XX" (Scenario.start (Scenario.axis_x (F:=float))
              [["1R"; Reply.encode (Scenario.only_bit 19)]]) =
    (inr tt,
     told (Scenario.start Scenario.axis_x [["1R"; Reply.encode (Scenario.only_bit 19)]])
          ["R"]
          [frame (Scenario.start Scenario.axis_x
                    [["1R"; Reply.encode (Scenario.only_bit 19)]]) "R"]).
Proof.
  refine (reg_unknown_register "XX" (Scenario.only_bit 19) "1R" [] []
            (Scenario.start Scenario.axis_x [["1R"; Reply.encode (Scenario.only_bit 19)]])
            _ _ _).
  - reflexivity.
  - intros i. unfold Scenario.only_bit. destruct (i =? 19)%nat; lia.
  - reflexivity.
Defined.
